(** * nodejs-firestore: the write-batch pipeline and its validation layer

    A shallow embedding of
      - src/dev/src/validate.ts   (module [Validate]),
      - src/unnamed/part_000      (module [Part000], a second copy of the
                                   validation layer),
      - src/unnamed/part_001      (module [Util]: read options, getAll),
      - src/dev/src/write-batch.ts (module [WriteBatch]),
    followed by the properties of the specification that concern them. *)

From Stdlib Require Import List String Ascii Bool Arith ZArith QArith Qround Lia Lqa.
From Stdlib Require Import Sorting.Sorted Sorting.Permutation.
Import ListNotations.

Close Scope Q_scope.
Open Scope nat_scope.
Open Scope string_scope.
Open Scope list_scope.

(* ================================================================== *)
(** * JavaScript values *)
(* ================================================================== *)

Module JS.

(** A JavaScript number.  The code only compares numbers and tests them for
    NaN, so a finite double is represented by the rational it denotes; the
    two infinities and NaN are kept apart. *)
Inductive JsNumber : Type :=
| NaN
| NegInfinity
| Finite (q : Q)
| PosInfinity.

Definition Qltb (x y : Q) : bool := negb (Qle_bool y x).

(** [a < b] of JavaScript: false as soon as one side is NaN. *)
Definition num_lt (a b : JsNumber) : bool :=
  match a, b with
  | NaN, _ => false
  | _, NaN => false
  | NegInfinity, NegInfinity => false
  | NegInfinity, _ => true
  | Finite _, NegInfinity => false
  | Finite x, Finite y => Qltb x y
  | Finite _, PosInfinity => true
  | PosInfinity, _ => false
  end.

(** [a > b] is [b < a]. *)
Definition num_gt (a b : JsNumber) : bool := num_lt b a.

(** [a <= b] of JavaScript. *)
Definition num_le (a b : JsNumber) : bool :=
  match a, b with
  | NaN, _ => false
  | _, NaN => false
  | NegInfinity, _ => true
  | Finite _, NegInfinity => false
  | Finite x, Finite y => Qle_bool x y
  | Finite _, PosInfinity => true
  | PosInfinity, PosInfinity => true
  | PosInfinity, _ => false
  end.

(** [isNaN(x)] on a number, also [x !== x]. *)
Definition num_isNaN (a : JsNumber) : bool :=
  match a with NaN => true | _ => false end.

Definition num_isFinite (a : JsNumber) : bool :=
  match a with Finite _ => true | _ => false end.

(** The constructor an object was made with: its [name], and whether it is
    the class this package itself exports ([instanceof] holds) or a
    same-named class of another copy of the package. *)
Record Constructor : Type := mkCtor { ctor_name : string; ctor_own : bool }.

(** The kinds of function values: [Object.prototype.toString] answers
    [[object Function]], [[object AsyncFunction]] or
    [[object GeneratorFunction]] for them. *)
Inductive FunctionKind : Type :=
| PlainFunction
| AsyncFunction
| GeneratorFunction.

(** [VObject] is an object whose tag is [[object Object]]: an object literal
    or an instance of a class; its properties are the own enumerable ones, in
    enumeration order.  [VExotic] is an instance of a built-in class with a
    tag of its own, [[object Date]], [[object Map]], [[object RegExp]] and
    the like. *)
#[warnings="-register-all"]
Inductive JsValue : Type :=
| VUndefined
| VNull
| VBoolean (b : bool)
| VNumber (n : JsNumber)
| VString (s : string)
| VFunction (kind : FunctionKind)
| VArray (items : list JsValue)
| VObject (ctor : Constructor) (props : list (string * JsValue))
| VExotic (className : string) (props : list (string * JsValue)).

Definition typeof (v : JsValue) : string :=
  match v with
  | VUndefined => "undefined"
  | VNull => "object"
  | VBoolean _ => "boolean"
  | VNumber _ => "number"
  | VString _ => "string"
  | VFunction _ => "function"
  | VArray _ => "object"
  | VObject _ _ => "object"
  | VExotic _ _ => "object"
  end.

Definition is_undefined (v : JsValue) : bool :=
  match v with VUndefined => true | _ => false end.

Definition is_null (v : JsValue) : bool :=
  match v with VNull => true | _ => false end.

(** Truthiness, as tested by [if (v)], [v && ...] and [v || ...]. *)
Definition truthy (v : JsValue) : bool :=
  match v with
  | VUndefined | VNull => false
  | VBoolean b => b
  | VNumber NaN => false
  | VNumber (Finite q) => negb (Qeq_bool q 0)
  | VNumber _ => true
  | VString s => negb (String.eqb s EmptyString)
  | VFunction _ | VArray _ | VObject _ _ | VExotic _ _ => true
  end.

Definition Array_isArray (v : JsValue) : bool :=
  match v with VArray _ => true | _ => false end.

(** [is.object] of the 'is' package: the value's [Object.prototype.toString]
    tag is [[object Object]]; false for arrays, functions, null, primitives
    and the instances of built-in classes with a tag of their own. *)
Definition is_object (v : JsValue) : bool :=
  match v with VObject _ _ => true | _ => false end.

(** [is.nan] of the 'is' package and the global [isNaN], on a value whose
    [typeof] is 'number'. *)
Definition is_nan (v : JsValue) : bool :=
  match v with VNumber n => num_isNaN n | _ => true end.

(** The number held by a value whose [typeof] is 'number'. *)
Definition asNumber (v : JsValue) : JsNumber :=
  match v with VNumber n => n | _ => NaN end.

(** [val.constructor.name] where [constructor] is the inherited property:
    the class of the object; arrays answer 'Array'. *)
Definition constructor_name (v : JsValue) : string :=
  match v with
  | VObject c _ => ctor_name c
  | VExotic className _ => className
  | VArray _ => "Array"
  | VBoolean _ => "Boolean"
  | VNumber _ => "Number"
  | VString _ => "String"
  | VFunction PlainFunction => "Function"
  | VFunction AsyncFunction => "AsyncFunction"
  | VFunction GeneratorFunction => "GeneratorFunction"
  | VUndefined | VNull => EmptyString
  end.

(** [v instanceof C] for a class [C] exported by this package. *)
Definition instanceof (v : JsValue) (cls : string) : bool :=
  match v with
  | VObject c _ => ctor_own c && String.eqb (ctor_name c) cls
  | _ => false
  end.

Fixpoint lookup (k : string) (props : list (string * JsValue)) : JsValue :=
  match props with
  | [] => VUndefined
  | (k', v) :: rest => if String.eqb k k' then v else lookup k rest
  end.

(** Pieces of a message built by a template literal. *)
Inductive Frag : Type :=
| Txt (s : string)          (* literal text or an interpolated string *)
| DQ                        (* one double-quote character *)
| Num (n : JsNumber)        (* an interpolated number *)
| Idx (n : nat)             (* an interpolated index or count *)
| Segs (p : list string).   (* an interpolated field path *)

Definition Message : Type := list Frag.

Inductive JsError : Type :=
| Error (message : Message)
| TypeError (message : Message)
| AssertionError (message : Message).

Definition err_message (e : JsError) : Message :=
  match e with
  | Error m | TypeError m | AssertionError m => m
  end.

(** The outcome of a call that may throw. *)
Inductive Result (A : Type) : Type :=
| Ok (a : A)
| Throw (e : JsError).
Arguments Ok {A} a.
Arguments Throw {A} e.

Definition rbind {A B} (r : Result A) (k : A -> Result B) : Result B :=
  match r with
  | Ok a => k a
  | Throw e => Throw e
  end.

Definition is_ok {A} (r : Result A) : bool :=
  match r with Ok _ => true | Throw _ => false end.

(** [o.k] : reading a property of null or undefined is a TypeError, of any
    other value without that property it is [undefined]. *)
Definition getProp (o : JsValue) (k : string) : Result JsValue :=
  match o with
  | VUndefined | VNull =>
      Throw (TypeError [Txt "Cannot read property '"; Txt k; Txt "' of ";
                        Txt (match o with VNull => "null" | _ => "undefined" end)])
  | VObject _ props | VExotic _ props => Ok (lookup k props)
  | _ => Ok VUndefined
  end.

(** The same read where the receiver is known not to be null or undefined. *)
Definition prop (o : JsValue) (k : string) : JsValue :=
  match o with
  | VObject _ props | VExotic _ props => lookup k props
  | _ => VUndefined
  end.

(** An argument is named by a string or by its position. *)
Inductive ArgName : Type :=
| ArgStr (s : string)
| ArgIdx (n : nat).

Definition Object_ctor : Constructor := mkCtor "Object" true.

(** An object literal [{k: v, ...}]. *)
Definition obj (props : list (string * JsValue)) : JsValue :=
  VObject Object_ctor props.

End JS.
Import JS.

Declare Scope result_scope.
Delimit Scope result_scope with result.
Notation "x <- c ;; k" := (rbind c (fun x => k))
  (at level 61, c at next level, right associativity) : result_scope.
Notation "c ;;; k" := (rbind c (fun _ => k))
  (at level 61, right associativity) : result_scope.

(* ================================================================== *)
(** * src/dev/src/validate.ts *)
(* ================================================================== *)

(** [AllowOptional & AllowValueRange]: every field may be absent. *)
Record ValidationOptions : Type := mkOptions {
  optional : option bool;
  minValue : option JsNumber;
  maxValue : option JsNumber
}.

Definition formatPlural (num : nat) (str : string) : Message :=
  [Idx num; Txt " "; Txt str] ++ (if Nat.eqb num 1 then [Txt EmptyString] else [Txt "s"]).

Definition formatArgumentName (arg : ArgName) : Message :=
  match arg with
  | ArgStr s => [DQ; Txt s; DQ]
  | ArgIdx n => [Txt "at index "; Idx n]
  end.

Definition createErrorDescription (arg : ArgName) (expectedType : string) : Message :=
  [Txt "Argument "] ++ formatArgumentName arg ++
  [Txt " is not a valid "; Txt expectedType; Txt "."].

Definition isOptional (value : JsValue) (options : option ValidationOptions) : bool :=
  is_undefined value &&
  match options with
  | Some o => match optional o with Some true => true | _ => false end
  | None => false
  end.

(** [formatPlural], [formatArgumentName], [createErrorDescription] and
    [isOptional] read the same in validate.ts and in part_000 and are embedded
    once, like the message templates below. *)

(** [path ? ` (found in field ${path.toString()})` : ''] *)
Definition fieldPathMessage (path : option (list string)) : Message :=
  match path with
  | Some p => [Txt " (found in field "; Segs p; Txt ")"]
  | None => [Txt EmptyString]
  end.

(** The four messages [customObjectMessage] can produce. *)
Definition mismatchMessage (arg : ArgName) (typeName : string)
    (path : option (list string)) : Message :=
  createErrorDescription arg "Firestore document" ++
  [Txt " Detected an object of type "; DQ; Txt typeName; DQ;
   Txt " that doesn't match the expected instance"] ++ fieldPathMessage path ++
  [Txt ". Please ensure that the Firestore types you are using are from the same NPM package.)"].

Definition customPrototypeMessage (arg : ArgName) (typeName : string)
    (path : option (list string)) : Message :=
  createErrorDescription arg "Firestore document" ++
  [Txt " Couldn't serialize object of type "; DQ; Txt typeName; DQ] ++
  fieldPathMessage path ++
  [Txt ". Firestore doesn't support JavaScript objects with custom prototypes (i.e. objects that were created via the ";
   DQ; Txt "new"; DQ; Txt " operator)."].

Definition notPlainObjectMessage (arg : ArgName) (path : option (list string)) : Message :=
  createErrorDescription arg "Firestore document" ++
  [Txt " Input is not a plain JavaScript object"] ++ fieldPathMessage path ++ [Txt "."].

Definition invalidUseMessage (arg : ArgName) (type : string)
    (path : option (list string)) : Message :=
  createErrorDescription arg "Firestore document" ++
  [Txt " Invalid use of type "; DQ; Txt type; DQ; Txt " as a Firestore argument"] ++
  fieldPathMessage path ++ [Txt "."].

Definition rangeMessage (arg : ArgName) (min max value : JsNumber) : Message :=
  [Txt "Value for argument "] ++ formatArgumentName arg ++
  [Txt " must be within ["; Num min; Txt ", "; Num max;
   Txt "] inclusive, but was: "; Num value].

(** The domain types [customObjectMessage] recognises by name. *)
Definition isDomainTypeName (typeName : string) : bool :=
  String.eqb typeName "DocumentReference" || String.eqb typeName "FieldPath" ||
  String.eqb typeName "FieldValue" || String.eqb typeName "GeoPoint" ||
  String.eqb typeName "Timestamp".

(** ** Tests used by the other validators *)

(** [is.function] of the 'is' package: the value's tag is one of the three
    function tags. *)
Definition is_function (v : JsValue) : bool :=
  match v with VFunction _ => true | _ => false end.

(** Rounding towards zero. *)
Definition Qtrunc (q : Q) : Z :=
  if Qle_bool 0 q then Qfloor q else Qceiling q.

(** [a % 1]: the remainder has the sign of [a]; NaN for NaN and the
    infinities. *)
Definition num_mod1 (a : JsNumber) : JsNumber :=
  match a with
  | Finite q => Finite (q - inject_Z (Qtrunc q))%Q
  | _ => NaN
  end.

(** [a === b] on two numbers. *)
Definition num_eq (a b : JsNumber) : bool :=
  match a, b with
  | Finite x, Finite y => Qeq_bool x y
  | NegInfinity, NegInfinity => true
  | PosInfinity, PosInfinity => true
  | _, _ => false
  end.

(** [is.integer] of the 'is' package:
    [is.number(value) && !isActualNaN(value) && value % 1 === 0]. *)
Definition is_integer (v : JsValue) : bool :=
  match v with
  | VNumber n => negb (num_isNaN n) && num_eq (num_mod1 n) (Finite 0)
  | _ => false
  end.

(** [allowed === val] for a string [allowed]. *)
Definition string_strict_eq (allowed : string) (val : JsValue) : bool :=
  match val with VString s => String.eqb allowed s | _ => false end.

(** The loop of [validatePropertyValue]: [None] when it returns on a match,
    else the [expectedDescription] it has collected. *)
Fixpoint propertyValueLoop (val : JsValue) (values expectedDescription : list string)
    : option (list string) :=
  match values with
  | [] => Some expectedDescription
  | allowed :: rest =>
      if string_strict_eq allowed val then None
      else propertyValueLoop val rest (expectedDescription ++ [allowed])
  end.

Definition invalidValueMessage (arg : ArgName) (expectedDescription : list string) : Message :=
  [Txt "Invalid value for argument "] ++ formatArgumentName arg ++
  [Txt ". Acceptable values are: "; Txt (String.concat ", " expectedDescription)].

(** [validateString], [validateBoolean] and [validatePropertyValue] read the
    same in validate.ts and in part_000. *)
Definition validateString (arg : ArgName) (value : JsValue)
    (options : option ValidationOptions) : Result unit :=
  if negb (isOptional value options) then
    if negb (String.eqb (typeof value) "string") then
      Throw (Error (createErrorDescription arg "string"))
    else Ok tt
  else Ok tt.

Definition validateBoolean (arg : ArgName) (value : JsValue)
    (options : option ValidationOptions) : Result unit :=
  if negb (isOptional value options) then
    if negb (String.eqb (typeof value) "boolean") then
      Throw (Error (createErrorDescription arg "boolean"))
    else Ok tt
  else Ok tt.

Definition validatePropertyValue (arg : ArgName) (val : JsValue) (values : list string)
    (options : option ValidationOptions) : Result unit :=
  if negb (isOptional val options) then
    match propertyValueLoop val values [] with
    | None => Ok tt
    | Some expectedDescription => Throw (Error (invalidValueMessage arg expectedDescription))
    end
  else Ok tt.

Module Validate.

Definition validateObject (arg : ArgName) (value : JsValue)
    (options : option ValidationOptions) : Result unit :=
  if negb (isOptional value options) then
    if negb (is_object value) then
      Throw (Error (createErrorDescription arg "object"))
    else Ok tt
  else Ok tt.

Definition validateNumber (arg : ArgName) (value : JsValue)
    (options : option ValidationOptions) : Result unit :=
  let min := match options with
             | Some o => match minValue o with Some m => m | None => NegInfinity end
             | None => NegInfinity
             end in
  let max := match options with
             | Some o => match maxValue o with Some m => m | None => NegInfinity end
             | None => NegInfinity
             end in
  if negb (isOptional value options) then
    if negb (String.eqb (typeof value) "number") || is_nan value then
      Throw (Error (createErrorDescription arg "number"))
    else if num_lt (asNumber value) min || num_gt (asNumber value) max then
      Throw (Error (rangeMessage arg min max (asNumber value)))
    else Ok tt
  else Ok tt.

Definition validateMinNumberOfArguments (funcName : string) (args : list JsValue)
    (minSize : nat) : Result unit :=
  if Nat.ltb (List.length args) minSize then
    Throw (Error ([Txt "Function "; DQ; Txt funcName; Txt "()"; DQ;
                   Txt " requires at least "] ++ formatPlural minSize "argument" ++ [Txt "."]))
  else Ok tt.

Definition validateMaxNumberOfArguments (funcName : string) (args : list JsValue)
    (maxSize : nat) : Result unit :=
  if Nat.ltb maxSize (List.length args) then
    Throw (Error ([Txt "Function "; DQ; Txt funcName; Txt "()"; DQ;
                   Txt " accepts at most "] ++ formatPlural maxSize "argument" ++ [Txt "."]))
  else Ok tt.

Definition customObjectMessage (argumentName : ArgName) (val : JsValue)
    (path : option (list string)) : Message :=
  if is_object val && negb (String.eqb (constructor_name val) "Object") then
    let typeName := constructor_name val in
    if isDomainTypeName typeName then mismatchMessage argumentName typeName path
    else customPrototypeMessage argumentName typeName path
  else if negb (is_object val) then
    notPlainObjectMessage argumentName path
  else
    invalidUseMessage argumentName (typeof val) path.

Definition validateFunction (arg : ArgName) (value : JsValue)
    (options : option ValidationOptions) : Result unit :=
  if negb (isOptional value options) then
    if negb (is_function value) then
      Throw (Error (createErrorDescription arg "function"))
    else Ok tt
  else Ok tt.

Definition validateInteger (arg : ArgName) (value : JsValue)
    (options : option ValidationOptions) : Result unit :=
  let min := match options with
             | Some o => match minValue o with Some m => m | None => NegInfinity end
             | None => NegInfinity
             end in
  let max := match options with
             | Some o => match maxValue o with Some m => m | None => PosInfinity end
             | None => PosInfinity
             end in
  if negb (isOptional value options) then
    if negb (String.eqb (typeof value) "number") || negb (is_integer value) then
      Throw (Error (createErrorDescription arg "integer"))
    else if num_lt (asNumber value) min || num_gt (asNumber value) max then
      Throw (Error (rangeMessage arg min max (asNumber value)))
    else Ok tt
  else Ok tt.

End Validate.

(* ================================================================== *)
(** * src/unnamed/part_000 *)
(* ================================================================== *)

Module Part000.

Definition validateObject (arg : ArgName) (value : JsValue)
    (options : option ValidationOptions) : Result unit :=
  if negb (isOptional value options) then
    if negb (String.eqb (typeof value) "object") && is_null value then
      Throw (Error (createErrorDescription arg "object"))
    else Ok tt
  else Ok tt.

Definition validateNumber (arg : ArgName) (value : JsValue)
    (options : option ValidationOptions) : Result unit :=
  let min := match options with
             | Some o => match minValue o with Some m => m | None => NegInfinity end
             | None => NegInfinity
             end in
  let max := match options with
             | Some o => match maxValue o with Some m => m | None => NegInfinity end
             | None => NegInfinity
             end in
  if negb (isOptional value options) then
    if negb (String.eqb (typeof value) "number") || is_nan value then
      Throw (Error (createErrorDescription arg "number"))
    else if num_lt (asNumber value) min || num_gt (asNumber value) max then
      Throw (Error (rangeMessage arg min max (asNumber value)))
    else Ok tt
  else Ok tt.

Definition customObjectMessage (argumentName : ArgName) (val : JsValue)
    (path : option (list string)) : Message :=
  if String.eqb (typeof val) "object" && negb (is_null val) then
    let typeName := constructor_name val in
    if isDomainTypeName typeName then mismatchMessage argumentName typeName path
    else customPrototypeMessage argumentName typeName path
  else
    invalidUseMessage argumentName (typeof val) path.

(** [val && {}.toString.call(val) === '[object Function]'], as a condition:
    async and generator functions have another tag. *)
Definition isFunction (val : JsValue) : bool :=
  truthy val && match val with VFunction PlainFunction => true | _ => false end.

Definition validateFunction (arg : ArgName) (value : JsValue)
    (options : option ValidationOptions) : Result unit :=
  if negb (isOptional value options) then
    if negb (isFunction value) then
      Throw (Error (createErrorDescription arg "function"))
    else Ok tt
  else Ok tt.

Definition validateInteger (arg : ArgName) (value : JsValue)
    (options : option ValidationOptions) : Result unit :=
  let min := match options with
             | Some o => match minValue o with Some m => m | None => NegInfinity end
             | None => NegInfinity
             end in
  let max := match options with
             | Some o => match maxValue o with Some m => m | None => PosInfinity end
             | None => PosInfinity
             end in
  if negb (isOptional value options) then
    if negb (String.eqb (typeof value) "number") || is_nan value ||
       negb (num_eq (num_mod1 (asNumber value)) (Finite 0)) then
      Throw (Error (createErrorDescription arg "integer"))
    else if num_lt (asNumber value) min || num_gt (asNumber value) max then
      Throw (Error (rangeMessage arg min max (asNumber value)))
    else Ok tt
  else Ok tt.

End Part000.

(* ================================================================== *)
(** * Field paths *)
(* ================================================================== *)

Module FieldPath.

(** Modelled from the spec: src/dev/src/path.ts is not part of the sources;
    section 3 describes a field path as an ordered sequence of string
    segments, equal iff the segment sequences are equal. *)
Definition t : Type := list string.

(** Lexicographic comparison of two sequences, element by element; a proper
    prefix comes first. *)
Fixpoint lexCompare {A : Type} (cmp : A -> A -> comparison) (l r : list A) : comparison :=
  match l, r with
  | [], [] => Eq
  | [], _ :: _ => Lt
  | _ :: _, [] => Gt
  | a :: l', b :: r' =>
      match cmp a b with
      | Eq => lexCompare cmp l' r'
      | c => c
      end
  end.

(** [a < b] and [a > b] on two strings: code unit by code unit. *)
Definition compareSegment (a b : string) : comparison :=
  lexCompare Ascii.compare (list_ascii_of_string a) (list_ascii_of_string b).

(** Modelled from the spec: [FieldPath.compareTo] of path.ts, "total order
    defined lexicographically over segments"; negative, zero or positive as
    a comparator for [Array.prototype.sort]. *)
Definition compareTo (p q : t) : Z :=
  match lexCompare compareSegment p q with
  | Lt => (-1)%Z
  | Eq => 0%Z
  | Gt => 1%Z
  end.

(** Modelled from the spec: [FieldPath.isPrefixOf] of path.ts, "true iff
    [q]'s segments start with all of [p]'s segments". *)
Fixpoint isPrefixOf (p q : t) : bool :=
  match p, q with
  | [], _ => true
  | _ :: _, [] => false
  | a :: p', b :: q' => String.eqb a b && isPrefixOf p' q'
  end.

End FieldPath.

(* ================================================================== *)
(** * Wire types and collaborators *)
(* ================================================================== *)

(** The proto messages of the commit RPC (section 6 of the spec), with the
    field names of the wire format. *)
Record ITimestamp : Type := mkITimestamp { seconds : Z; nanos : Z }.

Inductive IPrecondition : Type :=
| PExists (exists_ : bool)
| PUpdateTime (updateTime : ITimestamp).

Record IDocument : Type := mkIDocument {
  doc_name : string;
  doc_fields : list (FieldPath.t * JsValue)
}.

Record IDocumentTransform : Type := mkIDocumentTransform {
  tr_document : string;
  tr_fieldTransforms : list (FieldPath.t * string)
}.

Record IDocumentMask : Type := mkIDocumentMask { fieldPaths : list FieldPath.t }.

Record IWrite : Type := mkIWrite {
  w_update : option IDocument;
  w_delete : option string;
  w_transform : option IDocumentTransform;
  updateMask : option IDocumentMask;
  currentDocument : option IPrecondition
}.

Definition set_updateMask (w : IWrite) (m : IDocumentMask) : IWrite :=
  mkIWrite (w_update w) (w_delete w) (w_transform w) (Some m) (currentDocument w).

Definition set_currentDocument (w : IWrite) (p : IPrecondition) : IWrite :=
  mkIWrite (w_update w) (w_delete w) (w_transform w) (updateMask w) (Some p).

(** The [Timestamp] class of ./timestamp. *)
Record Timestamp : Type := mkTimestamp { ts_seconds : Z; ts_nanoseconds : Z }.

(** A [Map<FieldPath, unknown>]: its entries in insertion order.  The keys
    are objects, so two entries may carry equal paths. *)
Definition UpdateMap : Type := list (FieldPath.t * JsValue).

Inductive AllowDeletes : Type := DeletesNone | DeletesRoot | DeletesAll.

Record UserInputOptions : Type := mkUserInputOptions {
  allowEmpty : bool;
  allowDeletes : AllowDeletes;
  allowTransforms : bool
}.

(** What write-batch.ts and part_001 call without defining it: their imports
    from files that are not part of the sources (./reference, ./path,
    ./serializer, ./document, ./timestamp), and the functions that arrive
    inside the caller's values, of which the value model keeps the kind and
    not the body.  The properties below hold for every implementation. *)
Class Collaborators : Type := {
  (* ./reference *)
  validateDocumentReference : ArgName -> JsValue -> Result unit;
  formattedName : JsValue -> string;
  (* ./path *)
  validateFieldPath : ArgName -> JsValue -> Result unit;
  FieldPath_fromArgument : JsValue -> FieldPath.t;
  (* ./serializer *)
  isPlainObject : JsValue -> bool;
  (* ./document *)
  validateUserInput :
    ArgName -> JsValue -> string -> UserInputOptions -> FieldPath.t -> Result unit;
  validateFieldValue : ArgName -> JsValue -> FieldPath.t -> Result unit;
  DocumentSnapshot : Type;
  DocumentSnapshot_fromObject : JsValue -> JsValue -> DocumentSnapshot;
  DocumentSnapshot_fromUpdateMap : JsValue -> UpdateMap -> DocumentSnapshot;
  DocumentSnapshot_isEmpty : DocumentSnapshot -> bool;
  DocumentSnapshot_toProto : DocumentSnapshot -> IWrite;
  DocumentTransform : Type;
  DocumentTransform_fromObject : JsValue -> JsValue -> DocumentTransform;
  DocumentTransform_fromUpdateMap : JsValue -> UpdateMap -> DocumentTransform;
  DocumentTransform_validate : DocumentTransform -> Result unit;
  DocumentTransform_isEmpty : DocumentTransform -> bool;
  DocumentTransform_fields : DocumentTransform -> list FieldPath.t;
  DocumentTransform_toProto : DocumentTransform -> option IWrite;
  DocumentMask : Type;
  DocumentMask_fromFieldMask : JsValue -> DocumentMask;
  DocumentMask_fromObject : JsValue -> DocumentMask;
  DocumentMask_fromUpdateMap : UpdateMap -> DocumentMask;
  DocumentMask_applyTo : DocumentMask -> JsValue -> JsValue;
  DocumentMask_removeFields : DocumentMask -> list FieldPath.t -> DocumentMask;
  DocumentMask_isEmpty : DocumentMask -> bool;
  DocumentMask_toProto : DocumentMask -> IDocumentMask;
  (* [new Precondition(options).toProto()] *)
  Precondition_toProto : JsValue -> option IPrecondition;
  (* ./timestamp *)
  Timestamp_fromProto : ITimestamp -> Timestamp;
  (* [f.call(thisArg, ...args)] for a function [f] of the caller *)
  callFunction : JsValue -> JsValue -> list JsValue -> Result JsValue
}.

(** [array[i]]: undefined out of range. *)
Definition js_nth (i : nat) (items : list JsValue) : JsValue := nth i items VUndefined.

Definition array_items (v : JsValue) : list JsValue :=
  match v with VArray items => items | _ => [] end.

(* ================================================================== *)
(** * src/unnamed/part_001 *)
(* ================================================================== *)

Module Util.

(** The alphabet of [autoId]. *)
Definition chars : string :=
  "ABCDEFGHIJKLMNOPQRSTUVWXYZabcdefghijklmnopqrstuvwxyz0123456789".

(** [s.charAt(i)]: the empty string out of range. *)
Definition charAt (s : string) (i : nat) : string :=
  match String.get i s with
  | Some c => String c EmptyString
  | None => EmptyString
  end.

(** The loop [for (let i = 0; i < 20; i++)] of [autoId], with [n] rounds to
    go; [draw i] is the value of
    [Math.floor(Math.random() * chars.length)] in round [i]. *)
Fixpoint autoIdFrom (draw : nat -> nat) (i n : nat) (autoId : string) : string :=
  match n with
  | O => autoId
  | S n' => autoIdFrom draw (S i) n' (autoId ++ charAt chars (draw i))
  end.

Definition autoId (draw : nat -> nat) : string := autoIdFrom draw 0 20 EmptyString.

(** [autoId().substr(0, 5)] *)
Definition requestTag (draw : nat -> nat) : string := String.substring 0 5 (autoId draw).
Section WithCollaborators.
Context {C : Collaborators}.

(** The loop of [validateReadOptions] over [options.fieldMask], from index
    [i] on. *)
Fixpoint validateFieldMaskFrom (arg : ArgName) (i : nat) (items : list JsValue)
    : Result unit :=
  match items with
  | [] => Ok tt
  | x :: rest =>
      match validateFieldPath (ArgIdx i) x with
      | Ok _ => validateFieldMaskFrom arg (S i) rest
      | Throw err =>
          Throw (Error (createErrorDescription arg "read option" ++
                        [Txt " "; DQ; Txt "fieldMask"; DQ; Txt " is not valid: "] ++
                        err_message err))
      end
  end.

Definition validateReadOptions (arg : ArgName) (val : JsValue) : Result unit :=
  if negb (is_undefined val) then
    ((if negb (String.eqb (typeof val) "object") && is_null val then
        Throw (Error (createErrorDescription arg "read option" ++
                      [Txt " Input is not an object.'"]))
      else Ok tt) ;;;
     fieldMask <- getProp val "fieldMask" ;;
     (if is_undefined fieldMask then Ok tt else Ok tt) ;;;
     if negb (Array_isArray fieldMask) then
       Throw (Error (createErrorDescription arg "read option" ++
                     [Txt " "; DQ; Txt "fieldMask"; DQ; Txt " is not an array."]))
     else validateFieldMaskFrom arg 0 (array_items fieldMask))%result
  else Ok tt.

(** The loop of [parseGetAllArguments] over [documents], from index [i] on. *)
Fixpoint validateDocumentsFrom (i : nat) (documents : list JsValue) : Result unit :=
  match documents with
  | [] => Ok tt
  | d :: rest =>
      (validateDocumentReference (ArgIdx i) d ;;; validateDocumentsFrom (S i) rest)%result
  end.

(** The [documents] and [readOptions] that [parseGetAllArguments] picks from
    its arguments. *)
Definition splitGetAllArguments (documentRefsOrReadOptions : list JsValue)
    : list JsValue * JsValue :=
  let usesDeprecatedArgumentStyle := Array_isArray (js_nth 0 documentRefsOrReadOptions) in
  if usesDeprecatedArgumentStyle then
    (array_items (js_nth 0 documentRefsOrReadOptions), js_nth 1 documentRefsOrReadOptions)
  else if Nat.ltb 0 (List.length documentRefsOrReadOptions) &&
          isPlainObject (js_nth (List.length documentRefsOrReadOptions - 1)
                                documentRefsOrReadOptions) then
    (removelast documentRefsOrReadOptions, last documentRefsOrReadOptions VUndefined)
  else (documentRefsOrReadOptions, VUndefined).

Definition parseGetAllArguments (documentRefsOrReadOptions : list JsValue)
    : Result (option (list FieldPath.t) * list JsValue) :=
  let '(documents, readOptions) := splitGetAllArguments documentRefsOrReadOptions in
  (validateDocumentsFrom 0 documents ;;;
   validateReadOptions (ArgStr "options") readOptions ;;;
   let fieldMask :=
     if truthy readOptions && truthy (prop readOptions "fieldMask") then
       Some (map FieldPath_fromArgument (array_items (prop readOptions "fieldMask")))
     else None in
   Ok (fieldMask, documents))%result.

End WithCollaborators.
End Util.

(* ================================================================== *)
(** * src/dev/src/write-batch.ts *)
(* ================================================================== *)

Module WriteBatch.

Definition GCF_IDLE_TIMEOUT_MS : Z := 110 * 1000.

Record WriteResult : Type := mkWriteResult { _writeTime : Timestamp }.

Definition writeTime (r : WriteResult) : Timestamp := _writeTime r.

(** Helper type to manage the list of writes in a WriteBatch. *)
Record WriteOp : Type := mkWriteOp {
  write : option IWrite;
  transform : option IWrite;
  precondition : option IPrecondition
}.

(** The mutable fields of a [WriteBatch]. *)
Record Batch : Type := mkBatch {
  _writes : list WriteOp;
  _committed : bool
}.

Definition newBatch : Batch := mkBatch [] false.

Definition isEmpty (b : Batch) : bool := Nat.eqb (List.length (_writes b)) 0.

(** A method of the batch: it may change the batch and it may throw; when
    it throws, the batch is left as it was at the [throw]. *)
Definition M (A : Type) : Type := Batch -> Batch * Result A.

Definition ret {A} (a : A) : M A := fun b => (b, Ok a).

Definition bind {A B} (m : M A) (k : A -> M B) : M B :=
  fun b =>
    match m b with
    | (b', Ok a) => k a b'
    | (b', Throw e) => (b', Throw e)
    end.

(** A call that does not touch the batch. *)
Definition lift {A} (r : Result A) : M A := fun b => (b, r).

(** [this._writes.push(op)] *)
Definition push (op : WriteOp) : M unit :=
  fun b => (mkBatch (_writes b ++ [op]) (_committed b), Ok tt).

Declare Scope batch_scope.
Delimit Scope batch_scope with batch.
Notation "x <- c ;; k" := (bind c (fun x => k))
  (at level 61, c at next level, right associativity) : batch_scope.
Notation "c ;;; k" := (bind c (fun _ => k))
  (at level 61, right associativity) : batch_scope.

Definition notCommittedError : JsError :=
  Error [Txt "Cannot modify a WriteBatch that has been committed."].

Definition verifyNotCommitted : M unit :=
  fun b => if _committed b then (b, Throw notCommittedError) else (b, Ok tt).

Definition own_props (v : JsValue) : list (string * JsValue) :=
  match v with VObject _ props | VExotic _ props => props | _ => [] end.

(** Whether [k] is an own property of [v], also when its value is
    [undefined]. *)
Definition hasOwn (v : JsValue) (k : string) : bool :=
  existsb (fun kv => String.eqb k (fst kv)) (own_props v).

Section WithCollaborators.
Context {C : Collaborators}.

(** ** Validators of write-batch.ts *)

Definition validatePrecondition (arg : ArgName) (val : JsValue) (allowExist : bool)
    : Result unit :=
  if negb (String.eqb (typeof val) "object") || is_null val then
    Throw (Error [Txt "Input is not an object."])
  else
    let precondition := val in
    (conditions1 <-
       (if negb (is_undefined (prop precondition "exists")) then
          if negb allowExist then
            Throw (Error (createErrorDescription arg "precondition" ++
                          [Txt " "; DQ; Txt "exists"; DQ; Txt " is not an allowed condition."]))
          else if negb (String.eqb (typeof (prop precondition "exists")) "boolean") then
            Throw (Error (createErrorDescription arg "precondition" ++
                          [Txt " "; DQ; Txt "exists"; DQ; Txt " is not a boolean.'"]))
          else Ok 1%nat
        else Ok 0%nat) ;;
     conditions <-
       (if negb (is_undefined (prop precondition "lastUpdateTime")) then
          if negb (instanceof (prop precondition "lastUpdateTime") "Timestamp") then
            Throw (Error (createErrorDescription arg "precondition" ++
                          [Txt " "; DQ; Txt "lastUpdateTime"; DQ;
                           Txt " is not a Firestore Timestamp."]))
          else Ok (S conditions1)
        else Ok conditions1) ;;
     if Nat.ltb 1 conditions then
       Throw (Error (createErrorDescription arg "precondition" ++
                     [Txt " Input contains more than one condition."]))
     else Ok tt)%result.

Definition validateUpdatePrecondition (arg : ArgName) (precondition : JsValue)
    : Result unit :=
  if negb (is_undefined precondition) then validatePrecondition arg precondition false
  else Ok tt.

Definition validateDeletePrecondition (arg : ArgName) (precondition : JsValue)
    : Result unit :=
  if negb (is_undefined precondition) then validatePrecondition arg precondition true
  else Ok tt.

(** The loop of [validateSetOptions] over [options.mergeFields], from index
    [i] on. *)
Fixpoint validateMergeFieldsFrom (arg : ArgName) (i : nat) (items : list JsValue)
    : Result unit :=
  match items with
  | [] => Ok tt
  | x :: rest =>
      match validateFieldPath (ArgIdx i) x with
      | Ok _ => validateMergeFieldsFrom arg (S i) rest
      | Throw err =>
          Throw (Error (createErrorDescription arg "set() option" ++
                        [Txt " "; DQ; Txt "mergeFields"; DQ; Txt " is not valid: "] ++
                        err_message err))
      end
  end.

Definition validateSetOptions (arg : ArgName) (val : JsValue) : Result unit :=
  if is_undefined val then Ok tt
  else if negb (String.eqb (typeof val) "object") || is_null val then
    Throw (Error (createErrorDescription arg "set() option" ++
                  [Txt " Input is not an object."]))
  else
    let options := val in
    ((if negb (is_undefined (prop options "merge")) &&
         negb (String.eqb (typeof (prop options "merge")) "boolean") then
        Throw (Error (createErrorDescription arg "set() option" ++
                      [Txt " "; DQ; Txt "merge"; DQ; Txt " is not a boolean."]))
      else Ok tt) ;;;
     (if negb (is_undefined (prop options "mergeFields")) then
        if negb (Array_isArray (prop options "mergeFields")) then
          Throw (Error (createErrorDescription arg "set() option" ++
                        [Txt " "; DQ; Txt "mergeFields"; DQ; Txt " is not an array."]))
        else validateMergeFieldsFrom arg 0 (array_items (prop options "mergeFields"))
      else Ok tt) ;;;
     if negb (is_undefined (prop options "merge")) &&
        negb (is_undefined (prop options "mergeFields")) then
       Throw (Error (createErrorDescription arg "set() option" ++
                     [Txt " You cannot specify both "; DQ; Txt "merge"; DQ; Txt " and ";
                      DQ; Txt "mergeFields"; DQ; Txt "."]))
     else Ok tt)%result.

(** [obj.hasOwnProperty(prop)], as a condition, for a property [prop] that
    the [for ... in] loop found on [obj].  The method is looked up on the
    object first: an own property of that name hides the one of
    [Object.prototype], is called in its place when it is a function, and
    cannot be called when it is anything else. *)
Definition hasOwnProperty_call (obj : JsValue) (prop : string) : Result bool :=
  if hasOwn obj "hasOwnProperty" then
    let method := JS.prop obj "hasOwnProperty" in
    if String.eqb (typeof method) "function" then
      (answer <- callFunction method obj [VString prop] ;; Ok (truthy answer))%result
    else Throw (TypeError [Txt "obj.hasOwnProperty is not a function"])
  else Ok true.

(** The [for (const prop in obj)] loop of [validateDocumentData] and
    [validateUpdateMap], over the properties still to visit; the result is
    the flag [isEmpty] after the loop. *)
Fixpoint validateProps (arg : ArgName) (options : UserInputOptions) (obj : JsValue)
    (props : list (string * JsValue)) (isEmpty : bool) : Result bool :=
  match props with
  | [] => Ok isEmpty
  | (prop, value) :: rest =>
      (own <- hasOwnProperty_call obj prop ;;
       if (own : bool) then
         validateUserInput arg value "Firestore document" options [prop] ;;;
         validateProps arg options obj rest false
       else validateProps arg options obj rest isEmpty)%result
  end.

Definition validateDocumentData (arg : ArgName) (obj : JsValue) (allowDeletes : bool)
    : Result unit :=
  if negb (isPlainObject obj) then
    Throw (Error (Validate.customObjectMessage arg obj None))
  else
    (validateProps arg
       (mkUserInputOptions true (if allowDeletes then DeletesAll else DeletesNone) true)
       obj (own_props obj) true ;;;
     Ok tt)%result.

Definition validateUpdateMap (arg : ArgName) (obj : JsValue) : Result unit :=
  if negb (isPlainObject obj) then
    Throw (Error (Validate.customObjectMessage arg obj None))
  else
    (isEmpty <- validateProps arg (mkUserInputOptions false DeletesRoot true)
                  obj (own_props obj) true ;;
     if (isEmpty : bool) then Throw (Error [Txt "At least one field must be updated."])
     else Ok tt)%result.

(** [fields.sort((left, right) => left.compareTo(right))]: an insertion
    sort; [p] moves right past every [q] with [p.compareTo(q) > 0]. *)
Fixpoint insertSorted (p : FieldPath.t) (sorted : list FieldPath.t) : list FieldPath.t :=
  match sorted with
  | [] => [p]
  | q :: rest =>
      if (0 <? FieldPath.compareTo p q)%Z then q :: insertSorted p rest
      else p :: q :: rest
  end.

Definition sortFields (fields : list FieldPath.t) : list FieldPath.t :=
  fold_right insertSorted [] fields.

Definition multipleTimesError (arg : ArgName) (field : FieldPath.t) : JsError :=
  Error (createErrorDescription arg "update map" ++
         [Txt " Field "; DQ; Segs field; DQ; Txt " was specified multiple times."]).

(** The loop [for (let i = 1; i < fields.length; ++i)] of [validateUpdate],
    on the sorted fields. *)
Fixpoint scanAdjacent (arg : ArgName) (fields : list FieldPath.t) : Result unit :=
  match fields with
  | previous :: ((current :: _) as rest) =>
      if FieldPath.isPrefixOf previous current then
        Throw (multipleTimesError arg previous)
      else scanAdjacent arg rest
  | _ => Ok tt
  end.

Definition validateUpdate (arg : ArgName) (data : UpdateMap) : Result unit :=
  let fields := map fst data in
  scanAdjacent arg (sortFields fields).

(** ** The four operations that append to the batch *)

Definition create (documentRef data : JsValue) : M unit :=
  (lift (validateDocumentReference (ArgStr "documentRef") documentRef) ;;;
   lift (validateDocumentData (ArgStr "data") data false) ;;;
   verifyNotCommitted ;;;
   let document := DocumentSnapshot_fromObject documentRef data in
   let precondition := Precondition_toProto (obj [("exists", VBoolean false)]) in
   let transform := DocumentTransform_fromObject documentRef data in
   lift (DocumentTransform_validate transform) ;;;
   push {| write :=
             if negb (DocumentSnapshot_isEmpty document) ||
                DocumentTransform_isEmpty transform
             then Some (DocumentSnapshot_toProto document) else None;
           transform := DocumentTransform_toProto transform;
           precondition := precondition |})%batch.

Definition delete (documentRef precondition : JsValue) : M unit :=
  (lift (validateDocumentReference (ArgStr "documentRef") documentRef) ;;;
   lift (validateDeletePrecondition (ArgStr "precondition") precondition) ;;;
   verifyNotCommitted ;;;
   let conditions := Precondition_toProto precondition in
   push {| write := Some (mkIWrite None (Some (formattedName documentRef)) None None None);
           transform := None;
           precondition := conditions |})%batch.

Definition set (documentRef data options : JsValue) : M unit :=
  (lift (validateSetOptions (ArgStr "options") options) ;;;
   let mergeLeaves :=
     truthy options &&
     match prop options "merge" with VBoolean true => true | _ => false end in
   let mergePaths := if truthy options then prop options "mergeFields" else options in
   lift (validateDocumentReference (ArgStr "documentRef") documentRef) ;;;
   lift (validateDocumentData (ArgStr "data") data (truthy mergePaths || mergeLeaves)) ;;;
   verifyNotCommitted ;;;
   let fieldMask := DocumentMask_fromFieldMask (prop options "mergeFields") in
   let data := if truthy mergePaths then DocumentMask_applyTo fieldMask data else data in
   let transform := DocumentTransform_fromObject documentRef data in
   lift (DocumentTransform_validate transform) ;;;
   let document := DocumentSnapshot_fromObject documentRef data in
   let documentMask :=
     if truthy mergePaths
     then DocumentMask_removeFields fieldMask (DocumentTransform_fields transform)
     else DocumentMask_fromObject data in
   let hasDocumentData :=
     negb (DocumentSnapshot_isEmpty document) || negb (DocumentMask_isEmpty documentMask) in
   let write :=
     if negb (truthy mergePaths) && negb mergeLeaves then
       Some (DocumentSnapshot_toProto document)
     else if hasDocumentData || DocumentTransform_isEmpty transform then
       Some (set_updateMask (DocumentSnapshot_toProto document)
                            (DocumentMask_toProto documentMask))
     else None in
   push {| write := write;
           transform := DocumentTransform_toProto transform;
           precondition := None |})%batch.

Definition argumentError : Message :=
  [Txt "Update() requires either a single JavaScript object or an alternating list of field/value pairs that can be followed by an optional precondition."].

(** [catch (err) { throw new Error(`${argumentError} ${err.message}`) }] *)
Definition rethrowWithUsage {A} (r : Result A) : Result A :=
  match r with
  | Ok a => Ok a
  | Throw err => Throw (Error (argumentError ++ [Txt " "] ++ err_message err))
  end.

(** The map of the varargs form while it is filled: each entry with the
    index of the argument its key was made from. *)
Definition KeyedMap : Type := list (nat * (FieldPath.t * JsValue)).

(** [updateMap.set(fieldPath, value)] for the [fieldPath] made from
    [arguments[i]].  The keys of a [Map] are compared as objects:
    [sameKey j i] tells whether the keys made from [arguments[j]] and from
    [arguments[i]] are one and the same object, as they are when the caller
    passes one [FieldPath] object in both places.  An entry with that key
    keeps its place and gets the new value; without one the map grows by an
    entry. *)
Fixpoint mapSet (sameKey : nat -> nat -> bool) (i : nat) (fieldPath : FieldPath.t)
    (value : JsValue) (updateMap : KeyedMap) : KeyedMap :=
  match updateMap with
  | [] => [(i, (fieldPath, value))]
  | (j, (key, old)) :: rest =>
      if sameKey j i then (j, (key, value)) :: rest
      else (j, (key, old)) :: mapSet sameKey i fieldPath value rest
  end.

(** The loop [for (let i = 1; i < arguments.length; i += 2)] of the varargs
    form: [rest] holds [arguments[i]], [arguments[i + 1]], ...; the result is
    the update map and the argument of the last [new Precondition(...)]. *)
Fixpoint updateVarargs (sameKey : nat -> nat -> bool) (arguments : list JsValue) (i : nat)
    (rest : list JsValue) (updateMap : KeyedMap) (precondition : JsValue)
    : Result (KeyedMap * JsValue) :=
  match rest with
  | [] => Ok (updateMap, precondition)
  | [last] =>
      (validateUpdatePrecondition (ArgIdx i) last ;;;
       Ok (updateMap, last))%result
  | field :: value :: rest' =>
      (validateFieldPath (ArgIdx i) field ;;;
       Validate.validateMinNumberOfArguments "update" arguments (i + 1) ;;;
       let fieldPath := FieldPath_fromArgument field in
       validateFieldValue (ArgIdx i) value fieldPath ;;;
       updateVarargs sameKey arguments (i + 2) rest'
                     (mapSet sameKey i fieldPath value updateMap) precondition)%result
  end.

(** [Object.keys(dataOrField).forEach(key => ...)] *)
Fixpoint updateFromKeys (props : list (string * JsValue)) (updateMap : UpdateMap)
    : Result UpdateMap :=
  match props with
  | [] => Ok updateMap
  | (key, value) :: rest =>
      (validateFieldPath (ArgStr key) (VString key) ;;;
       updateFromKeys rest (updateMap ++ [(FieldPath_fromArgument (VString key), value)]))%result
  end.

(** [update(documentRef, dataOrField, ...preconditionOrValues)]; [sameKey]
    tells which of the arguments give one and the same key object, see
    [mapSet]. *)
Definition update (sameKey : nat -> nat -> bool) (arguments : list JsValue) : M unit :=
  let documentRef := js_nth 0 arguments in
  let dataOrField := js_nth 1 arguments in
  let preconditionOrValues := skipn 2 arguments in
  (lift (Validate.validateMinNumberOfArguments "update" arguments 2) ;;;
   lift (validateDocumentReference (ArgStr "documentRef") documentRef) ;;;
   verifyNotCommitted ;;;
   let precondition := obj [("exists", VBoolean true)] in
   let usesVarargs :=
     String.eqb (typeof dataOrField) "string" || instanceof dataOrField "FieldPath" in
   parsed <- lift
     (if usesVarargs then
        rethrowWithUsage
          (filled <- updateVarargs sameKey arguments 1 (skipn 1 arguments) [] precondition ;;
           Ok (map snd (fst filled), snd filled))%result
      else
        rethrowWithUsage
          (validateUpdateMap (ArgStr "dataOrField") dataOrField ;;;
           Validate.validateMaxNumberOfArguments "update" arguments 3 ;;;
           updateMap <- updateFromKeys (own_props dataOrField) [] ;;
           if Nat.ltb 0 (List.length preconditionOrValues) then
             (validateUpdatePrecondition (ArgStr "preconditionOrValues")
                                         (js_nth 0 preconditionOrValues) ;;;
              Ok (updateMap, js_nth 0 preconditionOrValues))
           else Ok (updateMap, precondition))%result) ;;
   let updateMap := fst parsed in
   let precondition := snd parsed in
   lift (validateUpdate (ArgStr "dataOrField") updateMap) ;;;
   let document := DocumentSnapshot_fromUpdateMap documentRef updateMap in
   let documentMask := DocumentMask_fromUpdateMap updateMap in
   let write :=
     if negb (DocumentSnapshot_isEmpty document) || negb (DocumentMask_isEmpty documentMask)
     then Some (set_updateMask (DocumentSnapshot_toProto document)
                               (DocumentMask_toProto documentMask))
     else None in
   let transform := DocumentTransform_fromUpdateMap documentRef updateMap in
   lift (DocumentTransform_validate transform) ;;;
   push {| write := write;
           transform := DocumentTransform_toProto transform;
           precondition := Precondition_toProto precondition |})%batch.

(** A call of one of the four public operations, with its arguments. *)
Inductive Append : Type :=
| Create (documentRef data : JsValue)
| Delete (documentRef precondition : JsValue)
| Set_ (documentRef data options : JsValue)
| Update (sameKey : nat -> nat -> bool) (arguments : list JsValue).

Definition runAppend (call : Append) : M unit :=
  match call with
  | Create documentRef data => create documentRef data
  | Delete documentRef precondition => delete documentRef precondition
  | Set_ documentRef data options => set documentRef data options
  | Update sameKey arguments => update sameKey arguments
  end.

(** ** Commit *)

(** What the batch reads of its [Firestore] client. *)
Record Firestore : Type := mkFirestore {
  fs_formattedName : string;
  _preferTransactions : bool;
  (* a time in milliseconds; 0, which is falsy, until a request succeeded *)
  _lastSuccessfulRequest : Z
}.

Record ICommitRequest : Type := mkICommitRequest {
  database : string;
  writes : option (list IWrite);
  transaction : option (list Byte.byte)
}.

Record IBeginTransactionResponse : Type := mkIBeginTransactionResponse {
  resp_transaction : list Byte.byte
}.

Record IWriteResult : Type := mkIWriteResult { wr_updateTime : option ITimestamp }.

Record CommitResponse : Type := mkCommitResponse {
  commitTime : ITimestamp;
  (* [None]: the response carries no [writeResults] array *)
  writeResults : option (list IWriteResult)
}.

(** [this._firestore.request(method, request, tag, allowRetries)]: the
    promise resolves ([Ok]) or rejects ([Throw]).  Request tags only label
    log lines and are left out. *)
Record Transport : Type := mkTransport {
  beginTransaction : ICommitRequest -> Result IBeginTransactionResponse;
  commitRpc : ICommitRequest -> Result CommitResponse
}.

(** An RPC that was issued, with its [allowRetries] flag. *)
Inductive RpcCall : Type :=
| RpcBeginTransaction (request : ICommitRequest) (allowRetries : bool)
| RpcCommit (request : ICommitRequest) (allowRetries : bool).

Record CommitOptions : Type := mkCommitOptions {
  transactionId : option (list Byte.byte)
}.

(** [now] is [new Date().getTime()]. *)
Definition _shouldCreateTransaction (firestore : Firestore) (now : Z) : bool :=
  if negb (_preferTransactions firestore) then false
  else if negb (Z.eqb (_lastSuccessfulRequest firestore) 0) then
    (GCF_IDLE_TIMEOUT_MS <? now - _lastSuccessfulRequest firestore)%Z
  else true.

Definition entries (req : WriteOp) : list IWrite :=
  match write req with Some w => [w] | None => [] end ++
  match transform req with Some t => [t] | None => [] end.

(** [(req.write || req.transform)!.currentDocument = req.precondition] *)
Definition attachPrecondition (req : WriteOp) : WriteOp :=
  match precondition req with
  | Some p =>
      match write req with
      | Some w => mkWriteOp (Some (set_currentDocument w p)) (transform req) (precondition req)
      | None =>
          mkWriteOp None (option_map (fun t => set_currentDocument t p) (transform req))
                    (precondition req)
      end
  | None => req
  end.

(** The loop [for (const req of this._writes)] of [commit_]: the write list
    as the loop leaves it, and [request.writes] unless the assertion fails. *)
Fixpoint buildWrites (ops : list WriteOp) : list WriteOp * Result (list IWrite) :=
  match ops with
  | [] => ([], Ok [])
  | req :: rest =>
      match write req, transform req with
      | None, None =>
          (req :: rest, Throw (AssertionError [Txt "Either a write or transform must be set"]))
      | _, _ =>
          let req' := attachPrecondition req in
          let '(rest', r) := buildWrites rest in
          (req' :: rest', (ws <- r ;; Ok (entries req' ++ ws))%result)
      end
  end.

Section Commit.
Variable firestore : Firestore.
Variable now : Z.
Variable transport : Transport.

(** The loop [for (let i = 0; i < this._writes.length; ++i)] of the commit
    callback, from index [i] on. *)
Fixpoint collectFrom (ops : list WriteOp) (i offset : nat) (results : list IWriteResult)
    (commitTime : Timestamp) : Result (list WriteResult) :=
  match ops with
  | [] => Ok []
  | writeRequest :: rest =>
      let offset :=
        match write writeRequest, transform writeRequest with
        | Some _, Some _ => S offset
        | _, _ => offset
        end in
      match nth_error results (i + offset) with
      | None => Throw (TypeError [Txt "Cannot read property 'updateTime' of undefined"])
      | Some writeResult =>
          let r := mkWriteResult
                     match wr_updateTime writeResult with
                     | Some t => Timestamp_fromProto t
                     | None => commitTime
                     end in
          (more <- collectFrom rest (S i) offset results commitTime ;; Ok (r :: more))%result
      end
  end.

(** The callback [.then(resp => ...)] of the commit RPC. *)
Definition onCommitResponse (ops : list WriteOp) (requestWrites : list IWrite)
    (resp : CommitResponse) : Result (list WriteResult) :=
  if Nat.ltb 0 (List.length requestWrites) then
    match writeResults resp with
    | None => Throw (TypeError [Txt "Cannot read property 'length' of undefined"])
    | Some results =>
        if Nat.eqb (List.length requestWrites) (List.length results) then
          collectFrom ops 0 0 results (Timestamp_fromProto (commitTime resp))
        else
          Throw (AssertionError
                   [Txt "Expected one write result per operation, but got ";
                    Idx (List.length results); Txt " results for ";
                    Idx (List.length requestWrites); Txt " operations."])
    end
  else Ok [].

(** [commit_]: the batch afterwards, the RPCs issued in order, and how the
    returned promise settles.  [fuel] bounds the depth of the recursive
    calls; [None] only when it is exhausted. *)
Fixpoint commit_ (fuel : nat) (commitOptions : option CommitOptions) (b : Batch)
    : option (Batch * list RpcCall * Result (list WriteResult)) :=
  match fuel with
  | O => None
  | S fuel' =>
      let explicitTransaction :=
        match commitOptions with Some o => transactionId o | None => None end in
      let request := mkICommitRequest (fs_formattedName firestore) None None in
      if match explicitTransaction with None => true | Some _ => false end &&
         _shouldCreateTransaction firestore now then
        match beginTransaction transport request with
        | Throw e => Some (b, [RpcBeginTransaction request true], Throw e)
        | Ok resp =>
            match commit_ fuel' (Some (mkCommitOptions (Some (resp_transaction resp)))) b with
            | None => None
            | Some (b', log, r) => Some (b', RpcBeginTransaction request true :: log, r)
            end
        end
      else
        let '(ops, built) := buildWrites (_writes b) in
        match built with
        | Throw e => Some (mkBatch ops (_committed b), [], Throw e)
        | Ok requestWrites =>
            let request :=
              mkICommitRequest (fs_formattedName firestore) (Some requestWrites)
                               explicitTransaction in
            let b' := mkBatch ops true in
            match commitRpc transport request with
            | Throw e => Some (b', [RpcCommit request false], Throw e)
            | Ok resp =>
                Some (b', [RpcCommit request false], onCommitResponse ops requestWrites resp)
            end
        end
  end.

(** [commit()]: one call of [commit_] without options; the recursion is at
    most one level deep. *)
Definition commit (b : Batch) : option (Batch * list RpcCall * Result (list WriteResult)) :=
  commit_ 2 None b.

End Commit.

End WithCollaborators.
End WriteBatch.

(* ================================================================== *)
(** * The collaborators, as the specification describes them *)
(* ================================================================== *)

Module SpecModel.

(** Modelled from the spec: the sentinel values of ./field-value, which is
    not part of the sources; section 4.2 names the delete-sentinel and the
    server-side transform sentinels. *)
Definition isDeleteSentinel (v : JsValue) : bool := instanceof v "DeleteTransform".

Definition isTransformSentinel (v : JsValue) : bool :=
  instanceof v "ServerTimestampTransform" || instanceof v "ArrayUnionTransform" ||
  instanceof v "ArrayRemoveTransform" || instanceof v "NumericIncrementTransform".

(** Modelled from the spec: [isPlainObject] of ./serializer, which is not
    part of the sources: an object without a custom prototype. *)
Definition isPlainObject (v : JsValue) : bool :=
  match v with
  | VObject c _ => String.eqb (ctor_name c) "Object"
  | _ => false
  end.

(** A leaf of the input tree (section 4.2): plain, delete-sentinel or
    transform-sentinel. *)
Inductive Leaf : Type :=
| PlainLeaf (value : JsValue)
| DeleteLeaf
| TransformLeaf (kind : string) (payload : list (string * JsValue)).

Definition classify (v : JsValue) : Leaf :=
  if isDeleteSentinel v then DeleteLeaf
  else if isTransformSentinel v then TransformLeaf (constructor_name v) (WriteBatch.own_props v)
  else PlainLeaf v.

(** Modelled from the spec: the tree walk of section 4.2, "walk the input
    tree; for every leaf, classify it"; a non-empty plain object is an inner
    node, every other value is a leaf at its full path from the root. *)
Fixpoint leaves (path : FieldPath.t) (v : JsValue) {struct v} : list (FieldPath.t * Leaf) :=
  match v with
  | VObject c props =>
      if String.eqb (ctor_name c) "Object" then
        match props with
        | [] => [(path, PlainLeaf v)]
        | _ :: _ =>
            (fix walk (ps : list (string * JsValue)) : list (FieldPath.t * Leaf) :=
               match ps with
               | [] => []
               | (k, x) :: ps' => leaves (path ++ [k]) x ++ walk ps'
               end) props
        end
      else [(path, classify v)]
  | _ => [(path, classify v)]
  end.

(** The leaves of a document: those of each top-level field. *)
Definition documentLeaves (data : JsValue) : list (FieldPath.t * Leaf) :=
  flat_map (fun kv => leaves [fst kv] (snd kv)) (WriteBatch.own_props data).

Definition updateMapLeaves (updateMap : UpdateMap) : list (FieldPath.t * Leaf) :=
  map (fun kv => (fst kv, classify (snd kv))) updateMap.

Definition plainOf (l : list (FieldPath.t * Leaf)) : list (FieldPath.t * JsValue) :=
  flat_map (fun pl => match snd pl with PlainLeaf v => [(fst pl, v)] | _ => [] end) l.

Definition transformsOf (l : list (FieldPath.t * Leaf))
    : list (FieldPath.t * (string * list (string * JsValue))) :=
  flat_map (fun pl => match snd pl with
                      | TransformLeaf k payload => [(fst pl, (k, payload))]
                      | _ => []
                      end) l.

Definition notTransformPaths (l : list (FieldPath.t * Leaf)) : list FieldPath.t :=
  flat_map (fun pl => match snd pl with TransformLeaf _ _ => [] | _ => [fst pl] end) l.

(** The data holds a transform sentinel, resp. a plain value, at some leaf. *)
Definition hasTransforms (data : JsValue) : bool :=
  match transformsOf (documentLeaves data) with [] => false | _ :: _ => true end.

Definition hasPlainValues (data : JsValue) : bool :=
  match plainOf (documentLeaves data) with [] => false | _ :: _ => true end.

Definition formattedName (documentRef : JsValue) : string :=
  match prop documentRef "formattedName" with VString s => s | _ => EmptyString end.

(** Modelled from the spec: the [DocumentSnapshot] of section 3, the
    plain-value projection of the input; "isEmpty iff no plain value
    survives sentinel-filtering". *)
Record Snapshot : Type := mkSnapshot {
  snap_name : string;
  snap_fields : list (FieldPath.t * JsValue)
}.

Definition Snapshot_isEmpty (s : Snapshot) : bool :=
  match snap_fields s with [] => true | _ => false end.

Definition Snapshot_toProto (s : Snapshot) : IWrite :=
  mkIWrite (Some (mkIDocument (snap_name s) (snap_fields s))) None None None None.

(** Modelled from the spec: the [DocumentTransform] of section 3, the
    ordered list of (path, kind) pairs taken from the sentinels; "isEmpty
    iff the list has zero entries"; "a transform is serialized only when
    its list is non-empty". *)
Record Transform : Type := mkTransform {
  trans_name : string;
  trans_list : list (FieldPath.t * (string * list (string * JsValue)))
}.

Definition Transform_isEmpty (t : Transform) : bool :=
  match trans_list t with [] => true | _ => false end.

Definition Transform_toProto (t : Transform) : option IWrite :=
  if Transform_isEmpty t then None
  else Some (mkIWrite None None
               (Some (mkIDocumentTransform (trans_name t)
                        (map (fun e => (fst e, fst (snd e))) (trans_list t))))
               None None).

(** Modelled from the spec: [DocumentTransform.validate] of ./document,
    which is not part of the sources; deletes are allowed "never inside a
    transform payload". *)
Definition Transform_validate (t : Transform) : Result unit :=
  if forallb (fun e => forallb (fun kv => negb (isDeleteSentinel (snd kv))) (snd (snd e)))
             (trans_list t)
  then Ok tt
  else Throw (Error [Txt "FieldValue.delete() cannot be used inside a transform."]).

(** Modelled from the spec: the [DocumentMask] of ./document, which is not
    part of the sources; [applyTo] projects the input "down to only the
    allowed paths (any path not under an allowed prefix is dropped)":
    [project] answers [v] with the paths outside [mask] dropped, [None] when
    nothing is left. *)
Definition covered (mask : list FieldPath.t) (path : FieldPath.t) : bool :=
  existsb (fun m => FieldPath.isPrefixOf m path) mask.

Fixpoint project (mask : list FieldPath.t) (path : FieldPath.t) (v : JsValue) {struct v}
    : option JsValue :=
  if covered mask path then Some v
  else
    match v with
    | VObject c props =>
        if String.eqb (ctor_name c) "Object" then
          let kept :=
            (fix walk (ps : list (string * JsValue)) : list (string * JsValue) :=
               match ps with
               | [] => []
               | (k, x) :: ps' =>
                   match project mask (path ++ [k]) x with
                   | Some x' => (k, x') :: walk ps'
                   | None => walk ps'
                   end
               end) props in
          match kept with [] => None | _ :: _ => Some (VObject c kept) end
        else None
    | _ => None
    end.

Definition Mask_applyTo (mask : list FieldPath.t) (data : JsValue) : JsValue :=
  match data with
  | VObject c props =>
      VObject c (flat_map (fun kv => match project mask [fst kv] (snd kv) with
                                     | Some x => [(fst kv, x)]
                                     | None => []
                                     end) props)
  | _ => data
  end.

Definition pathEqb (p q : FieldPath.t) : bool :=
  FieldPath.isPrefixOf p q && FieldPath.isPrefixOf q p.

Definition Mask_removeFields (mask fields : list FieldPath.t) : list FieldPath.t :=
  filter (fun p => negb (existsb (pathEqb p) fields)) mask.

(** Modelled from the spec: [FieldPath.fromArgument] and [validateFieldPath]
    of ./path, which is not part of the sources; a path is given as a dotted
    string, cut at the dots, or as a [FieldPath] object. *)
Fixpoint splitDots (current : string) (s : string) : list string :=
  match s with
  | EmptyString => [current]
  | String c rest =>
      if Ascii.eqb c "."%char then current :: splitDots EmptyString rest
      else splitDots (current ++ String c EmptyString) rest
  end.

Definition segmentOf (v : JsValue) : string :=
  match v with VString s => s | _ => EmptyString end.

Definition FieldPath_fromArgument (fieldPath : JsValue) : FieldPath.t :=
  match fieldPath with
  | VString s => splitDots EmptyString s
  | _ => map segmentOf (array_items (prop fieldPath "segments"))
  end.

Definition validateFieldPath (arg : ArgName) (fieldPath : JsValue) : Result unit :=
  match fieldPath with
  | VString s =>
      if forallb (fun seg => negb (String.eqb seg EmptyString)) (splitDots EmptyString s) then Ok tt
      else Throw (Error (createErrorDescription arg "field path" ++
                         [Txt " Paths must not contain empty segments."]))
  | _ =>
      if instanceof fieldPath "FieldPath" then Ok tt
      else Throw (Error (createErrorDescription arg "field path" ++
                         [Txt " Paths can only be specified as strings or via a FieldPath object."]))
  end.

(** Modelled from the spec: [validateDocumentReference] of ./reference,
    which is not part of the sources. *)
Definition validateDocumentReference (arg : ArgName) (value : JsValue) : Result unit :=
  if instanceof value "DocumentReference" then Ok tt
  else Throw (Error (createErrorDescription arg "DocumentReference")).

(** Modelled from the spec: the sentinel rules of section 4.2 on one leaf:
    delete-sentinels are "rejected outright in full-replace mode", allowed
    "only as direct leaf values" for an update and everywhere for a merge;
    an object with a custom prototype is not a document value. *)
Definition validateLeaf (arg : ArgName) (options : UserInputOptions) (root : FieldPath.t)
    (pl : FieldPath.t * Leaf) : Result unit :=
  match snd pl with
  | DeleteLeaf =>
      match allowDeletes options with
      | DeletesAll => Ok tt
      | DeletesRoot =>
          if pathEqb (fst pl) root then Ok tt
          else Throw (Error (createErrorDescription arg "Firestore document" ++
                             [Txt " FieldValue.delete() must appear at the top-level."]))
      | DeletesNone =>
          Throw (Error (createErrorDescription arg "Firestore document" ++
                        [Txt " FieldValue.delete() must appear at the top-level and can only be used in update() or set() with {merge:true}."]))
      end
  | TransformLeaf _ _ =>
      if allowTransforms options then Ok tt
      else Throw (Error (createErrorDescription arg "Firestore document" ++
                         [Txt " Transforms are not allowed here."]))
  | PlainLeaf v =>
      if is_object v && negb (isPlainObject v) then
        Throw (Error (Validate.customObjectMessage arg v (Some (fst pl))))
      else if is_object v && negb (allowEmpty options) &&
              match WriteBatch.own_props v with [] => true | _ => false end then
        Throw (Error (createErrorDescription arg "Firestore document" ++
                      [Txt " Empty objects are not allowed here."]))
      else Ok tt
  end.

Fixpoint validateLeaves (arg : ArgName) (options : UserInputOptions) (root : FieldPath.t)
    (l : list (FieldPath.t * Leaf)) : Result unit :=
  match l with
  | [] => Ok tt
  | pl :: rest =>
      (validateLeaf arg options root pl ;;; validateLeaves arg options root rest)%result
  end.

Definition validateUserInput (arg : ArgName) (value : JsValue) (desc : string)
    (options : UserInputOptions) (path : FieldPath.t) : Result unit :=
  validateLeaves arg options path (leaves path value).

Definition validateFieldValue (arg : ArgName) (value : JsValue) (path : FieldPath.t)
    : Result unit :=
  validateUserInput arg value "Firestore value" (mkUserInputOptions true DeletesRoot true) path.

Definition toZ (v : JsValue) : Z :=
  match v with VNumber (Finite q) => Qfloor q | _ => 0%Z end.

(** Modelled from the spec: the [Precondition] of section 3, an existence
    or a version constraint, or none. *)
Definition Precondition_toProto (options : JsValue) : option IPrecondition :=
  match prop options "lastUpdateTime" with
  | VUndefined =>
      match prop options "exists" with
      | VBoolean b => Some (PExists b)
      | _ => None
      end
  | t => Some (PUpdateTime (mkITimestamp (toZ (prop t "seconds")) (toZ (prop t "nanoseconds"))))
  end.

(** The functions inside the values of the examples return [undefined]. *)
Definition callFunction (f thisArg : JsValue) (args : list JsValue) : Result JsValue :=
  Ok VUndefined.

(** Modelled from the spec: one implementation of the collaborators, used
    for the examples. *)
#[local] Instance collaborators : Collaborators :=
  Build_Collaborators
    (* ./reference *)
    validateDocumentReference
    formattedName
    (* ./path *)
    validateFieldPath
    FieldPath_fromArgument
    (* ./serializer *)
    isPlainObject
    (* ./document *)
    validateUserInput
    validateFieldValue
    Snapshot
    (fun documentRef data =>
       mkSnapshot (formattedName documentRef) (plainOf (documentLeaves data)))
    (fun documentRef updateMap =>
       mkSnapshot (formattedName documentRef) (plainOf (updateMapLeaves updateMap)))
    Snapshot_isEmpty
    Snapshot_toProto
    Transform
    (fun documentRef data =>
       mkTransform (formattedName documentRef) (transformsOf (documentLeaves data)))
    (fun documentRef updateMap =>
       mkTransform (formattedName documentRef) (transformsOf (updateMapLeaves updateMap)))
    Transform_validate
    Transform_isEmpty
    (fun t => map fst (trans_list t))
    Transform_toProto
    (list FieldPath.t)
    (fun fieldMask => map FieldPath_fromArgument (array_items fieldMask))
    (fun data => notTransformPaths (documentLeaves data))
    (fun updateMap => map fst updateMap)
    Mask_applyTo
    Mask_removeFields
    (fun mask => match mask with [] => true | _ => false end)
    mkIDocumentMask
    Precondition_toProto
    (* ./timestamp *)
    (fun t => mkTimestamp (seconds t) (nanos t))
    callFunction.

End SpecModel.

(* ================================================================== *)
(** * Notions used to state the properties *)
(* ================================================================== *)

Module Notions.
Import WriteBatch.

(** The operation carries a write or a transform (the assertion of
    [commit_]). *)
Definition hasEntry (op : WriteOp) : bool :=
  match write op, transform op with
  | None, None => false
  | _, _ => true
  end.


(** The varargs map of [update] for path/value pairs that start at argument
    [i], when every pair has a key object of its own: one entry per pair, in
    order. *)
Fixpoint keyedPairs {C : Collaborators} (i : nat) (pairs : list (JsValue * JsValue))
    : KeyedMap :=
  match pairs with
  | [] => []
  | (field, value) :: rest =>
      (i, (FieldPath_fromArgument field, value)) :: keyedPairs (i + 2) rest
  end.

(** The wire entries a write list expands into, in order. *)
Definition wireEntries (ops : list WriteOp) : list IWrite :=
  flat_map entries (map attachPrecondition ops).

(** The time reported for one wire entry: its update time, or else the
    commit time. *)
Definition timeOf {C : Collaborators} (commitTime : ITimestamp) (r : IWriteResult)
    : Timestamp :=
  match wr_updateTime r with
  | Some t => Timestamp_fromProto t
  | None => Timestamp_fromProto commitTime
  end.

Section WithClient.
Context {C : Collaborators}.
Variable firestore : Firestore.
Variable transport : Transport.

(** The request of the [beginTransaction] call. *)
Definition beginRequest : ICommitRequest :=
  mkICommitRequest (fs_formattedName firestore) None None.

Definition commitRequest (ops : list WriteOp) (tx : option (list Byte.byte))
    : ICommitRequest :=
  mkICommitRequest (fs_formattedName firestore) (Some (wireEntries ops)) tx.

(** [commit_] once it goes on to the commit RPC, with an explicit
    transaction or without one. *)
Definition sendCommit (tx : option (list Byte.byte)) (b : Batch)
    : Batch * list RpcCall * Result (list WriteResult) :=
  let '(ops, built) := buildWrites (_writes b) in
  match built with
  | Throw e => (mkBatch ops (_committed b), [], Throw e)
  | Ok requestWrites =>
      let request := mkICommitRequest (fs_formattedName firestore) (Some requestWrites) tx in
      match commitRpc transport request with
      | Throw e => (mkBatch ops true, [RpcCommit request false], Throw e)
      | Ok resp =>
          (mkBatch ops true, [RpcCommit request false],
           onCommitResponse ops requestWrites resp)
      end
  end.

Definition explicitTransaction (commitOptions : option CommitOptions)
    : option (list Byte.byte) :=
  match commitOptions with Some o => transactionId o | None => None end.

End WithClient.

(** What [commit_] lets the caller observe, the flag apart. *)
Definition observe (out : option (Batch * list RpcCall * Result (list WriteResult)))
    : option (list WriteOp * list RpcCall * Result (list WriteResult)) :=
  match out with
  | Some (b', log, r) => Some (_writes b', log, r)
  | None => None
  end.

(** The step leaves the batch as it found it. *)
Definition readonly {A} (m : M A) : Prop :=
  forall b b' r, m b = (b', r) -> b' = b.

(** The step changes the batch only when it does not throw. *)
Definition atomic {A} (m : M A) : Prop :=
  forall b b' e, m b = (b', Throw e) -> b' = b.

(** The step adds one operation to the write list when it succeeds, and
    changes nothing when it throws. *)
Definition appendsOne {A} (m : M A) : Prop :=
  forall b b' r, m b = (b', r) ->
    match r with
    | Throw _ => b' = b
    | Ok _ => exists op, b' = mkBatch (_writes b ++ [op]) (_committed b)
    end.

(** The step never changes the committed flag. *)
Definition keepsFlag {A} (m : M A) : Prop :=
  forall b b' r, m b = (b', r) -> _committed b' = _committed b.

(** [p] sorts before [q], or they are equal. *)
Definition ple (p q : FieldPath.t) : Prop :=
  FieldPath.lexCompare FieldPath.compareSegment p q <> Gt.

(** Two paths of which one is a prefix of the other (or equal to it). *)
Definition related (p q : FieldPath.t) : Prop :=
  FieldPath.isPrefixOf p q = true \/ FieldPath.isPrefixOf q p = true.

(** Two entries at different positions carry related paths. *)
Inductive Conflict : list FieldPath.t -> Prop :=
| conflict_here (p q : FieldPath.t) (l : list FieldPath.t) :
    In q l -> related p q -> Conflict (p :: l)
| conflict_later (p : FieldPath.t) (l : list FieldPath.t) :
    Conflict l -> Conflict (p :: l).

(** The operation carries both a write and a transform. *)
Definition hasBoth (op : WriteBatch.WriteOp) : bool :=
  match WriteBatch.write op, WriteBatch.transform op with
  | Some _, Some _ => true
  | _, _ => false
  end.

(** The error of the assertion in the loop of [commit_]. *)
Definition entryAssertion : JsError :=
  AssertionError [Txt "Either a write or transform must be set"].

End Notions.

(** Values for the examples. *)
Module Examples.
Import WriteBatch.

Definition ownClass (name : string) : Constructor := mkCtor name true.

Definition documentRef : JsValue :=
  VObject (ownClass "DocumentReference")
    [("formattedName", VString "projects/p/databases/d/documents/col/doc")].

Definition serverTimestamp : JsValue := VObject (ownClass "ServerTimestampTransform") [].

Definition firestore : Firestore := mkFirestore "projects/p/databases/d" true 0.

(** A response that reports an update time for every wire entry. *)
Definition response (times : list Z) : CommitResponse :=
  mkCommitResponse (mkITimestamp 100 0)
    (Some (map (fun t => mkIWriteResult (Some (mkITimestamp t 0))) times)).

Definition transport (resp : CommitResponse) : Transport :=
  mkTransport (fun _ => Ok (mkIBeginTransactionResponse [Byte.x01]))
              (fun _ => Ok resp).

(** A batch after [set(documentRef, {a: 1, t: serverTimestamp()})]. *)
Definition batchWithTransform : Batch :=
  fst (set (C := SpecModel.collaborators) documentRef
         (obj [("a", VNumber (Finite 1)); ("t", serverTimestamp)]) VUndefined newBatch).

End Examples.

(* ================================================================== *)
(** * Properties of the validation layer *)
(* ================================================================== *)

Section NumberFacts.

Lemma Qltb_false_iff (x y : Q) : Qltb x y = false <-> Qle_bool y x = true.
Proof.
  unfold Qltb. destruct (Qle_bool y x); simpl; split; congruence.
Qed.

(** On numbers other than NaN, "not less than" is "greater or equal". *)
Lemma num_lt_false_iff (a b : JsNumber) :
  a <> NaN -> b <> NaN -> (num_lt a b = false <-> num_le b a = true).
Proof.
  intros Ha Hb.
  destruct a as [| |x|], b as [| |y|]; simpl; try congruence; try tauto;
    try (split; congruence).
  apply Qltb_false_iff.
Qed.

Lemma typeof_number (v : JsValue) :
  typeof v = "number" <-> exists n, v = VNumber n.
Proof.
  split.
  - destruct v; simpl; try discriminate. intros _. now exists n.
  - intros [n ->]. reflexivity.
Qed.

Lemma isOptional_defined (v : JsValue) (o : option ValidationOptions) :
  v <> VUndefined -> isOptional v o = false.
Proof.
  intros Hv. unfold isOptional. destruct v; simpl; congruence.
Qed.

(** The range message is not the message of the type check. *)
Lemma rangeMessage_not_description (arg : ArgName) (lower upper n : JsNumber)
    (expectedType : string) :
  rangeMessage arg lower upper n <> createErrorDescription arg expectedType.
Proof.
  unfold rangeMessage, createErrorDescription. cbn [app]. intros H.
  injection H as H _. discriminate H.
Qed.

(** The two copies of [validateNumber] are the same function. *)
Lemma validateNumber_copies (arg : ArgName) (value : JsValue)
    (options : option ValidationOptions) :
  Part000.validateNumber arg value options = Validate.validateNumber arg value options.
Proof. reflexivity. Qed.

End NumberFacts.

(** C6, as stated, fails: a non-finite number passes [validateNumber].
    Negative infinity with [{maxValue: 10}] is neither NaN, nor below the
    lower bound (which defaults to negative infinity), nor above 10. *)
Lemma validateNumber_accepts_negative_infinity :
  num_isFinite NegInfinity = false /\
  Validate.validateNumber (ArgStr "n") (VNumber NegInfinity)
    (Some (mkOptions None None (Some (Finite 10)))) = Ok tt /\
  Part000.validateNumber (ArgStr "n") (VNumber NegInfinity)
    (Some (mkOptions None None (Some (Finite 10)))) = Ok tt.
Proof. repeat split. Qed.

(** C6, amended: [validateNumber] (in both copies), for every value and
    all options, rejects a value that is not a number or is NaN with the
    "not a valid number" error, whatever the bounds, unless the value is an
    absent optional argument; a number other than NaN, infinities included,
    never gets that error and is only subject to the range comparison, which
    accepts it or rejects it with the range message.  When [maxValue] is
    supplied, such a number is accepted exactly when it is neither below the
    lower bound ([minValue], or negative infinity when absent) nor above
    [maxValue], that is, for bounds other than NaN, exactly when it lies in
    the inclusive range; otherwise it is rejected with the range message for
    these bounds. *)
Theorem validateNumber_type_check_then_range
    (arg : ArgName) (value : JsValue) (options : option ValidationOptions) :
  Part000.validateNumber arg value options = Validate.validateNumber arg value options /\
  (typeof value <> "number" \/ value = VNumber NaN ->
   Validate.validateNumber arg value options =
     if isOptional value options then Ok tt
     else Throw (Error (createErrorDescription arg "number"))) /\
  (forall n, value = VNumber n -> n <> NaN ->
     Validate.validateNumber arg value options <>
       Throw (Error (createErrorDescription arg "number")) /\
     (Validate.validateNumber arg value options = Ok tt \/
      exists lower upper,
        Validate.validateNumber arg value options =
          Throw (Error (rangeMessage arg lower upper n)) /\
        (num_lt n lower = true \/ num_gt n upper = true))) /\
  (forall o mx n, options = Some o -> maxValue o = Some mx -> value = VNumber n -> n <> NaN ->
     let mn := match minValue o with Some m => m | None => NegInfinity end in
     (Validate.validateNumber arg value options = Ok tt <->
        num_lt n mn = false /\ num_gt n mx = false) /\
     (mn <> NaN -> mx <> NaN ->
        (Validate.validateNumber arg value options = Ok tt <->
           num_le mn n = true /\ num_le n mx = true)) /\
     (Validate.validateNumber arg value options <> Ok tt ->
        Validate.validateNumber arg value options =
          Throw (Error (rangeMessage arg mn mx n)))).
Proof.
  split; [reflexivity|]. split; [|split].
  - intros Hbad. unfold Validate.validateNumber.
    destruct (isOptional value options); simpl; [reflexivity|].
    destruct Hbad as [Hty | ->]; [|reflexivity].
    destruct value; simpl in *; try reflexivity. now elim Hty.
  - intros n -> Hn. unfold Validate.validateNumber.
    set (lower := match options with
                  | Some o => match minValue o with Some m => m | None => NegInfinity end
                  | None => NegInfinity
                  end).
    set (upper := match options with
                  | Some o => match maxValue o with Some m => m | None => NegInfinity end
                  | None => NegInfinity
                  end).
    clearbody lower upper.
    rewrite isOptional_defined by discriminate.
    cbn [negb typeof is_nan asNumber]. simpl String.eqb.
    assert (Hnan : num_isNaN n = false) by (destruct n; [now elim Hn | reflexivity ..]).
    rewrite Hnan. cbn [negb orb].
    destruct (num_lt n lower || num_gt n upper) eqn:Hrange.
    + split.
      * intros H. apply (rangeMessage_not_description arg lower upper n "number").
        congruence.
      * right. exists lower, upper. split; [reflexivity|].
        now apply orb_true_iff.
    + split; [discriminate | now left].
  - intros o mx n -> Hmx -> Hn mn.
    assert (Hrun : Validate.validateNumber arg (VNumber n) (Some o) =
                   if num_lt n mn || num_gt n mx
                   then Throw (Error (rangeMessage arg mn mx n)) else Ok tt).
    { unfold Validate.validateNumber. rewrite Hmx. fold mn.
      rewrite isOptional_defined by discriminate. simpl.
      destruct n; simpl; try reflexivity. now elim Hn. }
    rewrite Hrun. split; [|split].
    + destruct (num_lt n mn), (num_gt n mx); simpl; split;
        try congruence; try tauto; intros [? ?]; congruence.
    + intros Hmn Hmx'. unfold num_gt.
      rewrite <- (num_lt_false_iff n mn Hn Hmn), <- (num_lt_false_iff mx n Hmx' Hn).
      destruct (num_lt n mn), (num_lt mx n); simpl; split;
        try congruence; try tauto; intros [? ?]; congruence.
    + destruct (num_lt n mn || num_gt n mx); [reflexivity | congruence].
Qed.

Lemma validateNumber_type_check_then_range_witness :
  Validate.validateNumber (ArgStr "n") (VString "abc") None =
    Throw (Error (createErrorDescription (ArgStr "n") "number")) /\
  maxValue (mkOptions None (Some (Finite 0)) (Some (Finite 10))) = Some (Finite 10) /\
  (Validate.validateNumber (ArgStr "n") (VNumber (Finite 5))
     (Some (mkOptions None (Some (Finite 0)) (Some (Finite 10)))) = Ok tt <->
   num_le (Finite 0) (Finite 5) = true /\ num_le (Finite 5) (Finite 10) = true).
Proof.
  split; [|split; [reflexivity|]].
  - assert (Hty : typeof (VString "abc") <> "number") by (simpl; discriminate).
    exact (proj1 (proj2 (validateNumber_type_check_then_range (ArgStr "n") (VString "abc")
                           None)) (or_introl Hty)).
  - assert (Hn : Finite 5 <> NaN) by discriminate.
    pose proof (proj2 (proj2 (proj2
                  (validateNumber_type_check_then_range (ArgStr "n") (VNumber (Finite 5))
                     (Some (mkOptions None (Some (Finite 0)) (Some (Finite 10)))))))
                  (mkOptions None (Some (Finite 0)) (Some (Finite 10))) (Finite 10) (Finite 5)
                  eq_refl eq_refl eq_refl Hn) as H.
    cbv zeta in H. destruct H as (_ & H & _). apply H; discriminate.
Defined.

(** What the missing default costs: with no [maxValue] the upper bound is
    negative infinity, so every finite number is out of range. *)
Lemma validateNumber_without_maxValue (arg : ArgName) (q : Q) (o : option ValidationOptions) :
  match o with Some o' => maxValue o' = None | None => True end ->
  exists m, Validate.validateNumber arg (VNumber (Finite q)) o = Throw (Error m).
Proof.
  intros Ho. unfold Validate.validateNumber.
  rewrite isOptional_defined by discriminate. simpl.
  destruct o as [o'|].
  - rewrite Ho. unfold num_gt. simpl. rewrite orb_true_r. eauto.
  - unfold num_gt. simpl. eauto.
Qed.

(** C9: the two copies disagree.  On the number 5 [validateObject] of
    validate.ts raises and the copy in part_000 does not; on an array
    [customObjectMessage] of validate.ts answers "not a plain JavaScript
    object" and the copy answers "custom prototype", and on a plain object
    they answer "invalid use of type" and "custom prototype". *)
Theorem validation_copies_disagree :
  Validate.validateObject (ArgStr "v") (VNumber (Finite 5)) None =
    Throw (Error (createErrorDescription (ArgStr "v") "object")) /\
  Part000.validateObject (ArgStr "v") (VNumber (Finite 5)) None = Ok tt /\
  Validate.customObjectMessage (ArgStr "v") (VArray []) None =
    notPlainObjectMessage (ArgStr "v") None /\
  Part000.customObjectMessage (ArgStr "v") (VArray []) None =
    customPrototypeMessage (ArgStr "v") "Array" None /\
  Validate.customObjectMessage (ArgStr "v") (obj []) None =
    invalidUseMessage (ArgStr "v") "object" None /\
  Part000.customObjectMessage (ArgStr "v") (obj []) None =
    customPrototypeMessage (ArgStr "v") "Object" None.
Proof. repeat split. Qed.

(** The guard of [validateObject] in part_000 can never hold: that copy
    accepts every value. *)
Lemma Part000_validateObject_never_raises (arg : ArgName) (value : JsValue)
    (options : option ValidationOptions) :
  Part000.validateObject arg value options = Ok tt.
Proof.
  unfold Part000.validateObject.
  destruct (isOptional value options); simpl; [reflexivity|].
  destruct value; reflexivity.
Qed.

(** [validateFunction] of part_000 looks for the tag [[object Function]]
    and so refuses async and generator functions, which [is.function] in
    validate.ts accepts. *)
Lemma validateFunction_copies_disagree (arg : ArgName) (kind : FunctionKind) :
  Validate.validateFunction arg (VFunction kind) None = Ok tt /\
  (Part000.validateFunction arg (VFunction kind) None = Ok tt <-> kind = PlainFunction) /\
  (kind <> PlainFunction ->
   Part000.validateFunction arg (VFunction kind) None =
     Throw (Error (createErrorDescription arg "function"))).
Proof.
  destruct kind; cbn; repeat split; intros; congruence.
Qed.

(** [validateObject] of validate.ts raises exactly on a value that is not
    an object, unless it is an absent optional argument. *)
Lemma Validate_validateObject_raises_iff (arg : ArgName) (value : JsValue)
    (options : option ValidationOptions) :
  Validate.validateObject arg value options <> Ok tt <->
  isOptional value options = false /\ is_object value = false.
Proof.
  unfold Validate.validateObject.
  destruct (isOptional value options), (is_object value); simpl;
    split; try congruence; try tauto; intros [? ?]; congruence.
Qed.

(* ================================================================== *)
(** * Properties of the read options (part_001) *)
(* ================================================================== *)

Section ReadOptions.
Context {C : Collaborators}.

Lemma Ok_unit (r : Result unit) (u : unit) : r = Ok u <-> r = Ok tt.
Proof. destruct u. tauto. Qed.

Lemma validateFieldMaskFrom_ok (arg : ArgName) (items : list JsValue) :
  forall i,
    Util.validateFieldMaskFrom arg i items = Ok tt <->
    (forall k x, nth_error items k = Some x -> validateFieldPath (ArgIdx (i + k)) x = Ok tt).
Proof.
  induction items as [|x items IH]; intros i; simpl.
  - split; [|reflexivity]. intros _ [|k] y; discriminate.
  - destruct (validateFieldPath (ArgIdx i) x) as [[]|e] eqn:Hx.
    + rewrite IH. split.
      * intros H [|k] y Hk; simpl in Hk.
        -- injection Hk as <-. now rewrite Nat.add_0_r.
        -- rewrite Nat.add_succ_r. now apply (H k y).
      * intros H k y Hk. specialize (H (S k) y Hk). now rewrite Nat.add_succ_r in H.
    + split; [discriminate|].
      intros H. specialize (H 0%nat x eq_refl). rewrite Nat.add_0_r in H. congruence.
Qed.

(** What [validateReadOptions] does on a defined value, step by step. *)
Lemma validateReadOptions_defined (arg : ArgName) (val : JsValue) :
  val <> VUndefined ->
  Util.validateReadOptions arg val =
    match getProp val "fieldMask" with
    | Throw e => Throw e
    | Ok (VArray items) => Util.validateFieldMaskFrom arg 0 items
    | Ok _ =>
        Throw (Error (createErrorDescription arg "read option" ++
                      [Txt " "; DQ; Txt "fieldMask"; DQ; Txt " is not an array."]))
    end.
Proof.
  intros Hval. unfold Util.validateReadOptions.
  destruct val; try congruence; simpl; try reflexivity;
    destruct (lookup "fieldMask" props); reflexivity.
Qed.

Lemma validateReadOptions_without_fieldMask (arg : ArgName) (c : Constructor)
    (props : list (string * JsValue)) :
  lookup "fieldMask" props = VUndefined ->
  Util.validateReadOptions arg (VObject c props) =
    Throw (Error (createErrorDescription arg "read option" ++
                  [Txt " "; DQ; Txt "fieldMask"; DQ; Txt " is not an array."])).
Proof.
  intros H. rewrite validateReadOptions_defined by discriminate.
  simpl. now rewrite H.
Qed.

Lemma validateDocumentsFrom_throws_or_ok (documents : list JsValue) (i : nat) :
  Util.validateDocumentsFrom i documents = Ok tt \/
  exists e, Util.validateDocumentsFrom i documents = Throw e.
Proof.
  destruct (Util.validateDocumentsFrom i documents) as [[]|e]; eauto.
Qed.

Lemma parseGetAllArguments_fails_on (args documents : list JsValue) (c : Constructor)
    (props : list (string * JsValue)) :
  Util.splitGetAllArguments args = (documents, VObject c props) ->
  lookup "fieldMask" props = VUndefined ->
  exists e, Util.parseGetAllArguments args = Throw e.
Proof.
  intros Hsplit Hmask. unfold Util.parseGetAllArguments. rewrite Hsplit.
  destruct (validateDocumentsFrom_throws_or_ok documents 0) as [-> | [e ->]]; simpl.
  - rewrite validateReadOptions_without_fieldMask by assumption. simpl. eauto.
  - eauto.
Qed.

Lemma js_nth_last (args : list JsValue) :
  js_nth (List.length args - 1) args = last args VUndefined.
Proof.
  unfold js_nth. induction args as [|a [|b rest] IH]; try reflexivity.
  simpl in *. rewrite Nat.sub_0_r in IH. exact IH.
Qed.

End ReadOptions.

(** C10, as stated, fails: with an array as first argument
    [parseGetAllArguments] takes its options from the second argument, so
    that a plain object without [fieldMask] in last place, after them, is
    never looked at: [getAll([ref], undefined, {})] succeeds, without a
    field mask. *)
Lemma parseGetAllArguments_ignores_third_argument :
  last [VArray [Examples.documentRef]; VUndefined; obj []] VUndefined = obj [] /\
  SpecModel.isPlainObject (obj []) = true /\
  lookup "fieldMask" [] = VUndefined /\
  Util.parseGetAllArguments (C := SpecModel.collaborators)
    [VArray [Examples.documentRef]; VUndefined; obj []] =
    Ok (None, [Examples.documentRef]).
Proof. repeat split. Qed.

(** C10, amended: on a defined value [validateReadOptions] succeeds exactly
    when [fieldMask] is an array of valid field paths; an object without a
    [fieldMask] property is rejected with the "fieldMask is not an array"
    error; so [parseGetAllArguments] fails when the options it reads have no
    [fieldMask]: its trailing plain-object argument in the varargs form
    (first argument not an array), and its second argument when the first
    one is an array.  In that form it reads nothing but the first two
    arguments. *)
Theorem validateReadOptions_requires_fieldMask {C : Collaborators} :
  (forall arg val, val <> VUndefined ->
     (Util.validateReadOptions arg val = Ok tt <->
      exists items, getProp val "fieldMask" = Ok (VArray items) /\
        forall k x, nth_error items k = Some x -> validateFieldPath (ArgIdx k) x = Ok tt)) /\
  (forall arg c props, lookup "fieldMask" props = VUndefined ->
     Util.validateReadOptions arg (VObject c props) =
       Throw (Error (createErrorDescription arg "read option" ++
                     [Txt " "; DQ; Txt "fieldMask"; DQ; Txt " is not an array."]))) /\
  (forall args c props,
     last args VUndefined = VObject c props ->
     isPlainObject (VObject c props) = true ->
     lookup "fieldMask" props = VUndefined ->
     Array_isArray (js_nth 0 args) = false \/ List.length args = 2%nat ->
     exists e, Util.parseGetAllArguments args = Throw e) /\
  (forall args,
     Array_isArray (js_nth 0 args) = true ->
     Util.parseGetAllArguments args =
       Util.parseGetAllArguments [js_nth 0 args; js_nth 1 args] /\
     forall c props,
       js_nth 1 args = VObject c props ->
       lookup "fieldMask" props = VUndefined ->
       exists e, Util.parseGetAllArguments args = Throw e).
Proof.
  split; [|split; [|split]].
  - intros arg val Hval. rewrite validateReadOptions_defined by assumption.
    destruct (getProp val "fieldMask") as [fm|e].
    + destruct fm; try (split; [discriminate | intros (items & Hi & _); discriminate]).
      rewrite validateFieldMaskFrom_ok. split.
      * intros H. exists items. split; [reflexivity | exact H].
      * intros (items' & Hi & H). injection Hi as <-. exact H.
    + split; [discriminate | intros (items & Hi & _); discriminate].
  - intros arg c props. apply validateReadOptions_without_fieldMask.
  - intros args c props Hlast Hplain Hmask Hshape.
    destruct (Array_isArray (js_nth 0 args)) eqn:Harr.
    + destruct Hshape as [Hf | Hlen]; [discriminate|].
      destruct args as [|a [|o [|x rest]]]; try discriminate.
      simpl in Hlast. subst o.
      apply (parseGetAllArguments_fails_on _ (array_items a) c props); [|assumption].
      unfold Util.splitGetAllArguments. now rewrite Harr.
    + apply (parseGetAllArguments_fails_on _ (removelast args) c props); [|assumption].
      unfold Util.splitGetAllArguments. rewrite Harr, js_nth_last, Hlast, Hplain.
      destruct args as [|a rest]; [discriminate|]. reflexivity.
  - intros args Harr.
    assert (Hsplit : Util.splitGetAllArguments args =
                     (array_items (js_nth 0 args), js_nth 1 args))
      by (unfold Util.splitGetAllArguments; now rewrite Harr).
    split.
    + unfold Util.parseGetAllArguments. rewrite Hsplit.
      unfold Util.splitGetAllArguments. cbn [js_nth nth]. fold (js_nth 0 args).
      now rewrite Harr.
    + intros c props Hopt Hmask.
      apply (parseGetAllArguments_fails_on _ (array_items (js_nth 0 args)) c props);
        [|assumption].
      now rewrite Hsplit, Hopt.
Qed.

Lemma validateReadOptions_requires_fieldMask_witness :
  last [obj []] VUndefined = obj [] /\
  SpecModel.isPlainObject (obj []) = true /\
  lookup "fieldMask" [] = VUndefined /\
  Array_isArray (js_nth 0 [obj []]) = false /\
  (exists e, Util.parseGetAllArguments (C := SpecModel.collaborators) [obj []] = Throw e) /\
  Array_isArray (js_nth 0 [VArray [Examples.documentRef]; obj []; VNull]) = true /\
  exists e, Util.parseGetAllArguments (C := SpecModel.collaborators)
              [VArray [Examples.documentRef]; obj []; VNull] = Throw e.
Proof.
  repeat (split; [reflexivity|]). split.
  - exact (proj1 (proj2 (proj2 (validateReadOptions_requires_fieldMask
                                  (C := SpecModel.collaborators))))
             [obj []] Object_ctor [] eq_refl eq_refl eq_refl (or_introl eq_refl)).
  - split; [reflexivity|].
    exact (proj2 (proj2 (proj2 (proj2 (validateReadOptions_requires_fieldMask
                                         (C := SpecModel.collaborators))))
                    [VArray [Examples.documentRef]; obj []; VNull] eq_refl)
             Object_ctor [] eq_refl eq_refl).
Defined.

(* ================================================================== *)
(** * Properties of commit *)
(* ================================================================== *)

Module CommitFacts.
Import WriteBatch Notions.

Lemma attachPrecondition_shape (op : WriteOp) :
  (write (attachPrecondition op) = None <-> write op = None) /\
  (transform (attachPrecondition op) = None <-> transform op = None) /\
  precondition (attachPrecondition op) = precondition op.
Proof.
  unfold attachPrecondition.
  destruct op as [[w|] [t|] [p|]]; simpl; repeat split; congruence.
Qed.

Lemma entries_length (op : WriteOp) :
  List.length (entries op) =
    match write op, transform op with
    | Some _, Some _ => 2%nat
    | None, None => 0%nat
    | _, _ => 1%nat
    end.
Proof. unfold entries. destruct (write op), (transform op); reflexivity. Qed.

Lemma entries_attach_length (op : WriteOp) :
  List.length (entries (attachPrecondition op)) = List.length (entries op).
Proof.
  unfold attachPrecondition, entries.
  destruct op as [[w|] [t|] [p|]]; reflexivity.
Qed.

Lemma hasEntry_attach (op : WriteOp) : hasEntry (attachPrecondition op) = hasEntry op.
Proof.
  unfold attachPrecondition, hasEntry.
  destruct op as [[w|] [t|] [p|]]; reflexivity.
Qed.

Lemma attachPrecondition_idempotent (op : WriteOp) :
  attachPrecondition (attachPrecondition op) = attachPrecondition op.
Proof.
  unfold attachPrecondition.
  destruct op as [[w|] [t|] [p|]]; reflexivity.
Qed.

Lemma wireEntries_length (ops : list WriteOp) :
  List.length (wireEntries ops) = List.length (flat_map entries ops).
Proof.
  unfold wireEntries. induction ops as [|op ops IH]; simpl; [reflexivity|].
  rewrite !length_app, IH, entries_attach_length. reflexivity.
Qed.

(** The loop that builds [request.writes] succeeds exactly when every
    operation carries an entry; it then leaves each precondition attached. *)
Lemma buildWrites_ok (ops : list WriteOp) :
  forallb hasEntry ops = true ->
  buildWrites ops = (map attachPrecondition ops, Ok (wireEntries ops)).
Proof.
  unfold wireEntries. induction ops as [|op ops IH]; simpl; [reflexivity|].
  intros H. apply andb_prop in H as [Hop Hops].
  rewrite (IH Hops). unfold hasEntry in Hop.
  destruct (write op), (transform op); try discriminate; reflexivity.
Qed.

Lemma buildWrites_throws (ops : list WriteOp) :
  forallb hasEntry ops = false ->
  exists e, snd (buildWrites ops) = Throw e.
Proof.
  induction ops as [|op ops IH]; simpl; [discriminate|].
  intros H. unfold hasEntry in H at 1.
  destruct (write op) eqn:Hw, (transform op) eqn:Ht; simpl in H;
    try (destruct (buildWrites ops) as [rest' r]; simpl in *;
         destruct (IH H) as [e ->]; simpl; eauto).
  simpl. eauto.
Qed.

Section WithClient.
Context {C : Collaborators}.
Variable firestore : Firestore.
Variable now : Z.
Variable transport : Transport.

Abbreviation beginRequest := (Notions.beginRequest firestore).
Abbreviation commitRequest := (Notions.commitRequest firestore).
Abbreviation sendCommit := (Notions.sendCommit firestore transport).

Lemma shouldCreateTransaction_iff :
  _shouldCreateTransaction firestore now = true <->
  _preferTransactions firestore = true /\
  (_lastSuccessfulRequest firestore = 0 \/
   now - _lastSuccessfulRequest firestore > 110000)%Z.
Proof.
  unfold _shouldCreateTransaction, GCF_IDLE_TIMEOUT_MS.
  destruct (_preferTransactions firestore); simpl.
  - destruct (Z.eqb_spec (_lastSuccessfulRequest firestore) 0) as [E|E]; simpl.
    + split; auto.
    + rewrite Z.ltb_lt. split.
      * intros H. split; [reflexivity|]. right. lia.
      * intros [_ [H|H]]; [contradiction | lia].
  - split; [discriminate | intros [H _]; discriminate].
Qed.

Lemma commit__explicit (fuel : nat) (tx : list Byte.byte) (b : Batch) :
  commit_ firestore now transport (S fuel) (Some (mkCommitOptions (Some tx))) b =
    Some (sendCommit (Some tx) b).
Proof.
  unfold sendCommit. simpl.
  destruct (buildWrites (_writes b)) as [ops [ws|e]]; [|reflexivity].
  destruct (commitRpc transport _); reflexivity.
Qed.

Lemma commit__direct (fuel : nat) (commitOptions : option CommitOptions) (b : Batch) :
  explicitTransaction commitOptions = None ->
  _shouldCreateTransaction firestore now = false ->
  commit_ firestore now transport (S fuel) commitOptions b = Some (sendCommit None b).
Proof.
  intros Hx Hs. unfold sendCommit. simpl.
  unfold explicitTransaction in Hx. rewrite Hx, Hs. simpl.
  destruct (buildWrites (_writes b)) as [ops [ws|e]]; [|reflexivity].
  destruct (commitRpc transport _); reflexivity.
Qed.

Lemma commit__step (fuel : nat) (commitOptions : option CommitOptions) (b : Batch) :
  explicitTransaction commitOptions = None ->
  _shouldCreateTransaction firestore now = true ->
  commit_ firestore now transport (S fuel) commitOptions b =
    match beginTransaction transport beginRequest with
    | Throw e => Some (b, [RpcBeginTransaction beginRequest true], Throw e)
    | Ok resp =>
        match commit_ firestore now transport fuel
                (Some (mkCommitOptions (Some (resp_transaction resp)))) b with
        | None => None
        | Some (b', log, r) => Some (b', RpcBeginTransaction beginRequest true :: log, r)
        end
    end.
Proof.
  intros Hx Hs. unfold explicitTransaction in Hx.
  destruct fuel; simpl; rewrite Hx, Hs; reflexivity.
Qed.

Lemma commit__begin (fuel : nat) (commitOptions : option CommitOptions) (b : Batch) :
  explicitTransaction commitOptions = None ->
  _shouldCreateTransaction firestore now = true ->
  commit_ firestore now transport (S (S fuel)) commitOptions b =
    Some match beginTransaction transport beginRequest with
         | Throw e => (b, [RpcBeginTransaction beginRequest true], Throw e)
         | Ok resp =>
             let '(b', log, r) := sendCommit (Some (resp_transaction resp)) b in
             (b', RpcBeginTransaction beginRequest true :: log, r)
         end.
Proof.
  intros Hx Hs. rewrite commit__step by assumption.
  destruct (beginTransaction transport beginRequest) as [resp|e]; [|reflexivity].
  rewrite commit__explicit.
  destruct (sendCommit (Some (resp_transaction resp)) b) as [[b' log] r]. reflexivity.
Qed.

(** With two levels of recursion [commit_] always settles. *)
Lemma commit__total (fuel : nat) (commitOptions : option CommitOptions) (b : Batch) :
  exists out, commit_ firestore now transport (S (S fuel)) commitOptions b = Some out.
Proof.
  destruct (explicitTransaction commitOptions) as [tx|] eqn:Hx.
  - destruct commitOptions as [[t]|]; simpl in Hx; [|discriminate]. subst t.
    rewrite commit__explicit. eauto.
  - destruct (_shouldCreateTransaction firestore now) eqn:Hs.
    + rewrite commit__begin by assumption. eauto.
    + rewrite commit__direct by assumption. eauto.
Qed.

Lemma sendCommit_wellformed (tx : option (list Byte.byte)) (b : Batch) :
  forallb hasEntry (_writes b) = true ->
  sendCommit tx b =
    let ops := map attachPrecondition (_writes b) in
    let request := commitRequest (_writes b) tx in
    (mkBatch ops true, [RpcCommit request false],
     match commitRpc transport request with
     | Throw e => Throw e
     | Ok resp => onCommitResponse ops (wireEntries (_writes b)) resp
     end).
Proof.
  intros H. unfold sendCommit. rewrite (buildWrites_ok _ H). unfold commitRequest.
  destruct (commitRpc transport _); reflexivity.
Qed.

Lemma sendCommit_log (tx : option (list Byte.byte)) (b : Batch) :
  forall x, In x (snd (fst (sendCommit tx b))) ->
            exists req, x = RpcCommit req false /\ transaction req = tx.
Proof.
  unfold sendCommit. intros x.
  destruct (buildWrites (_writes b)) as [ops [ws|e]]; simpl; [|tauto].
  destruct (commitRpc transport _); simpl; intros [<-|[]]; eauto.
Qed.

(** The loop over the write list reads, for the operation at [j], the
    result of the last wire entry that operation sent. *)
Lemma collectFrom_spec (ops : list WriteOp) :
  forall (i offset : nat) (rs : list IWriteResult) (ct : Timestamp),
    forallb hasEntry ops = true ->
    i + offset + List.length (flat_map entries ops) <= List.length rs ->
    exists results,
      collectFrom ops i offset rs ct = Ok results /\
      List.length results = List.length ops /\
      forall j op, nth_error ops j = Some op ->
        exists wr r,
          nth_error results j = Some wr /\
          nth_error rs (i + offset + List.length (flat_map entries (firstn j ops)) +
                        (List.length (entries op) - 1)) = Some r /\
          _writeTime wr = match wr_updateTime r with
                          | Some t => Timestamp_fromProto t
                          | None => ct
                          end.
Proof.
  induction ops as [|op ops IH]; intros i offset rs ct Hall Hlen.
  - exists []. repeat split. intros [|j] op; discriminate.
  - simpl in Hall. apply andb_prop in Hall as [Hop Hops].
    simpl in Hlen. rewrite length_app in Hlen.
    pose proof (entries_length op) as He.
    simpl collectFrom.
    set (offset' := match write op, transform op with
                    | Some _, Some _ => S offset
                    | _, _ => offset
                    end).
    assert (Hoff : i + offset' = i + offset + (List.length (entries op) - 1)).
    { subst offset'. unfold hasEntry in Hop.
      destruct (write op), (transform op); try discriminate; rewrite He; lia. }
    assert (Hpos : 1 <= List.length (entries op)).
    { unfold hasEntry in Hop.
      destruct (write op), (transform op); try discriminate; rewrite He; lia. }
    destruct (nth_error rs (i + offset')) as [r|] eqn:Hr.
    2:{ apply nth_error_None in Hr. lia. }
    destruct (IH (S i) offset' rs ct Hops) as (more & Hmore & Hlenmore & Hnth).
    { lia. }
    rewrite Hmore. simpl.
    eexists. split; [reflexivity|]. split; [simpl; now rewrite Hlenmore|].
    intros [|j] op' Hj; simpl in Hj.
    + injection Hj as <-. exists (mkWriteResult
        match wr_updateTime r with Some t => Timestamp_fromProto t | None => ct end), r.
      simpl. rewrite Nat.add_0_r, <- Hoff. auto.
    + destruct (Hnth j op' Hj) as (wr & r' & Hwr & Hr' & Ht).
      exists wr, r'. simpl. rewrite length_app. repeat split; try assumption.
      rewrite <- Hr'. f_equal. lia.
Qed.

(** Where the entries of the operation at [i] sit in [request.writes]. *)
Lemma wireEntries_nth (ops : list WriteOp) :
  forall i op j,
    nth_error ops i = Some op ->
    j < List.length (entries op) ->
    nth_error (wireEntries ops) (List.length (wireEntries (firstn i ops)) + j) =
      nth_error (entries (attachPrecondition op)) j.
Proof.
  unfold wireEntries.
  induction ops as [|o ops IH]; intros [|i] op j Hi Hj; try discriminate; simpl in *.
  - injection Hi as ->. rewrite nth_error_app1; [reflexivity|].
    now rewrite entries_attach_length.
  - rewrite length_app, <- Nat.add_assoc, nth_error_app2 by lia.
    rewrite <- (IH i op j Hi Hj). f_equal. lia.
Qed.

End WithClient.
End CommitFacts.

Section CommitProperties.
Import WriteBatch Notions CommitFacts.
Context {C : Collaborators}.

(** C3: [commit()] issues a beginTransaction RPC, before anything else,
    exactly when transactions are preferred and either no request succeeded
    before or more than 110000 ms passed since the last one; the commit RPC
    then carries the transaction it obtained.  Otherwise the commit RPC is
    the only call and carries no transaction. *)
Theorem commit_begins_transaction_iff_idle
    (firestore : Firestore) (now : Z) (transport : Transport) (b : Batch) :
  let idle :=
    _preferTransactions firestore = true /\
    (_lastSuccessfulRequest firestore = 0 \/
     now - _lastSuccessfulRequest firestore > 110000)%Z in
  exists b' log r,
    commit firestore now transport b = Some (b', log, r) /\
    ((exists req ar, In (RpcBeginTransaction req ar) log) <-> idle) /\
    (idle ->
       exists rest, log = RpcBeginTransaction (beginRequest firestore) true :: rest /\
         forall x, In x rest -> exists req, x = RpcCommit req false /\ transaction req <> None) /\
    (~ idle ->
       forall x, In x log -> exists req, x = RpcCommit req false /\ transaction req = None) /\
    (forallb hasEntry (_writes b) = true ->
       (~ idle -> log = [RpcCommit (commitRequest firestore (_writes b) None) false]) /\
       (idle -> forall resp,
          beginTransaction transport (beginRequest firestore) = Ok resp ->
          log = [RpcBeginTransaction (beginRequest firestore) true;
                 RpcCommit (commitRequest firestore (_writes b)
                                          (Some (resp_transaction resp))) false])).
Proof.
  intros idle. unfold commit.
  pose proof (shouldCreateTransaction_iff firestore now) as Hiff. fold idle in Hiff.
  destruct (_shouldCreateTransaction firestore now) eqn:Hs.
  - assert (Hidle : idle) by (apply Hiff; reflexivity).
    rewrite commit__begin by (assumption || reflexivity).
    destruct (beginTransaction transport (beginRequest firestore)) as [resp|e] eqn:Hb.
    + pose proof (sendCommit_log firestore transport (Some (resp_transaction resp)) b) as Hlog.
      pose proof (sendCommit_wellformed firestore transport (Some (resp_transaction resp)) b)
        as Hwf.
      destruct (sendCommit firestore transport (Some (resp_transaction resp)) b)
        as [[b' log] r]. simpl in Hlog.
      exists b', (RpcBeginTransaction (beginRequest firestore) true :: log), r.
      split; [reflexivity|]. split; [|split; [|split]].
      * split; [intros _; exact Hidle | intros _; do 2 eexists; left; reflexivity].
      * intros _. exists log. split; [reflexivity|].
        intros x Hx. destruct (Hlog x Hx) as (req & -> & Htx).
        exists req. split; [reflexivity|]. rewrite Htx. discriminate.
      * intros Hn. contradiction.
      * intros Hall. split; [intros Hn; contradiction|].
        intros _ resp' Hresp'. injection Hresp' as <-.
        specialize (Hwf Hall). simpl in Hwf. injection Hwf as _ -> _. reflexivity.
    + exists b, [RpcBeginTransaction (beginRequest firestore) true], (Throw e).
      split; [reflexivity|]. split; [|split; [|split]].
      * split; [intros _; exact Hidle | intros _; do 2 eexists; left; reflexivity].
      * intros _. exists []. split; [reflexivity | intros x []].
      * intros Hn. contradiction.
      * intros Hall. split; [intros Hn; contradiction | intros _ resp' Hresp'; discriminate].
  - assert (Hidle : ~ idle) by (intros H; apply Hiff in H; discriminate).
    rewrite commit__direct by (assumption || reflexivity).
    pose proof (sendCommit_log firestore transport None b) as Hlog.
    pose proof (sendCommit_wellformed firestore transport None b) as Hwf.
    destruct (sendCommit firestore transport None b) as [[b' log] r]. simpl in Hlog.
    exists b', log, r. split; [reflexivity|]. split; [|split; [|split]].
    + split; [|intros H; contradiction].
      intros (req & ar & Hin). destruct (Hlog _ Hin) as (req' & Habs & _). discriminate.
    + intros H. contradiction.
    + intros _. exact Hlog.
    + intros Hall. split; [|intros H; contradiction].
      intros _. specialize (Hwf Hall). simpl in Hwf. injection Hwf as _ -> _. reflexivity.
Qed.

(** C8: committing a batch without operations still sends a commit RPC,
    with an empty [writes] array, and resolves to the empty list whatever
    the response holds. *)
Theorem commit_empty_batch
    (firestore : Firestore) (now : Z) (transport : Transport) (b : Batch) :
  isEmpty b = true ->
  (_shouldCreateTransaction firestore now = true ->
   exists resp, beginTransaction transport (beginRequest firestore) = Ok resp) ->
  (forall req, writes req = Some [] -> exists resp, commitRpc transport req = Ok resp) ->
  exists b' before req,
    commit firestore now transport b = Some (b', before ++ [RpcCommit req false], Ok []) /\
    writes req = Some [] /\
    database req = fs_formattedName firestore /\
    (forall x, In x before -> x = RpcBeginTransaction (beginRequest firestore) true) /\
    forall resp, onCommitResponse [] [] resp = Ok [].
Proof.
  intros Hempty Hbegin Hcommit. unfold isEmpty in Hempty.
  assert (Hw : _writes b = []) by (destruct (_writes b); [reflexivity | discriminate]).
  assert (Hsend : forall tx, exists req,
            sendCommit firestore transport tx b = (mkBatch [] true, [RpcCommit req false], Ok [])
            /\ writes req = Some [] /\ database req = fs_formattedName firestore).
  { intros tx. unfold sendCommit. rewrite Hw. simpl.
    destruct (Hcommit (mkICommitRequest (fs_formattedName firestore) (Some []) tx) eq_refl)
      as [resp ->].
    eexists. split; [reflexivity|]. split; reflexivity. }
  unfold commit. destruct (_shouldCreateTransaction firestore now) eqn:Hs.
  - rewrite commit__begin by (assumption || reflexivity).
    destruct (Hbegin eq_refl) as [resp ->].
    destruct (Hsend (Some (resp_transaction resp))) as (req & -> & Hreq & Hdb).
    exists (mkBatch [] true), [RpcBeginTransaction (beginRequest firestore) true], req.
    repeat split; try assumption. intros x [<-|[]]. reflexivity.
  - rewrite commit__direct by (assumption || reflexivity).
    destruct (Hsend None) as (req & -> & Hreq & Hdb).
    exists (mkBatch [] true), [], req.
    repeat split; try assumption. intros x [].
Qed.

(** C1: when every queued operation carries an entry, so that the commit
    RPC is sent, and that RPC succeeds with one result per wire entry,
    [commit] resolves to one [WriteResult] per operation, in the order of the
    write list.  The operation at [i] sent its entries from position [k] of
    [request.writes] on; if it sent a write and a transform, its result is
    read from the transform's result at [k + 1] and the write's result at [k]
    is not used; otherwise it is read from the single result at [k].  The
    time is the update time of that result, or the commit time when the
    result has none. *)
Theorem commit_returns_one_result_per_operation
    (firestore : Firestore) (now : Z) (transport : Transport) (b : Batch)
    (resp : CommitResponse) (rs : list IWriteResult) :
  forallb hasEntry (_writes b) = true ->
  (_shouldCreateTransaction firestore now = true ->
   exists tx, beginTransaction transport (beginRequest firestore) = Ok tx) ->
  (forall tx, commitRpc transport (commitRequest firestore (_writes b) tx) = Ok resp) ->
  writeResults resp = Some rs ->
  List.length rs = List.length (wireEntries (_writes b)) ->
  exists b' log results,
    commit firestore now transport b = Some (b', log, Ok results) /\
    List.length results = List.length (_writes b) /\
    forall i op, nth_error (_writes b) i = Some op ->
      exists wr, nth_error results i = Some wr /\
        let k := List.length (wireEntries (firstn i (_writes b))) in
        match write op, transform op with
        | Some _, Some _ =>
            nth_error (wireEntries (_writes b)) k = write (attachPrecondition op) /\
            nth_error (wireEntries (_writes b)) (k + 1) = transform (attachPrecondition op) /\
            exists r, nth_error rs (k + 1) = Some r /\
                      writeTime wr = timeOf (commitTime resp) r
        | _, _ =>
            nth_error (wireEntries (_writes b)) k = hd_error (entries (attachPrecondition op)) /\
            exists r, nth_error rs k = Some r /\
                      writeTime wr = timeOf (commitTime resp) r
        end.
Proof.
  intros Hall Hbegin Hcommit Hrs Hlen.
  set (ops := map attachPrecondition (_writes b)).
  assert (Hall' : forallb hasEntry ops = true).
  { subst ops. rewrite forallb_forall in *. intros op Hin.
    apply in_map_iff in Hin as (op0 & <- & Hin0). rewrite hasEntry_attach. auto. }
  destruct (collectFrom_spec ops 0 0 rs (Timestamp_fromProto (commitTime resp)) Hall')
    as (results & Hres & Hlenres & Hnth).
  { simpl. rewrite Hlen. subst ops. reflexivity. }
  assert (Hcb : onCommitResponse ops (wireEntries (_writes b)) resp = Ok results).
  { unfold onCommitResponse. rewrite Hrs, <- Hlen, Nat.eqb_refl, Hres.
    destruct (Nat.ltb 0 (List.length rs)) eqn:Hpos; [reflexivity|].
    apply Nat.ltb_ge in Hpos. assert (Hnil : rs = []) by (destruct rs; [reflexivity | simpl in Hpos; lia]).
    subst rs. destruct ops as [|op ops'] eqn:Hops.
    - simpl in Hres. exact Hres.
    - exfalso. simpl in Hall'. apply andb_prop in Hall' as [Hop _].
      assert (Hl : List.length (wireEntries (_writes b)) = 0) by (rewrite <- Hlen; reflexivity).
      unfold wireEntries in Hl. fold ops in Hl. rewrite Hops in Hl. simpl in Hl.
      rewrite length_app in Hl. pose proof (entries_length op) as He.
      unfold hasEntry in Hop. destruct (write op), (transform op); try discriminate; lia. }
  assert (Hsend : forall tx, sendCommit firestore transport tx b =
            (mkBatch ops true, [RpcCommit (commitRequest firestore (_writes b) tx) false],
             Ok results)).
  { intros tx. rewrite sendCommit_wellformed by assumption. simpl.
    rewrite Hcommit. fold ops. now rewrite Hcb. }
  assert (Hrun : exists b' log, commit firestore now transport b = Some (b', log, Ok results)).
  { unfold commit. destruct (_shouldCreateTransaction firestore now) eqn:Hs.
    - rewrite commit__begin by (assumption || reflexivity).
      destruct (Hbegin eq_refl) as [tx ->]. rewrite Hsend. eauto.
    - rewrite commit__direct by (assumption || reflexivity). rewrite Hsend. eauto. }
  destruct Hrun as (b' & log & Hrun). exists b', log, results.
  split; [exact Hrun|]. split; [subst ops; now rewrite Hlenres, length_map|].
  intros i op Hi.
  assert (Hi' : nth_error ops i = Some (attachPrecondition op)).
  { subst ops. rewrite nth_error_map, Hi. reflexivity. }
  destruct (Hnth i _ Hi') as (wr & r & Hwr & Hr & Ht).
  exists wr. split; [exact Hwr|]. intros k.
  assert (Hk : List.length (flat_map entries (firstn i ops)) = k).
  { subst ops k. unfold wireEntries. now rewrite firstn_map. }
  rewrite Hk, entries_attach_length in Hr. simpl in Hr.
  pose proof (entries_length op) as He.
  pose proof (wireEntries_nth (_writes b) i op 0 Hi) as H0.
  pose proof (wireEntries_nth (_writes b) i op 1 Hi) as H1.
  fold k in H0, H1. rewrite Nat.add_0_r in H0.
  destruct (attachPrecondition_shape op) as (Hw & Htr & _).
  assert (Htime : writeTime wr = timeOf (commitTime resp) r).
  { unfold writeTime, timeOf. rewrite Ht. reflexivity. }
  unfold entries in H0, H1 |- *.
  destruct (write op) as [w|] eqn:Ew, (transform op) as [t|] eqn:Et;
    rewrite He in *; simpl in Hr.
  - destruct (write (attachPrecondition op)) as [w'|];
      [|exfalso; assert (D : Some w = None) by (apply Hw; reflexivity); discriminate].
    destruct (transform (attachPrecondition op)) as [t'|];
      [|exfalso; assert (D : Some t = None) by (apply Htr; reflexivity); discriminate].
    simpl in H0, H1. split; [apply H0; lia|]. split; [apply H1; lia|]. eauto.
  - destruct (write (attachPrecondition op)) as [w'|];
      [|exfalso; assert (D : Some w = None) by (apply Hw; reflexivity); discriminate].
    simpl in *. split; [apply H0; lia|]. rewrite Nat.add_0_r in Hr. eauto.
  - destruct (write (attachPrecondition op)) as [w'|] eqn:Ew';
      [exfalso; assert (D : Some w' = None) by (apply Hw; reflexivity); discriminate|].
    simpl in *. split; [apply H0; lia|]. rewrite Nat.add_0_r in Hr. eauto.
  - exfalso. rewrite forallb_forall in Hall. apply nth_error_In in Hi.
    specialize (Hall op Hi). unfold hasEntry in Hall. rewrite Ew, Et in Hall. discriminate.
Qed.

End CommitProperties.

(* ================================================================== *)
(** * Properties of the operations that append *)
(* ================================================================== *)

Module AppendFacts.
Import WriteBatch Notions.

Lemma readonly_lift {A} (r : Result A) : readonly (lift r).
Proof. intros b b' r' H. now injection H as <- _. Qed.

Lemma readonly_verifyNotCommitted : readonly verifyNotCommitted.
Proof.
  intros b b' r H. unfold verifyNotCommitted in H.
  destruct (_committed b); now injection H as <- _.
Qed.

Lemma readonly_atomic {A} (m : M A) : readonly m -> atomic m.
Proof. intros H b b' e Hm. exact (H _ _ _ Hm). Qed.

Lemma readonly_keepsFlag {A} (m : M A) : readonly m -> keepsFlag m.
Proof. intros H b b' r Hm. now rewrite (H _ _ _ Hm). Qed.

Lemma atomic_push (op : WriteOp) : atomic (push op).
Proof. intros b b' e H. discriminate. Qed.

Lemma keepsFlag_push (op : WriteOp) : keepsFlag (push op).
Proof. intros b b' r H. now injection H as <- _. Qed.

Lemma appendsOne_push (op : WriteOp) : appendsOne (push op).
Proof. intros b b' r H. injection H as <- <-. now exists op. Qed.

Lemma appendsOne_bind {A B} (m : M A) (k : A -> M B) :
  readonly m -> (forall a, appendsOne (k a)) -> appendsOne (bind m k).
Proof.
  intros Hm Hk b b' r H. unfold bind in H.
  destruct (m b) as [b1 [a|e1]] eqn:E.
  - rewrite (Hm _ _ _ E) in H. exact (Hk a _ _ _ H).
  - injection H as <- <-. exact (Hm _ _ _ E).
Qed.

Lemma atomic_bind {A B} (m : M A) (k : A -> M B) :
  readonly m -> (forall a, atomic (k a)) -> atomic (bind m k).
Proof.
  intros Hm Hk b b' e H. unfold bind in H.
  destruct (m b) as [b1 [a|e1]] eqn:E.
  - rewrite (Hm _ _ _ E) in H. exact (Hk a _ _ _ H).
  - injection H as <- _. exact (Hm _ _ _ E).
Qed.

Lemma keepsFlag_bind {A B} (m : M A) (k : A -> M B) :
  keepsFlag m -> (forall a, keepsFlag (k a)) -> keepsFlag (bind m k).
Proof.
  intros Hm Hk b b' r H. unfold bind in H.
  destruct (m b) as [b1 [a|e1]] eqn:E.
  - rewrite (Hk a _ _ _ H). exact (Hm _ _ _ E).
  - injection H as <- _. exact (Hm _ _ _ E).
Qed.

Lemma verifyNotCommitted_committed {B} (k : unit -> M B) (b : Batch) :
  _committed b = true ->
  bind verifyNotCommitted k b = (b, Throw notCommittedError).
Proof.
  intros H. unfold bind, verifyNotCommitted. now rewrite H.
Qed.

Lemma bind_lift_ok {A B} (r : Result A) (k : A -> M B) (b b' : Batch) (x : B) :
  bind (lift r) k b = (b', Ok x) -> exists a, r = Ok a /\ k a b = (b', Ok x).
Proof.
  unfold bind, lift. destruct r as [a|e]; [eauto | discriminate].
Qed.

Lemma bind_lift_run {A B} (r : Result A) (k : A -> M B) (b : Batch) (a : A) :
  r = Ok a -> bind (lift r) k b = k a b.
Proof. intros ->. reflexivity. Qed.

Ltac step_atomic :=
  repeat first
    [ apply atomic_push
    | apply atomic_bind; [first [apply readonly_lift | apply readonly_verifyNotCommitted]
                         | intros ? ] ].

Ltac step_appends :=
  repeat first
    [ apply appendsOne_push
    | apply appendsOne_bind; [first [apply readonly_lift | apply readonly_verifyNotCommitted]
                             | intros ? ] ].

Ltac step_flag :=
  repeat first
    [ apply keepsFlag_push
    | apply keepsFlag_bind;
        [apply readonly_keepsFlag;
         first [apply readonly_lift | apply readonly_verifyNotCommitted]
        | intros ? ] ].

Section WithCollaborators.
Context {C : Collaborators}.

Lemma runAppend_atomic (call : Append) : atomic (runAppend call).
Proof.
  destruct call; simpl;
    [unfold create | unfold delete | unfold set | unfold update]; step_atomic.
Qed.

Lemma runAppend_appendsOne (call : Append) : appendsOne (runAppend call).
Proof.
  destruct call; simpl;
    [unfold create | unfold delete | unfold set | unfold update]; step_appends.
Qed.

Lemma runAppend_keepsFlag (call : Append) : keepsFlag (runAppend call).
Proof.
  destruct call; simpl;
    [unfold create | unfold delete | unfold set | unfold update]; step_flag.
Qed.

(** Past its first checks, which do not look at the batch, every operation
    runs [verifyNotCommitted]: if the call succeeds on some batch, it throws
    the state error on every committed one. *)
Lemma runAppend_after_commit (call : Append) (b0 b0' b : Batch) :
  runAppend call b0 = (b0', Ok tt) ->
  _committed b = true ->
  runAppend call b = (b, Throw notCommittedError).
Proof.
  intros Hok Hc. destruct call; simpl in *.
  - unfold create in *.
    apply bind_lift_ok in Hok as (u1 & E1 & Hok).
    apply bind_lift_ok in Hok as (u2 & E2 & Hok).
    rewrite (bind_lift_run _ _ _ _ E1), (bind_lift_run _ _ _ _ E2).
    now apply verifyNotCommitted_committed.
  - unfold delete in *.
    apply bind_lift_ok in Hok as (u1 & E1 & Hok).
    apply bind_lift_ok in Hok as (u2 & E2 & Hok).
    rewrite (bind_lift_run _ _ _ _ E1), (bind_lift_run _ _ _ _ E2).
    now apply verifyNotCommitted_committed.
  - unfold set in *.
    apply bind_lift_ok in Hok as (u1 & E1 & Hok).
    apply bind_lift_ok in Hok as (u2 & E2 & Hok).
    apply bind_lift_ok in Hok as (u3 & E3 & Hok).
    rewrite (bind_lift_run _ _ _ _ E1), (bind_lift_run _ _ _ _ E2),
      (bind_lift_run _ _ _ _ E3).
    now apply verifyNotCommitted_committed.
  - unfold update in *.
    apply bind_lift_ok in Hok as (u1 & E1 & Hok).
    apply bind_lift_ok in Hok as (u2 & E2 & Hok).
    rewrite (bind_lift_run _ _ _ _ E1), (bind_lift_run _ _ _ _ E2).
    now apply verifyNotCommitted_committed.
Qed.

End WithCollaborators.
End AppendFacts.


Section CommittedFlag.
Import WriteBatch Notions CommitFacts.
Context {C : Collaborators}.
Variable firestore : Firestore.
Variable now : Z.
Variable transport : Transport.

Lemma sendCommit_flag (tx : option (list Byte.byte)) (b : Batch) :
  let '(b', log, _) := sendCommit firestore transport tx b in
  (_committed b = true -> _committed b' = true) /\
  ((exists req ar, In (RpcCommit req ar) log) -> _committed b' = true).
Proof.
  unfold sendCommit.
  destruct (buildWrites (_writes b)) as [ops [ws|e]].
  - destruct (commitRpc transport _); simpl; auto.
  - simpl. split; [auto|]. intros (req & ar & []).
Qed.

(** [commit_] never clears the flag, and has set it whenever it sent the
    commit RPC, whatever became of that RPC. *)
Lemma commit__flag (fuel : nat) :
  forall commitOptions b b' log r,
    commit_ firestore now transport fuel commitOptions b = Some (b', log, r) ->
    (_committed b = true -> _committed b' = true) /\
    ((exists req ar, In (RpcCommit req ar) log) -> _committed b' = true).
Proof.
  induction fuel as [|fuel IH]; intros commitOptions b b' log r H; [discriminate|].
  destruct (explicitTransaction commitOptions) as [tx|] eqn:Hx.
  - destruct commitOptions as [[t]|]; simpl in Hx; [|discriminate]. subst t.
    rewrite commit__explicit in H. injection H as H.
    pose proof (sendCommit_flag (Some tx) b) as Hf. rewrite H in Hf. exact Hf.
  - destruct (_shouldCreateTransaction firestore now) eqn:Hs.
    + rewrite commit__step in H by assumption.
      destruct (beginTransaction transport (beginRequest firestore)) as [resp|e].
      * destruct (commit_ firestore now transport fuel _ b) as [[[b1 log1] r1]|] eqn:E;
          [|discriminate].
        injection H as <- <- <-. destruct (IH _ _ _ _ _ E) as [H1 H2].
        split; [exact H1|]. intros (req & ar & [Habs|Hin]); [discriminate|]. eauto.
      * injection H as <- <- <-. split; [auto|].
        intros (req & ar & [Habs|[]]). discriminate.
    + rewrite commit__direct in H by assumption. injection H as H.
      pose proof (sendCommit_flag None b) as Hf. rewrite H in Hf. exact Hf.
Qed.

Lemma sendCommit_ignores_flag (tx : option (list Byte.byte)) (ws : list WriteOp)
    (c1 c2 : bool) :
  observe (Some (sendCommit firestore transport tx (mkBatch ws c1))) =
  observe (Some (sendCommit firestore transport tx (mkBatch ws c2))).
Proof.
  unfold sendCommit. simpl.
  destruct (buildWrites ws) as [ops [requestWrites|e]]; [|reflexivity].
  destruct (commitRpc transport _); reflexivity.
Qed.

(** [commit_] does not read the flag. *)
Lemma commit__ignores_flag (fuel : nat) :
  forall commitOptions ws c1 c2,
    observe (commit_ firestore now transport fuel commitOptions (mkBatch ws c1)) =
    observe (commit_ firestore now transport fuel commitOptions (mkBatch ws c2)).
Proof.
  induction fuel as [|fuel IH]; intros commitOptions ws c1 c2; [reflexivity|].
  destruct (explicitTransaction commitOptions) as [tx|] eqn:Hx.
  - destruct commitOptions as [[t]|]; simpl in Hx; [|discriminate]. subst t.
    rewrite !commit__explicit. apply sendCommit_ignores_flag.
  - destruct (_shouldCreateTransaction firestore now) eqn:Hs.
    + rewrite !commit__step by assumption.
      destruct (beginTransaction transport (beginRequest firestore)) as [resp|e];
        [|reflexivity].
      specialize (IH (Some (mkCommitOptions (Some (resp_transaction resp)))) ws c1 c2).
      destruct (commit_ firestore now transport fuel _ (mkBatch ws c1)) as [[[b1 l1] r1]|],
               (commit_ firestore now transport fuel _ (mkBatch ws c2)) as [[[b2 l2] r2]|];
        simpl in *; congruence.
    + rewrite !commit__direct by assumption. apply sendCommit_ignores_flag.
Qed.

End CommittedFlag.

Section AppendProperties.
Import WriteBatch Notions CommitFacts AppendFacts.

(** C7: an operation that raises an error leaves the batch as it was: no
    entry is added and the committed flag is untouched; an entry is added,
    one, only by a call that passed every check. *)
Theorem append_failure_leaves_batch_unchanged {C : Collaborators}
    (call : Append) (b b' : Batch) (r : Result unit) :
  runAppend call b = (b', r) ->
  match r with
  | Throw _ => b' = b
  | Ok _ => exists op, b' = mkBatch (_writes b ++ [op]) (_committed b)
  end.
Proof. apply runAppend_appendsOne. Qed.

Lemma append_failure_leaves_batch_unchanged_witness :
  runAppend (C := SpecModel.collaborators)
    (Create Examples.documentRef (VNumber (Finite 5))) newBatch =
    (newBatch, Throw (Error (Validate.customObjectMessage (ArgStr "data")
                               (VNumber (Finite 5)) None))) /\
  newBatch = newBatch.
Proof.
  split; [reflexivity|].
  exact (append_failure_leaves_batch_unchanged (C := SpecModel.collaborators)
           (Create Examples.documentRef (VNumber (Finite 5))) newBatch newBatch
           (Throw (Error (Validate.customObjectMessage (ArgStr "data")
                            (VNumber (Finite 5)) None)))
           eq_refl).
Defined.

(** C4: the committed flag only ever goes from false to true: the four
    operations that append leave it alone and [commit_] never clears it;
    [commit_] has set it whenever the commit RPC was sent, whether that RPC
    succeeds or fails; on a committed batch an operation whose arguments are
    otherwise valid (it succeeds on an open batch) throws the state error and
    changes nothing; and [commit_] itself does not read the flag: what it
    sends and returns is the same on a committed batch. *)
Theorem committed_flag_lifecycle {C : Collaborators}
    (firestore : Firestore) (now : Z) (transport : Transport) :
  (forall call b b' r, runAppend call b = (b', r) -> _committed b' = _committed b) /\
  (forall fuel commitOptions b b' log r,
     commit_ firestore now transport fuel commitOptions b = Some (b', log, r) ->
     (_committed b = true -> _committed b' = true) /\
     ((exists req ar, In (RpcCommit req ar) log) -> _committed b' = true)) /\
  (forall b, forallb hasEntry (_writes b) = true ->
     (_shouldCreateTransaction firestore now = true ->
      exists tx, beginTransaction transport (beginRequest firestore) = Ok tx) ->
     exists b' log r,
       commit firestore now transport b = Some (b', log, r) /\ _committed b' = true) /\
  (forall call b0 b0' b,
     runAppend call b0 = (b0', Ok tt) ->
     _committed b = true ->
     runAppend call b = (b, Throw notCommittedError)) /\
  (forall fuel commitOptions ws,
     observe (commit_ firestore now transport fuel commitOptions (mkBatch ws true)) =
     observe (commit_ firestore now transport fuel commitOptions (mkBatch ws false))).
Proof.
  split; [|split; [|split; [|split]]].
  - intros call b b' r H. exact (runAppend_keepsFlag call _ _ _ H).
  - intros fuel. apply commit__flag.
  - intros b Hall Hbegin. unfold commit.
    destruct (_shouldCreateTransaction firestore now) eqn:Hs.
    + rewrite commit__begin by (assumption || reflexivity).
      destruct (Hbegin eq_refl) as [tx ->].
      rewrite sendCommit_wellformed by assumption. simpl. eauto.
    + rewrite commit__direct by (assumption || reflexivity).
      rewrite sendCommit_wellformed by assumption. simpl. eauto.
  - intros call b0 b0' b. apply runAppend_after_commit.
  - intros fuel commitOptions ws. apply commit__ignores_flag.
Qed.

End AppendProperties.

Section CreateProperties.
Import WriteBatch Notions CommitFacts AppendFacts.

(** C2, as stated, fails: a [create] whose data holds only a transform
    sentinel queues an operation without a write entry. *)
Lemma create_transform_only_has_no_write :
  exists op,
    create (C := SpecModel.collaborators) Examples.documentRef
      (obj [("t", Examples.serverTimestamp)]) newBatch = (mkBatch [op] false, Ok tt) /\
    SpecModel.hasPlainValues (obj [("t", Examples.serverTimestamp)]) = false /\
    write op = None /\
    transform op <> None.
Proof.
  eexists. split; [vm_compute; reflexivity|].
  split; [reflexivity|]. split; [reflexivity | discriminate].
Qed.

(** C2, amended: a [create] that passes validation queues one operation,
    with the precondition [{exists: false}]; the operation has a transform
    entry exactly when the data contains transform sentinels, and a write
    entry exactly when the data contains a plain value or contains no
    transform sentinel (an empty document still sends a write, to assert
    creation); so it always has at least one entry, and a create of only
    transform sentinels sends the transform entry alone. *)
Theorem create_queues_write_unless_transform_only
    (documentRef data : JsValue) (b b' : Batch) :
  create (C := SpecModel.collaborators) documentRef data b = (b', Ok tt) ->
  exists op,
    b' = mkBatch (_writes b ++ [op]) false /\
    precondition op = Some (PExists false) /\
    (transform op <> None <-> SpecModel.hasTransforms data = true) /\
    (write op <> None <->
       SpecModel.hasPlainValues data = true \/ SpecModel.hasTransforms data = false) /\
    hasEntry op = true.
Proof.
  intros H. unfold create in H.
  apply bind_lift_ok in H as (u1 & E1 & H).
  apply bind_lift_ok in H as (u2 & E2 & H).
  unfold bind at 1 in H. unfold verifyNotCommitted in H.
  destruct (_committed b) eqn:Hc; [discriminate|].
  apply bind_lift_ok in H as (u3 & E3 & H).
  unfold push in H. injection H as <-. rewrite Hc.
  eexists. split; [reflexivity|]. simpl.
  unfold SpecModel.hasTransforms, SpecModel.hasPlainValues, hasEntry,
    SpecModel.Transform_toProto, SpecModel.Transform_isEmpty, SpecModel.Snapshot_isEmpty.
  simpl.
  destruct (SpecModel.transformsOf (SpecModel.documentLeaves data)),
           (SpecModel.plainOf (SpecModel.documentLeaves data)); simpl;
    repeat split; try congruence; try tauto; try discriminate;
    try (intros _; discriminate); try (intros [?|?]; discriminate); auto.
Qed.

Lemma create_queues_write_unless_transform_only_witness :
  create (C := SpecModel.collaborators) Examples.documentRef
    (obj [("a", VNumber (Finite 1))]) newBatch =
    (mkBatch [mkWriteOp
                (Some (mkIWrite
                         (Some (mkIDocument "projects/p/databases/d/documents/col/doc"
                                  [(["a"], VNumber (Finite 1))]))
                         None None None None))
                None (Some (PExists false))] false, Ok tt) /\
  exists op,
    precondition op = Some (PExists false) /\
    (write op <> None <->
       SpecModel.hasPlainValues (obj [("a", VNumber (Finite 1))]) = true \/
       SpecModel.hasTransforms (obj [("a", VNumber (Finite 1))]) = false).
Proof.
  split; [reflexivity|].
  destruct (create_queues_write_unless_transform_only Examples.documentRef
              (obj [("a", VNumber (Finite 1))]) newBatch _ eq_refl)
    as (op & _ & Hp & _ & Hw & _).
  exists op. split; assumption.
Defined.

End CreateProperties.

(* ================================================================== *)
(** * Properties of validateUpdate *)
(* ================================================================== *)

Module PathOrder.
Import FieldPath Notions.

Section Lex.
Variable A : Type.
Variable cmp : A -> A -> comparison.
Hypothesis cmp_eq : forall a b, cmp a b = Eq <-> a = b.
Hypothesis cmp_antisym : forall a b, cmp b a = CompOpp (cmp a b).
Hypothesis cmp_trans : forall a b c, cmp a b = Lt -> cmp b c = Lt -> cmp a c = Lt.

Lemma lex_eq (l : list A) : forall r, lexCompare cmp l r = Eq <-> l = r.
Proof.
  induction l as [|a l IH]; intros [|b r]; simpl; try (split; [discriminate|discriminate]).
  - tauto.
  - destruct (cmp a b) eqn:E.
    + apply cmp_eq in E as ->. rewrite IH. split; congruence.
    + split; [discriminate|]. intros H. injection H as -> _.
      assert (cmp b b = Eq) by now apply cmp_eq. congruence.
    + split; [discriminate|]. intros H. injection H as -> _.
      assert (cmp b b = Eq) by now apply cmp_eq. congruence.
Qed.

Lemma lex_antisym (l : list A) : forall r, lexCompare cmp r l = CompOpp (lexCompare cmp l r).
Proof.
  induction l as [|a l IH]; intros [|b r]; simpl; try reflexivity.
  rewrite (cmp_antisym a b). destruct (cmp a b); simpl; auto.
Qed.

Lemma lex_trans (l : list A) :
  forall m r, lexCompare cmp l m = Lt -> lexCompare cmp m r = Lt -> lexCompare cmp l r = Lt.
Proof.
  induction l as [|a l IH]; intros [|b m] [|c r]; simpl; try discriminate; auto.
  destruct (cmp a b) eqn:Eab; try discriminate.
  - apply cmp_eq in Eab as ->. destruct (cmp b c); try discriminate; auto.
    apply IH.
  - intros _. destruct (cmp b c) eqn:Ebc; try discriminate.
    + apply cmp_eq in Ebc as <-. now rewrite Eab.
    + intros _. now rewrite (cmp_trans _ _ _ Eab Ebc).
Qed.

End Lex.

Lemma ascii_compare_eq (a b : ascii) : Ascii.compare a b = Eq <-> a = b.
Proof.
  split; [apply Ascii.compare_eq_iff|]. intros ->. apply N.compare_refl.
Qed.

Lemma ascii_compare_antisym (a b : ascii) :
  Ascii.compare b a = CompOpp (Ascii.compare a b).
Proof. apply Ascii.compare_antisym. Qed.

Lemma ascii_compare_trans (a b c : ascii) :
  Ascii.compare a b = Lt -> Ascii.compare b c = Lt -> Ascii.compare a c = Lt.
Proof.
  unfold Ascii.compare. rewrite !N.compare_lt_iff. apply N.lt_trans.
Qed.

Lemma compareSegment_eq (a b : string) : compareSegment a b = Eq <-> a = b.
Proof.
  unfold compareSegment. rewrite (lex_eq _ _ ascii_compare_eq). split.
  - intros H. rewrite <- (string_of_list_ascii_of_string a), H.
    apply string_of_list_ascii_of_string.
  - now intros ->.
Qed.

Lemma compareSegment_antisym (a b : string) :
  compareSegment b a = CompOpp (compareSegment a b).
Proof. apply (lex_antisym _ _ ascii_compare_antisym). Qed.

Lemma compareSegment_trans (a b c : string) :
  compareSegment a b = Lt -> compareSegment b c = Lt -> compareSegment a c = Lt.
Proof.
  apply (lex_trans _ _ ascii_compare_eq ascii_compare_trans).
Qed.

Lemma path_compare_eq (p q : t) : lexCompare compareSegment p q = Eq <-> p = q.
Proof. apply (lex_eq _ _ compareSegment_eq). Qed.

Lemma path_compare_antisym (p q : t) :
  lexCompare compareSegment q p = CompOpp (lexCompare compareSegment p q).
Proof. apply (lex_antisym _ _ compareSegment_antisym). Qed.

Lemma ple_refl (p : t) : ple p p.
Proof.
  unfold ple. assert (H : lexCompare compareSegment p p = Eq) by now apply path_compare_eq.
  rewrite H. discriminate.
Qed.

Lemma ple_trans (p q r : t) : ple p q -> ple q r -> ple p r.
Proof.
  unfold ple. intros Hpq Hqr.
  destruct (lexCompare compareSegment p q) eqn:E1; try congruence.
  - apply path_compare_eq in E1 as ->. exact Hqr.
  - destruct (lexCompare compareSegment q r) eqn:E2; try congruence.
    + apply path_compare_eq in E2 as <-. rewrite E1. discriminate.
    + rewrite (lex_trans _ _ compareSegment_eq compareSegment_trans _ _ _ E1 E2).
      discriminate.
Qed.

Lemma ple_antisym (p q : t) : ple p q -> ple q p -> p = q.
Proof.
  unfold ple. intros Hpq Hqp. rewrite (path_compare_antisym p q) in Hqp.
  destruct (lexCompare compareSegment p q) eqn:E; simpl in *; try congruence.
  now apply path_compare_eq.
Qed.

(** The comparator of the sort says "greater" exactly when [q] sorts
    strictly before [p]. *)
Lemma compareTo_positive (p q : t) :
  (0 <? compareTo p q)%Z = true <-> lexCompare compareSegment p q = Gt.
Proof.
  unfold compareTo. destruct (lexCompare compareSegment p q); cbv;
    split; intros H; first [reflexivity | discriminate H].
Qed.

Lemma compareTo_not_positive (p q : t) : (0 <? compareTo p q)%Z = false <-> ple p q.
Proof.
  unfold ple. rewrite <- compareTo_positive.
  destruct (0 <? compareTo p q)%Z; split; congruence.
Qed.

Lemma compareTo_positive_ple (p q : t) : (0 <? compareTo p q)%Z = true -> ple q p.
Proof.
  rewrite compareTo_positive. unfold ple. rewrite (path_compare_antisym p q).
  intros ->. discriminate.
Qed.

Lemma isPrefixOf_refl (p : t) : isPrefixOf p p = true.
Proof. induction p as [|a p IH]; simpl; [reflexivity|]. now rewrite String.eqb_refl. Qed.

Lemma isPrefixOf_ple (p : t) : forall q, isPrefixOf p q = true -> ple p q.
Proof.
  unfold ple. induction p as [|a p IH]; intros [|b q]; simpl; try discriminate.
  intros H. apply andb_prop in H as [Hab Hp]. apply String.eqb_eq in Hab as ->.
  assert (E : compareSegment b b = Eq) by now apply compareSegment_eq.
  rewrite E. now apply IH.
Qed.

(** A path between a path and one of its extensions extends it too. *)
Lemma isPrefixOf_between (p : t) :
  forall r q, ple p r -> ple r q -> isPrefixOf p q = true -> isPrefixOf p r = true.
Proof.
  unfold ple. induction p as [|a p IH]; intros r q Hpr Hrq Hpq; [reflexivity|].
  destruct q as [|a' q]; [discriminate|]. simpl in Hpq.
  apply andb_prop in Hpq as [Haa Hpq]. apply String.eqb_eq in Haa as <-.
  destruct r as [|b r]; simpl in *; [congruence|].
  rewrite (compareSegment_antisym a b) in Hrq.
  destruct (compareSegment a b) eqn:E; simpl in *; try congruence.
  apply compareSegment_eq in E as <-. rewrite String.eqb_refl. simpl.
  now apply (IH r q).
Qed.

End PathOrder.

Module UpdateFacts.
Import WriteBatch Notions PathOrder.

Lemma related_sym (p q : FieldPath.t) : related p q -> related q p.
Proof. unfold related. tauto. Qed.

Lemma Conflict_Permutation (l l' : list FieldPath.t) :
  Permutation l l' -> Conflict l -> Conflict l'.
Proof.
  induction 1 as [|x l l' Hperm IH|x y l|l l' l'' _ IH1 _ IH2]; intros Hc.
  - exact Hc.
  - inversion Hc as [p q l0 Hin Hrel|p l0 Hc']; subst.
    + apply (conflict_here x q); [|exact Hrel]. now apply (Permutation_in _ Hperm).
    + apply conflict_later. auto.
  - inversion Hc as [p q l0 Hin Hrel|p l0 Hc']; subst.
    + destruct Hin as [<-|Hin].
      * apply (conflict_here x y); [now left | now apply related_sym].
      * apply conflict_later. now apply (conflict_here y q).
    + inversion Hc' as [p q l0 Hin Hrel|p l0 Hc'']; subst.
      * apply (conflict_here x q); [now right | exact Hrel].
      * now do 2 apply conflict_later.
  - auto.
Qed.

(** The same, by positions: entries [i <> j] with the path at [i] a prefix
    of the path at [j]. *)
Lemma Conflict_positions (l : list FieldPath.t) :
  Conflict l <->
  exists i j p q, i <> j /\ nth_error l i = Some p /\ nth_error l j = Some q /\
                  FieldPath.isPrefixOf p q = true.
Proof.
  split.
  - induction 1 as [p q l Hin Hrel|p l _ IH].
    + apply In_nth_error in Hin as [n Hn]. destruct Hrel as [H|H].
      * exists 0, (S n), p, q. repeat split; auto.
      * exists (S n), 0, q, p. repeat split; auto.
    + destruct IH as (i & j & p' & q' & Hij & Hi & Hj & Hpre).
      exists (S i), (S j), p', q'. repeat split; auto.
  - intros (i & j & p & q & Hij & Hi & Hj & Hpre). revert i j Hij Hi Hj.
    induction l as [|x l IH]; intros i j Hij Hi Hj.
    + destruct i; discriminate.
    + destruct i as [|i], j as [|j]; simpl in *.
      * congruence.
      * injection Hi as ->. apply (conflict_here p q); [|now left].
        now apply nth_error_In in Hj.
      * injection Hj as ->. apply (conflict_here q p); [|now right].
        now apply nth_error_In in Hi.
      * apply conflict_later. apply (IH i j); auto.
Qed.

(** ** The sort *)

Lemma insertSorted_Permutation (p : FieldPath.t) (l : list FieldPath.t) :
  Permutation (p :: l) (insertSorted p l).
Proof.
  induction l as [|q l IH]; simpl; [reflexivity|].
  destruct (0 <? FieldPath.compareTo p q)%Z; [|reflexivity].
  rewrite perm_swap. now apply perm_skip.
Qed.

Lemma sortFields_Permutation (l : list FieldPath.t) : Permutation l (sortFields l).
Proof.
  unfold sortFields. induction l as [|p l IH]; simpl; [reflexivity|].
  rewrite <- insertSorted_Permutation. now apply perm_skip.
Qed.

Lemma insertSorted_HdRel (q p : FieldPath.t) (l : list FieldPath.t) :
  HdRel ple q l -> ple q p -> HdRel ple q (insertSorted p l).
Proof.
  intros Hhd Hqp. destruct l as [|r l]; simpl; [now constructor|].
  destruct (0 <? FieldPath.compareTo p r)%Z.
  - inversion Hhd; subst. now constructor.
  - now constructor.
Qed.

Lemma insertSorted_Sorted (p : FieldPath.t) (l : list FieldPath.t) :
  Sorted ple l -> Sorted ple (insertSorted p l).
Proof.
  induction l as [|q l IH]; intros Hs; simpl.
  - repeat constructor.
  - inversion Hs as [|? ? Hl Hhd]; subst.
    destruct (0 <? FieldPath.compareTo p q)%Z eqn:E.
    + constructor; [auto|].
      apply insertSorted_HdRel; [exact Hhd | now apply compareTo_positive_ple].
    + constructor; [exact Hs|]. constructor. now apply compareTo_not_positive.
Qed.

Lemma sortFields_Sorted (l : list FieldPath.t) : Sorted ple (sortFields l).
Proof.
  unfold sortFields. induction l as [|p l IH]; simpl; [constructor|].
  now apply insertSorted_Sorted.
Qed.

Lemma Sorted_ple_strongly (l : list FieldPath.t) : Sorted ple l -> StronglySorted ple l.
Proof.
  apply Sorted_StronglySorted. intros p q r. apply ple_trans.
Qed.

(** ** The scan *)

Lemma scanAdjacent_cases (arg : ArgName) (l : list FieldPath.t) :
  scanAdjacent arg l = Ok tt \/
  exists field, In field l /\ scanAdjacent arg l = Throw (multipleTimesError arg field).
Proof.
  induction l as [|p [|q l] IH]; simpl; auto.
  destruct (FieldPath.isPrefixOf p q).
  - right. exists p. auto.
  - destruct IH as [IH|(f & Hin & IH)]; [now left|].
    right. exists f. split; [now right | exact IH].
Qed.

(** A scan that throws has found two neighbours in conflict. *)
Lemma scanAdjacent_throws_Conflict (arg : ArgName) (l : list FieldPath.t) (e : JsError) :
  scanAdjacent arg l = Throw e -> Conflict l.
Proof.
  induction l as [|p [|q l] IH]; simpl; try discriminate.
  destruct (FieldPath.isPrefixOf p q) eqn:E.
  - intros _. apply (conflict_here p q); [now left | now left].
  - intros H. apply conflict_later. auto.
Qed.

(** On a sorted list every conflict shows between two neighbours. *)
Lemma scanAdjacent_finds_Conflict (arg : ArgName) (l : list FieldPath.t) :
  StronglySorted ple l -> Conflict l -> exists e, scanAdjacent arg l = Throw e.
Proof.
  intros Hs Hc. induction Hc as [p q l Hin Hrel|p l Hc IH].
  - apply StronglySorted_inv in Hs as [Hl Hall].
    rewrite Forall_forall in Hall.
    assert (Hpq : FieldPath.isPrefixOf p q = true).
    { destruct Hrel as [H|H]; [exact H|].
      assert (q = p) as -> by (apply ple_antisym; [now apply isPrefixOf_ple | now apply Hall]).
      apply isPrefixOf_refl. }
    destruct l as [|r l]; [destruct Hin|].
    assert (Hrq : ple r q).
    { destruct Hin as [->|Hin]; [apply ple_refl|].
      apply StronglySorted_inv in Hl as [_ Hr]. rewrite Forall_forall in Hr. now apply Hr. }
    assert (Hpr : FieldPath.isPrefixOf p r = true).
    { apply (isPrefixOf_between p r q); auto. apply Hall. now left. }
    simpl. rewrite Hpr. eauto.
  - apply StronglySorted_inv in Hs as [Hl _].
    destruct (IH Hl) as [e He].
    destruct l as [|r l]; [discriminate|].
    simpl. destruct (FieldPath.isPrefixOf p r); [eauto|].
    simpl in He. eauto.
Qed.

Lemma scanAdjacent_sorted_iff (arg : ArgName) (l : list FieldPath.t) :
  Sorted ple l -> ((exists e, scanAdjacent arg l = Throw e) <-> Conflict l).
Proof.
  intros Hs. split.
  - intros [e He]. now apply (scanAdjacent_throws_Conflict arg l e).
  - apply scanAdjacent_finds_Conflict. now apply Sorted_ple_strongly.
Qed.

End UpdateFacts.

Section UpdateProperties.
Import WriteBatch Notions PathOrder UpdateFacts.

(** C5: [validateUpdate] raises the "specified multiple times" error, for
    one of the supplied fields, exactly when two different entries of the
    update map carry paths of which one is a prefix of (or equal to) the
    other; without such a pair it succeeds.  The scan of neighbours finds
    every such pair on any sorted arrangement of the paths. *)
Theorem validateUpdate_detects_prefix_conflicts (arg : ArgName) (data : UpdateMap) :
  let conflict :=
    exists i j p q, i <> j /\
      nth_error (map fst data) i = Some p /\ nth_error (map fst data) j = Some q /\
      FieldPath.isPrefixOf p q = true in
  ((exists e, validateUpdate arg data = Throw e) <-> conflict) /\
  (conflict ->
     exists field, In field (map fst data) /\
       validateUpdate arg data = Throw (multipleTimesError arg field)) /\
  (~ conflict -> validateUpdate arg data = Ok tt) /\
  (forall sorted, Permutation (map fst data) sorted -> Sorted ple sorted ->
     ((exists e, scanAdjacent arg sorted = Throw e) <-> conflict)).
Proof.
  intros conflict.
  assert (Hconf : conflict <-> Conflict (map fst data)).
  { symmetry. apply Conflict_positions. }
  assert (Hany : forall sorted, Permutation (map fst data) sorted -> Sorted ple sorted ->
            ((exists e, scanAdjacent arg sorted = Throw e) <-> conflict)).
  { intros sorted Hperm Hs. rewrite (scanAdjacent_sorted_iff arg sorted Hs), Hconf.
    split; apply Conflict_Permutation; [now symmetry | exact Hperm]. }
  assert (Hmain : (exists e, validateUpdate arg data = Throw e) <-> conflict).
  { unfold validateUpdate. apply Hany; [apply sortFields_Permutation | apply sortFields_Sorted]. }
  split; [exact Hmain|]. split; [|split; [|exact Hany]].
  - intros Hc. apply Hmain in Hc as [e He]. unfold validateUpdate in *.
    destruct (scanAdjacent_cases arg (sortFields (map fst data))) as [Hok|(f & Hin & Hf)].
    + congruence.
    + exists f. split; [|exact Hf].
      apply (Permutation_in _ (Permutation_sym (sortFields_Permutation _)) Hin).
  - intros Hn. unfold validateUpdate in *.
    destruct (scanAdjacent_cases arg (sortFields (map fst data))) as [Hok|(f & Hin & Hf)].
    + exact Hok.
    + exfalso. apply Hn, Hmain. eauto.
Qed.

(** The example of the spec: the update map of [update(ref, 'a.b', 1, 'a', 2)]
    is rejected, [a] being a prefix of [a.b]. *)
Lemma validateUpdate_detects_prefix_conflicts_witness :
  validateUpdate (ArgStr "dataOrField")
    [(["a"; "b"], VNumber (Finite 1)); (["a"], VNumber (Finite 2))] =
    Throw (multipleTimesError (ArgStr "dataOrField") ["a"]) /\
  exists field,
    validateUpdate (ArgStr "dataOrField")
      [(["a"; "b"], VNumber (Finite 1)); (["a"], VNumber (Finite 2))] =
      Throw (multipleTimesError (ArgStr "dataOrField") field).
Proof.
  split; [reflexivity|].
  destruct (proj1 (proj2 (validateUpdate_detects_prefix_conflicts (ArgStr "dataOrField")
              [(["a"; "b"], VNumber (Finite 1)); (["a"], VNumber (Finite 2))])))
    as (field & _ & H).
  - exists 1, 0, ["a"], ["a"; "b"]. repeat split; auto.
  - exists field. exact H.
Defined.

End UpdateProperties.

(* ================================================================== *)
(** * The examples of the specification *)
(* ================================================================== *)

Section SpecExamples.
Import WriteBatch Notions CommitFacts.

(** A [set] with one plain field and one transform field sends two wire
    entries, the write first, and yields one result, with the update time
    reported for the transform entry. *)
Example set_with_transform_round_trip :
  List.length (_writes Examples.batchWithTransform) = 1 /\
  List.length (wireEntries (_writes Examples.batchWithTransform)) = 2 /\
  exists b' request,
    commit (C := SpecModel.collaborators) (mkFirestore "projects/p/databases/d" false 0) 0
      (Examples.transport (Examples.response [1; 2]%Z)) Examples.batchWithTransform =
      Some (b', [RpcCommit request false], Ok [mkWriteResult (mkTimestamp 2 0)]) /\
    option_map (map w_transform) (writes request) =
      Some [None; Some (mkIDocumentTransform "projects/p/databases/d/documents/col/doc"
                          [(["t"], "ServerTimestampTransform")])].
Proof.
  split; [reflexivity|]. split; [reflexivity|].
  do 2 eexists. split; [vm_compute; reflexivity | reflexivity].
Qed.

Lemma commit_returns_one_result_per_operation_witness :
  forallb hasEntry (_writes Examples.batchWithTransform) = true /\
  (forall tx,
     commitRpc (Examples.transport (Examples.response [1; 2]%Z))
       (commitRequest Examples.firestore (_writes Examples.batchWithTransform) tx) =
       Ok (Examples.response [1; 2]%Z)) /\
  List.length [mkIWriteResult (Some (mkITimestamp 1 0)); mkIWriteResult (Some (mkITimestamp 2 0))] =
    List.length (wireEntries (_writes Examples.batchWithTransform)) /\
  exists b' log results,
    commit (C := SpecModel.collaborators) Examples.firestore 0
      (Examples.transport (Examples.response [1; 2]%Z)) Examples.batchWithTransform =
      Some (b', log, Ok results) /\
    List.length results = List.length (_writes Examples.batchWithTransform).
Proof.
  split; [reflexivity|]. split; [reflexivity|]. split; [reflexivity|].
  destruct (commit_returns_one_result_per_operation (C := SpecModel.collaborators)
              Examples.firestore 0 (Examples.transport (Examples.response [1; 2]%Z))
              Examples.batchWithTransform (Examples.response [1; 2]%Z)
              [mkIWriteResult (Some (mkITimestamp 1 0)); mkIWriteResult (Some (mkITimestamp 2 0))]
              eq_refl (fun _ => ex_intro _ _ eq_refl) (fun _ => eq_refl) eq_refl eq_refl)
    as (b' & log & results & Hrun & Hlen & _).
  exists b', log, results. split; assumption.
Defined.

(** A client idle for 111 s begins a transaction first; after 10 s it
    does not. *)
Example idle_heuristic :
  _shouldCreateTransaction (mkFirestore "db" true (1000000 - 111000)) 1000000 = true /\
  _shouldCreateTransaction (mkFirestore "db" true (1000000 - 10000)) 1000000 = false /\
  _shouldCreateTransaction (mkFirestore "db" true (1000000 - 110000)) 1000000 = false /\
  _shouldCreateTransaction (mkFirestore "db" false 0) 1000000 = false.
Proof. repeat split. Qed.

Lemma commit_begins_transaction_iff_idle_witness :
  exists b' log r,
    commit (C := SpecModel.collaborators) (mkFirestore "db" true (1000000 - 111000)) 1000000
      (Examples.transport (Examples.response [])) newBatch = Some (b', log, r) /\
    exists req ar, In (RpcBeginTransaction req ar) log.
Proof.
  destruct (commit_begins_transaction_iff_idle (C := SpecModel.collaborators)
              (mkFirestore "db" true (1000000 - 111000)) 1000000
              (Examples.transport (Examples.response [])) newBatch)
    as (b' & log & r & Hrun & Hiff & _).
  exists b', log, r. split; [exact Hrun|].
  apply Hiff. split; [reflexivity|]. right. reflexivity.
Defined.

Lemma commit_empty_batch_witness :
  isEmpty newBatch = true /\
  (exists resp,
     beginTransaction (Examples.transport (mkCommitResponse (mkITimestamp 100 0) None))
       (beginRequest Examples.firestore) = Ok resp) /\
  exists b' before req,
    commit (C := SpecModel.collaborators) Examples.firestore 0
      (Examples.transport (mkCommitResponse (mkITimestamp 100 0) None)) newBatch =
      Some (b', before ++ [RpcCommit req false], Ok []) /\
    writes req = Some [].
Proof.
  split; [reflexivity|]. split; [eexists; reflexivity|].
  destruct (commit_empty_batch (C := SpecModel.collaborators) Examples.firestore 0
              (Examples.transport (mkCommitResponse (mkITimestamp 100 0) None)) newBatch
              eq_refl (fun _ => ex_intro _ _ eq_refl) (fun _ _ => ex_intro _ _ eq_refl))
    as (b' & before & req & Hrun & Hw & _).
  exists b', before, req. split; assumption.
Defined.

(** After a commit, [create] with valid arguments throws the state error. *)
Lemma committed_flag_lifecycle_witness :
  create (C := SpecModel.collaborators) Examples.documentRef (obj []) newBatch =
    (mkBatch [mkWriteOp
                (Some (mkIWrite
                         (Some (mkIDocument "projects/p/databases/d/documents/col/doc" []))
                         None None None None))
                None (Some (PExists false))] false, Ok tt) /\
  _committed (mkBatch [] true) = true /\
  create (C := SpecModel.collaborators) Examples.documentRef (obj []) (mkBatch [] true) =
    (mkBatch [] true, Throw notCommittedError).
Proof.
  split; [reflexivity|]. split; [reflexivity|].
  pose proof (committed_flag_lifecycle (C := SpecModel.collaborators) Examples.firestore 0
                (Examples.transport (Examples.response []))) as (_ & _ & _ & Hguard & _).
  exact (Hguard (Create Examples.documentRef (obj [])) newBatch _ (mkBatch [] true)
           eq_refl eq_refl).
Defined.

(** [update(ref, 'a.b', 1, 'a', 2)] fails: [a] is a prefix of [a.b]. *)
Example update_ambiguous_fields :
  update (C := SpecModel.collaborators) Nat.eqb
    [Examples.documentRef; VString "a.b"; VNumber (Finite 1); VString "a"; VNumber (Finite 2)]
    newBatch =
    (newBatch, Throw (multipleTimesError (ArgStr "dataOrField") ["a"])).
Proof. reflexivity. Qed.

(** [update(ref, {})] fails: at least one field must be updated. *)
Example update_empty_map :
  update (C := SpecModel.collaborators) Nat.eqb
    [Examples.documentRef; obj []] newBatch =
    (newBatch,
     Throw (Error (argumentError ++ [Txt " "; Txt "At least one field must be updated."]))).
Proof. reflexivity. Qed.

(** [set(ref, {a: 1}, {merge: true, mergeFields: ['a']})] fails: the two
    options exclude each other. *)
Example set_merge_and_mergeFields :
  set (C := SpecModel.collaborators) Examples.documentRef (obj [("a", VNumber (Finite 1))])
    (obj [("merge", VBoolean true); ("mergeFields", VArray [VString "a"])]) newBatch =
    (newBatch,
     Throw (Error (createErrorDescription (ArgStr "options") "set() option" ++
                   [Txt " You cannot specify both "; DQ; Txt "merge"; DQ; Txt " and ";
                    DQ; Txt "mergeFields"; DQ; Txt "."]))).
Proof. reflexivity. Qed.

(** A [create] without transforms sends one wire entry, with the
    precondition attached, and yields one result. *)
Example create_round_trip :
  exists b' w,
    commit (C := SpecModel.collaborators) (mkFirestore "projects/p/databases/d" false 0) 0
      (Examples.transport (Examples.response [7]%Z))
      (fst (create (C := SpecModel.collaborators) Examples.documentRef
              (obj [("a", VNumber (Finite 1))]) newBatch)) =
      Some (b', [RpcCommit (mkICommitRequest "projects/p/databases/d" (Some [w]) None) false],
            Ok [mkWriteResult (mkTimestamp 7 0)]) /\
    currentDocument w = Some (PExists false) /\
    _committed b' = true.
Proof. do 2 eexists. split; [vm_compute; reflexivity|]. split; reflexivity. Qed.

End SpecExamples.

(* ================================================================== *)
(** * Further properties of the validation layer *)
(* ================================================================== *)

Section ValidatorFacts.

(** A rational is left unchanged by [% 1] taking it to zero exactly when it
    is an integer. *)
Lemma num_mod1_zero_iff (q : Q) :
  num_eq (num_mod1 (Finite q)) (Finite 0) = true <-> exists z : Z, (q == inject_Z z)%Q.
Proof.
  simpl. rewrite Qeq_bool_iff. split.
  - intros H. exists (Qtrunc q). lra.
  - intros [z Hz].
    assert (Ht : Qtrunc q = z).
    { unfold Qtrunc. destruct (Qle_bool 0 q).
      - rewrite (Qfloor_comp _ _ Hz). apply Qfloor_Z.
      - rewrite (Qceiling_comp _ _ Hz). apply Qceiling_Z. }
    rewrite Ht. lra.
Qed.

Lemma is_integer_iff (value : JsValue) :
  String.eqb (typeof value) "number" && is_integer value = true <->
  exists q, value = VNumber (Finite q) /\ exists z : Z, (q == inject_Z z)%Q.
Proof.
  split.
  - destruct value as [| | |n| | | | |]; simpl; try discriminate.
    destruct n as [| |q|]; simpl; try discriminate.
    intros H. exists q. split; [reflexivity|]. now apply num_mod1_zero_iff.
  - intros (q & -> & Hz). apply num_mod1_zero_iff in Hz. simpl in *. exact Hz.
Qed.

Lemma propertyValueLoop_spec (val : JsValue) (values : list string) :
  forall acc,
    (propertyValueLoop val values acc = None <->
       exists s, val = VString s /\ In s values) /\
    (forall d, propertyValueLoop val values acc = Some d -> d = acc ++ values).
Proof.
  induction values as [|allowed rest IH]; intros acc; simpl.
  - split.
    + split; [discriminate | intros (s & _ & [])].
    + intros d H. injection H as <-. now rewrite app_nil_r.
  - destruct (string_strict_eq allowed val) eqn:E.
    + split; [|discriminate]. split; [|reflexivity]. intros _.
      destruct val; simpl in E; try discriminate.
      apply String.eqb_eq in E as <-. exists allowed. auto.
    + destruct (IH (acc ++ [allowed])) as [IH1 IH2]. split.
      * rewrite IH1. split.
        -- intros (s & Hs & Hin). exists s. auto.
        -- intros (s & -> & [<-|Hin]).
           ++ simpl in E. now rewrite String.eqb_refl in E.
           ++ exists s. auto.
      * intros d H. rewrite (IH2 d H), <- app_assoc. reflexivity.
Qed.

End ValidatorFacts.

(** X1: [validateInteger] accepts exactly the finite integers that are
    neither below [minValue] nor above [maxValue], where a missing bound is
    negative, resp. positive, infinity (and an absent optional argument);
    every other value without [optional] is refused as "not a valid integer"
    or out of range.  The copy of part_000, written with [isNaN] and [% 1],
    decides the same on every input. *)
Theorem validateInteger_accepts_integers_in_range
    (arg : ArgName) (value : JsValue) (options : option ValidationOptions) :
  let min := match options with
             | Some o => match minValue o with Some m => m | None => NegInfinity end
             | None => NegInfinity
             end in
  let max := match options with
             | Some o => match maxValue o with Some m => m | None => PosInfinity end
             | None => PosInfinity
             end in
  Part000.validateInteger arg value options = Validate.validateInteger arg value options /\
  (Validate.validateInteger arg value options = Ok tt <->
     isOptional value options = true \/
     exists q, value = VNumber (Finite q) /\ (exists z : Z, (q == inject_Z z)%Q) /\
               num_lt (Finite q) min = false /\ num_gt (Finite q) max = false) /\
  (options = None ->
     (Validate.validateInteger arg value options = Ok tt <->
      exists q, value = VNumber (Finite q) /\ exists z : Z, (q == inject_Z z)%Q)).
Proof.
  intros min max.
  assert (Hcopies : Part000.validateInteger arg value options =
                    Validate.validateInteger arg value options).
  { unfold Part000.validateInteger, Validate.validateInteger.
    destruct (isOptional value options); simpl; [reflexivity|].
    destruct value as [| | |n| | | | |]; simpl; try reflexivity.
    destruct n; reflexivity. }
  assert (Hmain : Validate.validateInteger arg value options = Ok tt <->
     isOptional value options = true \/
     exists q, value = VNumber (Finite q) /\ (exists z : Z, (q == inject_Z z)%Q) /\
               num_lt (Finite q) min = false /\ num_gt (Finite q) max = false).
  { unfold Validate.validateInteger. fold min max. clearbody min max.
    destruct (isOptional value options) eqn:Hopt; cbn [negb]; [tauto|].
    pose proof (is_integer_iff value) as Hint.
    destruct (String.eqb (typeof value) "number" && is_integer value) eqn:E.
    - destruct (proj1 Hint eq_refl) as (q & Hq & Hz).
      apply andb_prop in E as [Et Ei]. rewrite Et, Ei. cbn [negb orb]. subst value.
      cbn [asNumber].
      destruct (num_lt (Finite q) min) eqn:E1; cbn [orb].
      + split; [discriminate|].
        intros [H|(q' & Hq' & _ & H1 & _)]; [discriminate|].
        injection Hq' as <-. congruence.
      + destruct (num_gt (Finite q) max) eqn:E2; cbn [orb].
        * split; [discriminate|].
          intros [H|(q' & Hq' & _ & _ & H2)]; [discriminate|].
          injection Hq' as <-. congruence.
        * split; [|reflexivity]. intros _. right. exists q. auto.
    - assert (Hbad : negb (String.eqb (typeof value) "number") || negb (is_integer value) = true).
      { destruct (String.eqb (typeof value) "number"), (is_integer value);
          simpl in *; congruence. }
      rewrite Hbad. split; [discriminate|].
      intros [H|(q & Hq & Hz & _)]; [discriminate|].
      assert (Habs : false = true) by (apply Hint; eauto). discriminate Habs. }
  split; [exact Hcopies|]. split; [exact Hmain|].
  intros ->. rewrite Hmain. simpl. split.
  - intros [H|(q & Hq & Hz & _)]; [|eauto].
    unfold isOptional in H. rewrite andb_false_r in H. discriminate.
  - intros (q & Hq & Hz). right. exists q. unfold num_gt. simpl. auto.
Qed.

(** X2: an absent argument ([undefined]) passes every validator of both
    copies when the options say [optional: true], whatever else they say. *)
Theorem absent_optional_argument_passes
    (arg : ArgName) (o : ValidationOptions) (values : list string) :
  optional o = Some true ->
  Validate.validateFunction arg VUndefined (Some o) = Ok tt /\
  Validate.validateObject arg VUndefined (Some o) = Ok tt /\
  Validate.validateNumber arg VUndefined (Some o) = Ok tt /\
  Validate.validateInteger arg VUndefined (Some o) = Ok tt /\
  Part000.validateFunction arg VUndefined (Some o) = Ok tt /\
  Part000.validateObject arg VUndefined (Some o) = Ok tt /\
  Part000.validateNumber arg VUndefined (Some o) = Ok tt /\
  Part000.validateInteger arg VUndefined (Some o) = Ok tt /\
  validateString arg VUndefined (Some o) = Ok tt /\
  validateBoolean arg VUndefined (Some o) = Ok tt /\
  validatePropertyValue arg VUndefined values (Some o) = Ok tt.
Proof.
  intros Ho.
  unfold Validate.validateFunction, Validate.validateObject, Validate.validateNumber,
    Validate.validateInteger, Part000.validateFunction, Part000.validateObject,
    Part000.validateNumber, Part000.validateInteger, validateString, validateBoolean,
    validatePropertyValue, isOptional.
  rewrite Ho. simpl. repeat split.
Qed.

Lemma absent_optional_argument_passes_witness :
  optional (mkOptions (Some true) (Some (Finite 1)) None) = Some true /\
  Validate.validateInteger (ArgStr "n") VUndefined
    (Some (mkOptions (Some true) (Some (Finite 1)) None)) = Ok tt.
Proof.
  split; [reflexivity|].
  exact (proj1 (proj2 (proj2 (proj2
    (absent_optional_argument_passes (ArgStr "n")
       (mkOptions (Some true) (Some (Finite 1)) None) [] eq_refl))))).
Defined.

(** X3: without [optional: true] an absent argument is refused by every
    validator of validate.ts, and a value that is present is checked as if
    the options did not mention [optional]. *)
Theorem required_argument_is_checked
    (arg : ArgName) (value : JsValue) (options : option ValidationOptions)
    (values : list string) :
  (isOptional VUndefined options = false ->
   Validate.validateFunction arg VUndefined options =
     Throw (Error (createErrorDescription arg "function")) /\
   Validate.validateObject arg VUndefined options =
     Throw (Error (createErrorDescription arg "object")) /\
   Validate.validateNumber arg VUndefined options =
     Throw (Error (createErrorDescription arg "number")) /\
   Validate.validateInteger arg VUndefined options =
     Throw (Error (createErrorDescription arg "integer")) /\
   validateString arg VUndefined options =
     Throw (Error (createErrorDescription arg "string")) /\
   validateBoolean arg VUndefined options =
     Throw (Error (createErrorDescription arg "boolean")) /\
   validatePropertyValue arg VUndefined values options =
     Throw (Error (invalidValueMessage arg values))) /\
  (value <> VUndefined ->
   Validate.validateFunction arg value options = Validate.validateFunction arg value None /\
   Validate.validateObject arg value options = Validate.validateObject arg value None /\
   validateString arg value options = validateString arg value None /\
   validateBoolean arg value options = validateBoolean arg value None /\
   validatePropertyValue arg value values options =
     validatePropertyValue arg value values None).
Proof.
  split.
  - intros H.
    unfold Validate.validateFunction, Validate.validateObject, Validate.validateNumber,
      Validate.validateInteger, validateString, validateBoolean, validatePropertyValue.
    rewrite H. simpl. repeat split.
    destruct (propertyValueLoop_spec VUndefined values []) as [H1 H2].
    destruct (propertyValueLoop VUndefined values []) as [d|] eqn:E.
    + now rewrite (H2 d eq_refl).
    + destruct (proj1 H1 eq_refl) as (s & Hs & _). discriminate.
  - intros Hv.
    unfold Validate.validateFunction, Validate.validateObject, validateString,
      validateBoolean, validatePropertyValue.
    rewrite !(isOptional_defined value _ Hv). repeat split.
Qed.

(** X4: [validatePropertyValue] accepts exactly the strings listed in
    [values]; any other value that is present is refused, and the message
    lists all of [values], in order, separated by ", ". *)
Theorem validatePropertyValue_accepts_listed_strings
    (arg : ArgName) (val : JsValue) (values : list string)
    (options : option ValidationOptions) :
  isOptional val options = false ->
  (validatePropertyValue arg val values options = Ok tt <->
     exists s, val = VString s /\ In s values) /\
  (validatePropertyValue arg val values options <> Ok tt ->
     validatePropertyValue arg val values options =
       Throw (Error ([Txt "Invalid value for argument "] ++ formatArgumentName arg ++
                     [Txt ". Acceptable values are: "; Txt (String.concat ", " values)]))).
Proof.
  intros Hopt. unfold validatePropertyValue. rewrite Hopt. simpl.
  destruct (propertyValueLoop_spec val values []) as [H1 H2].
  destruct (propertyValueLoop val values []) as [d|] eqn:E.
  - rewrite (H2 d eq_refl). simpl. split.
    + split; [discriminate|]. intros H. apply H1 in H. discriminate.
    + reflexivity.
  - split; [|congruence]. split; [intros _; now apply H1 | reflexivity].
Qed.

Lemma validatePropertyValue_accepts_listed_strings_witness :
  isOptional (VString "desc") None = false /\
  (validatePropertyValue (ArgStr "directionStr") (VString "desc") ["asc"; "desc"] None = Ok tt <->
   exists s, VString "desc" = VString s /\ In s ["asc"; "desc"]).
Proof.
  split; [reflexivity|].
  exact (proj1 (validatePropertyValue_accepts_listed_strings (ArgStr "directionStr")
                  (VString "desc") ["asc"; "desc"] None eq_refl)).
Defined.

Lemma validateInteger_accepts_integers_in_range_witness :
  Validate.validateInteger (ArgStr "n") (VNumber (Finite 3)) None = Ok tt <->
  exists q, VNumber (Finite 3) = VNumber (Finite q) /\ exists z : Z, (q == inject_Z z)%Q.
Proof.
  exact (proj2 (proj2 (validateInteger_accepts_integers_in_range (ArgStr "n")
                         (VNumber (Finite 3)) None)) eq_refl).
Defined.

(* ================================================================== *)
(** * Further properties of the validators of write-batch.ts *)
(* ================================================================== *)

Section BatchValidatorFacts.
Import WriteBatch.

(** [validatePrecondition] on a value that is an object. *)
Lemma validatePrecondition_object (arg : ArgName) (val : JsValue) (allowExist : bool) :
  typeof val = "object" -> val <> VNull ->
  (validatePrecondition arg val allowExist = Ok tt <->
     (prop val "exists" = VUndefined /\
      (prop val "lastUpdateTime" = VUndefined \/
       instanceof (prop val "lastUpdateTime") "Timestamp" = true)) \/
     (allowExist = true /\ (exists b, prop val "exists" = VBoolean b) /\
      prop val "lastUpdateTime" = VUndefined)).
Proof.
  intros Hty Hnull. unfold validatePrecondition. rewrite Hty.
  assert (Hn : is_null val = false) by (destruct val; simpl; congruence).
  rewrite Hn. cbn [String.eqb negb orb]. simpl String.eqb.
  change (negb true || false) with false. cbv iota.
  generalize (prop val "exists") as e, (prop val "lastUpdateTime") as t. intros e t.
  destruct (instanceof t "Timestamp") eqn:Hinst.
  - destruct e, t, allowExist; simpl in *; try discriminate Hinst;
      try rewrite Hinst; simpl;
      (split; [intros H; try discriminate H; try (left; split; [reflexivity|]; auto; fail);
                  try (right; split; [reflexivity|]; split; [eauto | reflexivity]; fail)
               | intros [[H1 H2]|(H1 & [b' H2] & H3)]; try discriminate; try reflexivity;
                 try (destruct H2; discriminate)]).
  - destruct e, t, allowExist; simpl in *; try rewrite Hinst; simpl;
      (split; [intros H; try discriminate H; try (left; split; [reflexivity|]; auto; fail);
                  try (right; split; [reflexivity|]; split; [eauto | reflexivity]; fail)
               | intros [[H1 H2]|(H1 & [b' H2] & H3)]; try discriminate; try reflexivity;
                 try (destruct H2; discriminate)]).
Qed.

Lemma validatePrecondition_not_object (arg : ArgName) (val : JsValue) (allowExist : bool) :
  typeof val <> "object" \/ val = VNull ->
  validatePrecondition arg val allowExist = Throw (Error [Txt "Input is not an object."]).
Proof.
  intros H. unfold validatePrecondition.
  destruct val; simpl; try reflexivity; destruct H as [H|H]; try discriminate H;
    now elim H.
Qed.

End BatchValidatorFacts.

Section BatchValidatorProperties.
Import WriteBatch.

(** X5: a precondition is accepted when it is absent or an object with at
    most one condition: for [delete] a boolean [exists] or a [Timestamp]
    [lastUpdateTime]; for [update] only a [Timestamp] [lastUpdateTime], any
    defined [exists] being refused.  So every precondition accepted for
    [update] is accepted for [delete]. *)
Theorem preconditions_allow_one_condition (arg : ArgName) (p : JsValue) :
  let isObject := typeof p = "object" /\ p <> VNull in
  let versionOnly :=
    prop p "exists" = VUndefined /\
    (prop p "lastUpdateTime" = VUndefined \/
     instanceof (prop p "lastUpdateTime") "Timestamp" = true) in
  let existsOnly :=
    (exists b, prop p "exists" = VBoolean b) /\ prop p "lastUpdateTime" = VUndefined in
  (validateDeletePrecondition arg p = Ok tt <->
     p = VUndefined \/ (isObject /\ (versionOnly \/ existsOnly))) /\
  (validateUpdatePrecondition arg p = Ok tt <->
     p = VUndefined \/ (isObject /\ versionOnly)) /\
  (validateUpdatePrecondition arg p = Ok tt -> validateDeletePrecondition arg p = Ok tt).
Proof.
  intros isObject versionOnly existsOnly.
  assert (Hcases : p = VUndefined \/ (p <> VUndefined /\ isObject) \/
                   (p <> VUndefined /\ (typeof p <> "object" \/ p = VNull))).
  { unfold isObject. destruct p; simpl; auto;
      right; try (left; split; [discriminate | split; [reflexivity | discriminate]]);
      right; split; try discriminate; auto; left; discriminate. }
  assert (Hd : validateDeletePrecondition arg p = Ok tt <->
               p = VUndefined \/ (isObject /\ (versionOnly \/ existsOnly))).
  { unfold validateDeletePrecondition.
    destruct Hcases as [->|[[Hdef [Hty Hnn]]|[Hdef Hbad]]].
    - simpl. tauto.
    - assert (Hu : is_undefined p = false) by (destruct p; simpl; congruence).
      rewrite Hu. simpl negb. cbv iota.
      rewrite (validatePrecondition_object arg p true Hty Hnn).
      unfold isObject, versionOnly, existsOnly. intuition congruence.
    - assert (Hu : is_undefined p = false) by (destruct p; simpl; congruence).
      rewrite Hu. simpl negb. cbv iota.
      rewrite (validatePrecondition_not_object arg p true Hbad).
      unfold isObject. split; [discriminate|]. intros [H|[[H1 H2] _]]; [contradiction|].
      destruct Hbad; contradiction. }
  assert (Hup : validateUpdatePrecondition arg p = Ok tt <->
                p = VUndefined \/ (isObject /\ versionOnly)).
  { unfold validateUpdatePrecondition.
    destruct Hcases as [->|[[Hdef [Hty Hnn]]|[Hdef Hbad]]].
    - simpl. tauto.
    - assert (Hu : is_undefined p = false) by (destruct p; simpl; congruence).
      rewrite Hu. simpl negb. cbv iota.
      rewrite (validatePrecondition_object arg p false Hty Hnn).
      unfold isObject, versionOnly. intuition congruence.
    - assert (Hu : is_undefined p = false) by (destruct p; simpl; congruence).
      rewrite Hu. simpl negb. cbv iota.
      rewrite (validatePrecondition_not_object arg p false Hbad).
      unfold isObject. split; [discriminate|]. intros [H|[[H1 H2] _]]; [contradiction|].
      destruct Hbad; contradiction. }
  split; [exact Hd|]. split; [exact Hup|].
  rewrite Hd, Hup. tauto.
Qed.

Lemma preconditions_allow_one_condition_witness :
  validateUpdatePrecondition (ArgStr "p")
    (obj [("lastUpdateTime", VObject (mkCtor "Timestamp" true) [])]) = Ok tt /\
  validateDeletePrecondition (ArgStr "p")
    (obj [("lastUpdateTime", VObject (mkCtor "Timestamp" true) [])]) = Ok tt.
Proof.
  split; [reflexivity|].
  exact (proj2 (proj2 (preconditions_allow_one_condition (ArgStr "p")
           (obj [("lastUpdateTime", VObject (mkCtor "Timestamp" true) [])]))) eq_refl).
Defined.

Context {C : Collaborators}.

Lemma validateMergeFieldsFrom_ok (arg : ArgName) (items : list JsValue) :
  forall i,
    validateMergeFieldsFrom arg i items = Ok tt <->
    (forall k x, nth_error items k = Some x -> validateFieldPath (ArgIdx (i + k)) x = Ok tt).
Proof.
  induction items as [|x items IH]; intros i; simpl.
  - split; [|reflexivity]. intros _ [|k] y; discriminate.
  - destruct (validateFieldPath (ArgIdx i) x) as [[]|e] eqn:Hx.
    + rewrite IH. split.
      * intros H [|k] y Hk; simpl in Hk.
        -- injection Hk as <-. now rewrite Nat.add_0_r.
        -- rewrite Nat.add_succ_r. now apply (H k y).
      * intros H k y Hk. specialize (H (S k) y Hk). now rewrite Nat.add_succ_r in H.
    + split; [discriminate|].
      intros H. specialize (H 0 x eq_refl). rewrite Nat.add_0_r in H. congruence.
Qed.

(** X6: [validateSetOptions] accepts absent options, and an object with
    either no [merge] and [mergeFields] absent or an array of valid field
    paths, or a boolean [merge] and no [mergeFields]; as soon as both are
    defined, even [merge: false], the options are refused. *)
Theorem validateSetOptions_merge_excludes_mergeFields (arg : ArgName) (val : JsValue) :
  let validFields :=
    exists items, prop val "mergeFields" = VArray items /\
      forall k x, nth_error items k = Some x -> validateFieldPath (ArgIdx k) x = Ok tt in
  (validateSetOptions arg val = Ok tt <->
     val = VUndefined \/
     (typeof val = "object" /\ val <> VNull /\
      ((prop val "merge" = VUndefined /\
        (prop val "mergeFields" = VUndefined \/ validFields)) \/
       ((exists b, prop val "merge" = VBoolean b) /\
        prop val "mergeFields" = VUndefined)))) /\
  (prop val "merge" <> VUndefined -> prop val "mergeFields" <> VUndefined ->
   exists e, validateSetOptions arg val = Throw e).
Proof.
  intros validFields.
  assert (Hmain : validateSetOptions arg val = Ok tt <->
     val = VUndefined \/
     (typeof val = "object" /\ val <> VNull /\
      ((prop val "merge" = VUndefined /\
        (prop val "mergeFields" = VUndefined \/ validFields)) \/
       ((exists b, prop val "merge" = VBoolean b) /\
        prop val "mergeFields" = VUndefined)))).
  { unfold validateSetOptions, validFields.
    assert (Hf : forall its,
              validateMergeFieldsFrom arg 0 its = Ok tt <->
              (forall k x, nth_error its k = Some x ->
                           validateFieldPath (ArgIdx k) x = Ok tt)).
    { intros its. apply (validateMergeFieldsFrom_ok arg its 0). }
    destruct val as [| |b|n|s0|kind|items0|c props|cn props];
      try (simpl; split; [discriminate|];
           intros [H|(H1 & H2 & _)]; [discriminate H | try discriminate H1; now elim H2]).
    1: solve [simpl; tauto].
    1: { (* an array: no properties *)
      simpl. split; [|reflexivity]. intros _. right.
      split; [reflexivity|]. split; [discriminate|]. left. auto. }
    (* an object, of either sort *)
    all: set (m := prop _ "merge") in *;
      set (f := prop _ "mergeFields") in *;
      clearbody m f;
      cbn [is_undefined typeof is_null]; simpl String.eqb; cbn [negb orb];
      destruct m; destruct f; simpl;
        try match goal with
            | |- context [validateMergeFieldsFrom ?a 0 ?l] =>
                destruct (validateMergeFieldsFrom a 0 l) as [[]|?] eqn:E; simpl
            end;
        (split;
         [ intros H;
           first [ discriminate H
                 | right; split; [reflexivity|]; split; [discriminate|];
                   first [ left; split; [reflexivity|];
                           first [ left; reflexivity
                                 | right; eexists; split; [reflexivity|]; apply Hf; exact E ]
                         | right; split; [eexists; reflexivity | reflexivity] ] ]
         | intros [H|(_ & _ & [[Hm' [Hf'|(its & Hf' & Hall)]]|[[b' Hm'] Hf']])];
           try discriminate; try reflexivity;
           injection Hf' as <-; apply Hf in Hall; congruence ]). }
  split; [exact Hmain|].
  intros Hm Hf.
  destruct (validateSetOptions arg val) as [[]|e] eqn:E; [|eauto].
  exfalso. destruct (proj1 Hmain eq_refl) as [->|(_ & _ & [[H _]|[_ H]])];
    simpl in *; congruence.
Qed.

End BatchValidatorProperties.

Lemma validateSetOptions_merge_excludes_mergeFields_witness :
  prop (obj [("merge", VBoolean false); ("mergeFields", VArray [])]) "merge" <> VUndefined /\
  prop (obj [("merge", VBoolean false); ("mergeFields", VArray [])]) "mergeFields"
    <> VUndefined /\
  exists e, WriteBatch.validateSetOptions (C := SpecModel.collaborators) (ArgStr "options")
              (obj [("merge", VBoolean false); ("mergeFields", VArray [])]) = Throw e.
Proof.
  split; [discriminate|]. split; [discriminate|].
  apply (proj2 (validateSetOptions_merge_excludes_mergeFields (C := SpecModel.collaborators)
                 (ArgStr "options")
                 (obj [("merge", VBoolean false); ("mergeFields", VArray [])])));
    discriminate.
Defined.

(* ================================================================== *)
(** * Further properties of the operations that append *)
(* ================================================================== *)

Module AppendSteps.
Import WriteBatch Notions AppendFacts.

Lemma bind_verify_ok {B} (k : unit -> M B) (b b' : Batch) (x : B) :
  bind verifyNotCommitted k b = (b', Ok x) ->
  _committed b = false /\ k tt b = (b', Ok x).
Proof.
  unfold bind, verifyNotCommitted. destruct (_committed b); [discriminate | auto].
Qed.

Lemma bind_verify_open {B} (k : unit -> M B) (b : Batch) :
  _committed b = false -> bind verifyNotCommitted k b = k tt b.
Proof. intros H. unfold bind, verifyNotCommitted. now rewrite H. Qed.

Lemma bind_lift_throw {A B} (r : Result A) (k : A -> M B) (b : Batch) (e : JsError) :
  r = Throw e -> bind (lift r) k b = (b, Throw e).
Proof. intros ->. reflexivity. Qed.

(** Runs the first step of the method in the goal, a check known to pass. *)
Ltac run_check a H :=
  match goal with
  | |- bind (lift ?r) ?k ?b = _ => rewrite (bind_lift_run r k b a H)
  end.

Section WithCollaborators.
Context {C : Collaborators}.







End WithCollaborators.
End AppendSteps.

Section DocumentDataProperties.
Import WriteBatch Notions AppendFacts AppendSteps.
Context {C : Collaborators}.


End DocumentDataProperties.


Section AppendEntryProperties.
Import WriteBatch Notions CommitFacts AppendFacts AppendSteps.
Context {C : Collaborators}.

(** X8: when a transform that is not empty serializes to an entry, every
    operation queued by [create], [set] or [delete] carries a write or a
    transform, so a batch built from them alone never trips the assertion of
    [commit_]; [delete] queues a write and no transform, [set] no
    precondition. *)
Theorem create_set_delete_queue_an_entry (call : Append) (b b' : Batch) :
  (forall t, DocumentTransform_isEmpty t = false -> DocumentTransform_toProto t <> None) ->
  (forall sameKey arguments, call <> Update sameKey arguments) ->
  runAppend call b = (b', Ok tt) ->
  exists op,
    b' = mkBatch (_writes b ++ [op]) false /\
    hasEntry op = true /\
    (forallb hasEntry (_writes b) = true -> forallb hasEntry (_writes b') = true) /\
    match call with
    | Delete _ _ => transform op = None /\ exists w, write op = Some w
    | Set_ _ _ _ => precondition op = None
    | _ => True
    end.
Proof.
  intros Hlaw Hcall H.
  assert (Hkeep : forall op, hasEntry op = true ->
            forallb hasEntry (_writes b) = true ->
            forallb hasEntry (_writes (mkBatch (_writes b ++ [op]) false)) = true).
  { intros op Hop Hall. simpl. rewrite forallb_app, Hall. simpl. now rewrite Hop. }
  destruct call as [documentRef data|documentRef pre|documentRef data options|sameKey arguments];
    simpl in H.
  - unfold create in H.
    apply bind_lift_ok in H as (u1 & E1 & H).
    apply bind_lift_ok in H as (u2 & E2 & H).
    apply bind_verify_ok in H as (Hc & H).
    apply bind_lift_ok in H as (u3 & E3 & H).
    unfold push in H. injection H as <-. rewrite Hc.
    eexists. split; [reflexivity|].
    match goal with |- hasEntry ?op = true /\ _ => assert (Hop : hasEntry op = true) end.
    { unfold hasEntry. simpl.
      destruct (DocumentTransform_isEmpty (DocumentTransform_fromObject documentRef data)) eqn:Et.
      - rewrite orb_true_r. reflexivity.
      - specialize (Hlaw _ Et).
        destruct (DocumentTransform_toProto (DocumentTransform_fromObject documentRef data));
          [|now elim Hlaw].
        destruct (negb _ || false); reflexivity. }
    split; [exact Hop|]. split; [now apply Hkeep | exact I].
  - unfold delete in H.
    apply bind_lift_ok in H as (u1 & E1 & H).
    apply bind_lift_ok in H as (u2 & E2 & H).
    apply bind_verify_ok in H as (Hc & H).
    unfold push in H. injection H as <-. rewrite Hc.
    eexists. split; [reflexivity|]. split; [reflexivity|].
    split; [now apply Hkeep|]. simpl. eauto.
  - unfold set in H.
    apply bind_lift_ok in H as (u1 & E1 & H).
    apply bind_lift_ok in H as (u2 & E2 & H).
    apply bind_lift_ok in H as (u3 & E3 & H).
    apply bind_verify_ok in H as (Hc & H).
    apply bind_lift_ok in H as (u4 & E4 & H).
    unfold push in H. injection H as <-. rewrite Hc.
    eexists. split; [reflexivity|].
    match goal with |- hasEntry ?op = true /\ _ => assert (Hop : hasEntry op = true) end.
    { unfold hasEntry. simpl.
      match goal with
      | |- context [DocumentTransform_toProto ?t] =>
          destruct (DocumentTransform_isEmpty t) eqn:Et;
          [ rewrite ?orb_true_r;
            destruct (negb _ && negb _); reflexivity
          | specialize (Hlaw _ Et);
            destruct (DocumentTransform_toProto t); [|now elim Hlaw];
            destruct (negb _ && negb _); [reflexivity|];
            destruct (_ || false); reflexivity ]
      end. }
    split; [exact Hop|]. split; [now apply Hkeep | reflexivity].
  - now elim (Hcall sameKey arguments).
Qed.

(** X9: [update(ref, fieldPath)] with a lone [FieldPath] object, which the
    varargs form reads as the precondition, passes every check and queues an
    operation with neither a write nor a transform (when the collaborators
    give an empty snapshot, mask and transform for an empty update map). *)
Theorem update_with_lone_field_path_queues_no_entry
    (sameKey : nat -> nat -> bool) (documentRef fieldPath : JsValue) (b : Batch) :
  validateDocumentReference (ArgStr "documentRef") documentRef = Ok tt ->
  instanceof fieldPath "FieldPath" = true ->
  prop fieldPath "exists" = VUndefined ->
  prop fieldPath "lastUpdateTime" = VUndefined ->
  DocumentSnapshot_isEmpty (DocumentSnapshot_fromUpdateMap documentRef []) = true ->
  DocumentMask_isEmpty (DocumentMask_fromUpdateMap []) = true ->
  DocumentTransform_validate (DocumentTransform_fromUpdateMap documentRef []) = Ok tt ->
  DocumentTransform_toProto (DocumentTransform_fromUpdateMap documentRef []) = None ->
  _committed b = false ->
  update sameKey [documentRef; fieldPath] b =
    (mkBatch (_writes b ++ [mkWriteOp None None (Precondition_toProto fieldPath)]) false,
     Ok tt) /\
  hasEntry (mkWriteOp None None (Precondition_toProto fieldPath)) = false.
Proof.
  intros Href Hfp He Ht Hs Hm Htv Htp Hc. split; [|reflexivity].
  assert (Hpre : validateUpdatePrecondition (ArgIdx 1) fieldPath = Ok tt).
  { unfold validateUpdatePrecondition.
    destruct fieldPath as [| | | | | | |c props|]; try discriminate Hfp.
    simpl is_undefined. simpl negb. cbv iota.
    apply validatePrecondition_object; [reflexivity | discriminate|].
    left. auto. }
  unfold update. cbv zeta.
  run_check tt (eq_refl (Ok tt)).
  run_check tt Href.
  rewrite bind_verify_open by exact Hc.
  cbn [js_nth nth skipn].
  rewrite Hfp, orb_true_r.
  cbn [updateVarargs]. rewrite Hpre. cbn [rbind rethrowWithUsage map fst snd].
  run_check ([] : UpdateMap, fieldPath) (eq_refl (Ok ([] : UpdateMap, fieldPath))).
  cbn [fst snd].
  run_check tt (eq_refl (Ok tt)).
  rewrite Hs, Hm. cbn [negb orb].
  run_check tt Htv.
  unfold push. rewrite Htp, Hc. reflexivity.
Qed.

(** X10: [update] with fewer than two arguments fails on the argument count
    whatever the state of the batch, and on a committed batch it fails with
    the state error as soon as the document reference is valid, before it
    looks at fields, values or precondition; [create], [set] and [delete]
    validate all their arguments first, so on a committed batch invalid data,
    options or precondition get their own error, also invalid data passed
    to [set] with valid options. *)
Theorem update_checks_state_before_fields (b : Batch) :
  (forall sameKey arguments, List.length arguments < 2 ->
     update sameKey arguments b =
       (b, Throw (Error ([Txt "Function "; DQ; Txt "update"; Txt "()"; DQ;
                          Txt " requires at least "; Idx 2; Txt " "; Txt "argument";
                          Txt "s"; Txt "."])))) /\
  (forall sameKey arguments, 2 <= List.length arguments ->
     validateDocumentReference (ArgStr "documentRef") (js_nth 0 arguments) = Ok tt ->
     _committed b = true ->
     update sameKey arguments b = (b, Throw notCommittedError)) /\
  (forall documentRef data e,
     validateDocumentReference (ArgStr "documentRef") documentRef = Ok tt ->
     validateDocumentData (ArgStr "data") data false = Throw e ->
     create documentRef data b = (b, Throw e)) /\
  (forall documentRef pre e,
     validateDocumentReference (ArgStr "documentRef") documentRef = Ok tt ->
     validateDeletePrecondition (ArgStr "precondition") pre = Throw e ->
     delete documentRef pre b = (b, Throw e)) /\
  (forall documentRef data options e,
     validateSetOptions (ArgStr "options") options = Throw e ->
     set documentRef data options b = (b, Throw e)) /\
  (forall documentRef data options e,
     validateSetOptions (ArgStr "options") options = Ok tt ->
     validateDocumentReference (ArgStr "documentRef") documentRef = Ok tt ->
     validateDocumentData (ArgStr "data") data
       (truthy (if truthy options then prop options "mergeFields" else options) ||
        (truthy options &&
         match prop options "merge" with VBoolean true => true | _ => false end))
       = Throw e ->
     set documentRef data options b = (b, Throw e)).
Proof.
  split; [|split; [|split; [|split; [|split]]]].
  - intros sameKey arguments Hlen. unfold update.
    apply bind_lift_throw. unfold Validate.validateMinNumberOfArguments.
    apply Nat.ltb_lt in Hlen. rewrite Hlen. reflexivity.
  - intros sameKey arguments Hlen Href Hc. unfold update. cbv zeta.
    assert (Hmin : Validate.validateMinNumberOfArguments "update" arguments 2 = Ok tt).
    { unfold Validate.validateMinNumberOfArguments.
      apply Nat.ltb_ge in Hlen. now rewrite Hlen. }
    run_check tt Hmin. run_check tt Href.
    now apply verifyNotCommitted_committed.
  - intros documentRef data e Href Hdata. unfold create.
    run_check tt Href. now apply bind_lift_throw.
  - intros documentRef pre e Href Hpre. unfold delete.
    run_check tt Href. now apply bind_lift_throw.
  - intros documentRef data options e Hopt. unfold set.
    now apply bind_lift_throw.
  - intros documentRef data options e Hopt Href Hdata. unfold set.
    run_check tt Hopt. cbv zeta. run_check tt Href. now apply bind_lift_throw.
Qed.

(** X11: after an operation was appended the batch is not empty, and
    [commit_] neither adds nor removes operations, so [isEmpty] answers the
    same before and after any commit. *)
Theorem isEmpty_after_append_and_commit
    (firestore : Firestore) (now : Z) (transport : Transport) :
  (forall call b b', runAppend call b = (b', Ok tt) -> isEmpty b' = false) /\
  (forall fuel commitOptions b b' log r,
     commit_ firestore now transport fuel commitOptions b = Some (b', log, r) ->
     List.length (_writes b') = List.length (_writes b) /\ isEmpty b' = isEmpty b).
Proof.
  assert (Hbuild : forall ops, List.length (fst (buildWrites ops)) = List.length ops).
  { induction ops as [|op ops IH]; simpl; [reflexivity|].
    destruct (write op), (transform op); try reflexivity;
      destruct (buildWrites ops) as [rest' r]; simpl in *; now rewrite IH. }
  assert (Hsend : forall tx b,
            List.length (_writes (fst (fst (sendCommit firestore transport tx b)))) =
            List.length (_writes b)).
  { intros tx b. unfold sendCommit. specialize (Hbuild (_writes b)).
    destruct (buildWrites (_writes b)) as [ops [ws|e]]; simpl in *.
    - destruct (commitRpc transport _); exact Hbuild.
    - exact Hbuild. }
  split.
  - intros call b b' H.
    pose proof (runAppend_appendsOne call b b' (Ok tt) H) as [op ->].
    unfold isEmpty. simpl. rewrite length_app. simpl.
    rewrite Nat.add_comm. reflexivity.
  - assert (Hlen : forall fuel commitOptions b b' log r,
              commit_ firestore now transport fuel commitOptions b = Some (b', log, r) ->
              List.length (_writes b') = List.length (_writes b)).
    { induction fuel as [|fuel IH]; intros commitOptions b b' log r H; [discriminate|].
      destruct (explicitTransaction commitOptions) as [tx|] eqn:Hx.
      - destruct commitOptions as [[t]|]; simpl in Hx; [|discriminate]. subst t.
        rewrite commit__explicit in H. injection H as H.
        specialize (Hsend (Some tx) b). now rewrite H in Hsend.
      - destruct (_shouldCreateTransaction firestore now) eqn:Hs.
        + rewrite commit__step in H by assumption.
          destruct (beginTransaction transport (beginRequest firestore)) as [resp|e].
          * destruct (commit_ firestore now transport fuel _ b) as [[[b1 log1] r1]|] eqn:E;
              [|discriminate].
            injection H as <- _ _. exact (IH _ _ _ _ _ E).
          * now injection H as <- _ _.
        + rewrite commit__direct in H by assumption. injection H as H.
          specialize (Hsend None b). now rewrite H in Hsend. }
    intros fuel commitOptions b b' log r H.
    specialize (Hlen _ _ _ _ _ _ H). split; [exact Hlen|].
    unfold isEmpty. now rewrite Hlen.
Qed.

End AppendEntryProperties.

Lemma SpecModel_transform_law (t : SpecModel.Transform) :
  SpecModel.Transform_isEmpty t = false -> SpecModel.Transform_toProto t <> None.
Proof. unfold SpecModel.Transform_toProto. intros ->. discriminate. Qed.

Lemma create_set_delete_queue_an_entry_witness :
  (forall sameKey arguments, WriteBatch.Delete Examples.documentRef VUndefined
                             <> WriteBatch.Update sameKey arguments) /\
  WriteBatch.runAppend (C := SpecModel.collaborators)
    (WriteBatch.Delete Examples.documentRef VUndefined) WriteBatch.newBatch =
    (WriteBatch.mkBatch
       [WriteBatch.mkWriteOp
          (Some (mkIWrite None (Some "projects/p/databases/d/documents/col/doc")
                   None None None)) None None] false, Ok tt) /\
  exists op,
    Notions.hasEntry op = true /\
    WriteBatch.transform op = None.
Proof.
  split; [discriminate|]. split; [reflexivity|].
  destruct (create_set_delete_queue_an_entry (C := SpecModel.collaborators)
              (WriteBatch.Delete Examples.documentRef VUndefined) WriteBatch.newBatch _
              SpecModel_transform_law ltac:(discriminate) eq_refl)
    as (op & _ & Hop & _ & Ht & _).
  exists op. split; assumption.
Defined.

Lemma update_with_lone_field_path_queues_no_entry_witness :
  instanceof (VObject (Examples.ownClass "FieldPath") [("segments", VArray [VString "a"])])
    "FieldPath" = true /\
  WriteBatch.update (C := SpecModel.collaborators) Nat.eqb
    [Examples.documentRef;
     VObject (Examples.ownClass "FieldPath") [("segments", VArray [VString "a"])]]
    WriteBatch.newBatch =
    (WriteBatch.mkBatch [WriteBatch.mkWriteOp None None None] false, Ok tt).
Proof.
  split; [reflexivity|].
  exact (proj1 (update_with_lone_field_path_queues_no_entry (C := SpecModel.collaborators)
                  Nat.eqb Examples.documentRef
                  (VObject (Examples.ownClass "FieldPath") [("segments", VArray [VString "a"])])
                  WriteBatch.newBatch
                  eq_refl eq_refl eq_refl eq_refl eq_refl eq_refl eq_refl eq_refl eq_refl)).
Defined.

Lemma update_checks_state_before_fields_witness :
  WriteBatch.update (C := SpecModel.collaborators) Nat.eqb
    [Examples.documentRef; VNumber (Finite 5)] (WriteBatch.mkBatch [] true) =
    (WriteBatch.mkBatch [] true, Throw WriteBatch.notCommittedError) /\
  WriteBatch.create (C := SpecModel.collaborators) Examples.documentRef (VNumber (Finite 5))
    (WriteBatch.mkBatch [] true) =
    (WriteBatch.mkBatch [] true,
     Throw (Error (Validate.customObjectMessage (ArgStr "data") (VNumber (Finite 5)) None))).
Proof.
  pose proof (update_checks_state_before_fields (C := SpecModel.collaborators)
                (WriteBatch.mkBatch [] true)) as (_ & Hu & Hc & _).
  split.
  - apply Hu; [simpl; lia | reflexivity | reflexivity].
  - apply Hc; reflexivity.
Defined.

Section VarargsProperties.
Import WriteBatch Notions AppendFacts AppendSteps.
Context {C : Collaborators}.
Variable sameKey : nat -> nat -> bool.

Lemma mapSet_new_key (i : nat) (key : FieldPath.t) (value : JsValue) (updateMap : KeyedMap) :
  (forall j, In j (map fst updateMap) -> sameKey j i = false) ->
  mapSet sameKey i key value updateMap = updateMap ++ [(i, (key, value))].
Proof.
  induction updateMap as [|[j [k v]] rest IH]; intros H; cbn [mapSet app].
  - reflexivity.
  - rewrite (H j (or_introl eq_refl)), IH; [reflexivity|].
    intros j' Hj'. apply H. now right.
Qed.

Lemma mapSet_length (i : nat) (key : FieldPath.t) (value : JsValue) (updateMap : KeyedMap) :
  List.length updateMap <= List.length (mapSet sameKey i key value updateMap)
    <= S (List.length updateMap).
Proof.
  induction updateMap as [|[j [k v]] rest IH]; cbn [mapSet List.length].
  - lia.
  - destruct (sameKey j i); cbn [List.length]; lia.
Qed.

Lemma keyedPairs_entries (pairs : list (JsValue * JsValue)) :
  forall i,
    map snd (keyedPairs i pairs) =
      map (fun fv => (FieldPath_fromArgument (fst fv), snd fv)) pairs /\
    (forall j, In j (map fst (keyedPairs i pairs)) -> i <= j).
Proof.
  induction pairs as [|[f v] pairs IH]; intros i; cbn [keyedPairs map fst snd].
  - split; [reflexivity | intros j []].
  - destruct (IH (i + 2)) as [IH1 IH2]. split.
    + now rewrite IH1.
    + intros j [<-|Hj]; [lia|]. specialize (IH2 j Hj). lia.
Qed.

Lemma validateMinNumberOfArguments_ok (funcName : string) (args : list JsValue) (n : nat) :
  n <= List.length args -> Validate.validateMinNumberOfArguments funcName args n = Ok tt.
Proof.
  intros H. unfold Validate.validateMinNumberOfArguments.
  assert (Hge : Nat.ltb (List.length args) n = false) by (apply Nat.ltb_ge; lia).
  now rewrite Hge.
Qed.

(** The loop over valid path/value pairs whose keys are objects of their
    own. *)
Lemma updateVarargs_pairs (arguments : list JsValue) (pairs : list (JsValue * JsValue)) :
  forall (i : nat) (rest : list JsValue) (updateMap : KeyedMap) (precondition : JsValue),
    i + List.length (flat_map (fun fv => [fst fv; snd fv]) pairs ++ rest)
      = List.length arguments ->
    (forall k f v, nth_error pairs k = Some (f, v) ->
       validateFieldPath (ArgIdx (i + 2 * k)) f = Ok tt /\
       validateFieldValue (ArgIdx (i + 2 * k)) v (FieldPath_fromArgument f) = Ok tt) ->
    (forall j k, j <> k -> sameKey j k = false) ->
    (forall j, In j (map fst updateMap) -> j < i) ->
    updateVarargs sameKey arguments i (flat_map (fun fv => [fst fv; snd fv]) pairs ++ rest)
      updateMap precondition =
    updateVarargs sameKey arguments (i + 2 * List.length pairs) rest
      (updateMap ++ keyedPairs i pairs) precondition.
Proof.
  induction pairs as [|[f v] pairs IH]; intros i rest um pre Hlen Hok Hnew Hold.
  - simpl. now rewrite Nat.add_0_r, app_nil_r.
  - destruct (Hok 0 f v eq_refl) as [Hf Hv]. rewrite Nat.add_0_r in Hf, Hv.
    cbn [flat_map fst snd app updateVarargs keyedPairs]. rewrite Hf. cbn [rbind].
    cbn [flat_map fst snd app List.length] in Hlen.
    rewrite validateMinNumberOfArguments_ok by lia.
    cbn [rbind]. rewrite Hv. cbn [rbind].
    rewrite mapSet_new_key
      by (intros j Hj; apply Hnew; specialize (Hold j Hj); lia).
    rewrite IH.
    + cbn [List.length]. rewrite <- app_assoc. cbn [app]. f_equal. lia.
    + lia.
    + intros k f' v' Hk. specialize (Hok (S k) f' v' Hk).
      replace (i + 2 + 2 * k) with (i + 2 * S k) by lia. exact Hok.
    + exact Hnew.
    + intros j Hj. rewrite map_app in Hj. apply in_app_or in Hj as [Hj|[<-|[]]].
      * specialize (Hold j Hj). lia.
      * cbn [fst]. lia.
Qed.

(** The loop over valid path/value pairs, whatever the key objects: the
    map never gets more than one entry per pair. *)
Lemma updateVarargs_pairs_bound (arguments : list JsValue)
    (pairs : list (JsValue * JsValue)) :
  forall (i : nat) (updateMap : KeyedMap) (precondition : JsValue),
    i + List.length (flat_map (fun fv => [fst fv; snd fv]) pairs) = List.length arguments ->
    (forall k f v, nth_error pairs k = Some (f, v) ->
       validateFieldPath (ArgIdx (i + 2 * k)) f = Ok tt /\
       validateFieldValue (ArgIdx (i + 2 * k)) v (FieldPath_fromArgument f) = Ok tt) ->
    exists filled,
      updateVarargs sameKey arguments i (flat_map (fun fv => [fst fv; snd fv]) pairs)
        updateMap precondition = Ok (filled, precondition) /\
      List.length updateMap <= List.length filled
        <= List.length updateMap + List.length pairs.
Proof.
  induction pairs as [|[f v] pairs IH]; intros i um pre Hlen Hok.
  - exists um. split; [reflexivity | cbn [List.length]; lia].
  - destruct (Hok 0 f v eq_refl) as [Hf Hv]. rewrite Nat.add_0_r in Hf, Hv.
    cbn [flat_map fst snd app updateVarargs]. rewrite Hf. cbn [rbind].
    cbn [flat_map fst snd app List.length] in Hlen.
    rewrite validateMinNumberOfArguments_ok by lia.
    cbn [rbind]. rewrite Hv. cbn [rbind].
    destruct (IH (i + 2) (mapSet sameKey i (FieldPath_fromArgument f) v um) pre)
      as (filled & Hrun & Hbound).
    + lia.
    + intros k f' v' Hk. specialize (Hok (S k) f' v' Hk).
      replace (i + 2 + 2 * k) with (i + 2 * S k) by lia. exact Hok.
    + exists filled. split; [exact Hrun|].
      pose proof (mapSet_length i (FieldPath_fromArgument f) v um).
      cbn [List.length]. lia.
Qed.

(** [validateUpdate] refuses a map with the same path under two keys. *)
Lemma validateUpdate_same_path (arg : ArgName) (key : FieldPath.t) (v1 v2 : JsValue) :
  validateUpdate arg [(key, v1); (key, v2)] = Throw (multipleTimesError arg key).
Proof.
  unfold validateUpdate. cbn [map fst sortFields fold_right insertSorted].
  assert (Hcmp : (0 <? FieldPath.compareTo key key)%Z = false)
    by (apply PathOrder.compareTo_not_positive, PathOrder.ple_refl).
  rewrite Hcmp. cbn [scanAdjacent]. now rewrite PathOrder.isPrefixOf_refl.
Qed.

(** X12: the varargs form of [update] reads its arguments after the
    document reference as path/value pairs, in order.  When all paths and
    values are valid, the update map never holds more than one entry per
    pair; when every pair has a key object of its own it holds exactly one
    entry per pair, in order, and the precondition stays [{exists: true}],
    unless one argument is left over at the end: that one must pass
    [validateUpdatePrecondition] and replaces the precondition.  The keys of
    the map are objects: a path passed twice under two keys is refused as
    specified multiple times, while one key object passed twice keeps one
    entry, with the later value, so that the call does what the call with
    that one pair does.  An invalid first path is reported with the usage
    text in front. *)
Theorem update_varargs_pairs_fields_with_values
    (documentRef : JsValue) (pairs : list (JsValue * JsValue)) :
  let flat := flat_map (fun fv => [fst fv; snd fv]) pairs in
  let entriesOf := map (fun fv => (FieldPath_fromArgument (fst fv), snd fv)) pairs in
  let default := obj [("exists", VBoolean true)] in
  (forall k f v, nth_error pairs k = Some (f, v) ->
     validateFieldPath (ArgIdx (1 + 2 * k)) f = Ok tt /\
     validateFieldValue (ArgIdx (1 + 2 * k)) v (FieldPath_fromArgument f) = Ok tt) ->
  (exists filled,
     updateVarargs sameKey (documentRef :: flat) 1 flat [] default = Ok (filled, default) /\
     List.length filled <= List.length pairs) /\
  ((forall j k, j <> k -> sameKey j k = false) ->
   (exists filled,
      updateVarargs sameKey (documentRef :: flat) 1 flat [] default = Ok (filled, default) /\
      map snd filled = entriesOf) /\
   (forall last,
      exists filled,
        map snd filled = entriesOf /\
        updateVarargs sameKey (documentRef :: flat ++ [last]) 1 (flat ++ [last]) [] default =
          match validateUpdatePrecondition (ArgIdx (1 + 2 * List.length pairs)) last with
          | Ok _ => Ok (filled, last)
          | Throw e => Throw e
          end)) /\
  (forall field v1 v2 b,
     validateDocumentReference (ArgStr "documentRef") documentRef = Ok tt ->
     _committed b = false ->
     String.eqb (typeof field) "string" || instanceof field "FieldPath" = true ->
     validateFieldPath (ArgIdx 1) field = Ok tt ->
     validateFieldPath (ArgIdx 3) field = Ok tt ->
     validateFieldValue (ArgIdx 1) v1 (FieldPath_fromArgument field) = Ok tt ->
     validateFieldValue (ArgIdx 1) v2 (FieldPath_fromArgument field) = Ok tt ->
     validateFieldValue (ArgIdx 3) v2 (FieldPath_fromArgument field) = Ok tt ->
     (sameKey 1 3 = false ->
      update sameKey [documentRef; field; v1; field; v2] b =
        (b, Throw (multipleTimesError (ArgStr "dataOrField")
                     (FieldPath_fromArgument field)))) /\
     (sameKey 1 3 = true ->
      update sameKey [documentRef; field; v1; field; v2] b =
        update sameKey [documentRef; field; v2] b)) /\
  (forall s value rest e b,
     validateDocumentReference (ArgStr "documentRef") documentRef = Ok tt ->
     _committed b = false ->
     validateFieldPath (ArgIdx 1) (VString s) = Throw e ->
     update sameKey (documentRef :: VString s :: value :: rest) b =
       (b, Throw (Error (argumentError ++ [Txt " "] ++ err_message e)))).
Proof.
  intros flat entriesOf default Hok. split; [|split; [|split]].
  - destruct (updateVarargs_pairs_bound (documentRef :: flat) pairs 1 [] default
                eq_refl Hok) as (filled & Hrun & Hbound).
    exists filled. split; [exact Hrun | cbn [List.length] in Hbound; lia].
  - intros Hnew. split.
    + exists (keyedPairs 1 pairs). split; [|apply keyedPairs_entries].
      pose proof (updateVarargs_pairs (documentRef :: flat) pairs 1 [] [] default) as H.
      rewrite app_nil_r in H. fold flat in H.
      rewrite H; [reflexivity | reflexivity | exact Hok | exact Hnew | intros j []].
    + intros last. exists (keyedPairs 1 pairs). split; [apply keyedPairs_entries|].
      pose proof (updateVarargs_pairs (documentRef :: flat ++ [last]) pairs 1 [last] []
                    default) as H.
      fold flat in H. rewrite H; [|reflexivity | exact Hok | exact Hnew | intros j []].
      cbn [updateVarargs app].
      destruct (validateUpdatePrecondition (ArgIdx (1 + 2 * List.length pairs)) last)
        as [[]|e]; reflexivity.
  - intros field v1 v2 b Href Hc Hvar Hf1 Hf3 Hv1 Hv2 Hv3.
    assert (Hrun : forall same13,
              sameKey 1 3 = same13 ->
              updateVarargs sameKey [documentRef; field; v1; field; v2] 1
                [field; v1; field; v2] [] default =
              Ok (if same13 then [(1, (FieldPath_fromArgument field, v2))]
                  else [(1, (FieldPath_fromArgument field, v1));
                        (3, (FieldPath_fromArgument field, v2))], default)).
    { intros same13 Hsame. cbn [updateVarargs Nat.add]. rewrite Hf1. cbn [rbind].
      rewrite validateMinNumberOfArguments_ok by (cbn [List.length]; lia).
      cbn [rbind]. rewrite Hv1. cbn [rbind]. rewrite Hf3. cbn [rbind].
      rewrite validateMinNumberOfArguments_ok by (cbn [List.length]; lia).
      cbn [rbind]. rewrite Hv3. cbn [rbind mapSet]. rewrite Hsame.
      destruct same13; reflexivity. }
    assert (Hone : updateVarargs sameKey [documentRef; field; v2] 1 [field; v2] [] default =
                   Ok ([(1, (FieldPath_fromArgument field, v2))], default)).
    { cbn [updateVarargs Nat.add]. rewrite Hf1. cbn [rbind].
      rewrite validateMinNumberOfArguments_ok by (cbn [List.length]; lia).
      cbn [rbind]. rewrite Hv2. reflexivity. }
    split; intros Hsame.
    + unfold update. cbv zeta.
      run_check tt (eq_refl (Ok tt)).
      cbn [js_nth nth]. run_check tt Href.
      rewrite bind_verify_open by exact Hc.
      cbn [skipn]. rewrite Hvar. fold default. rewrite (Hrun false Hsame).
      cbn [rbind rethrowWithUsage map fst snd].
      run_check ([(FieldPath_fromArgument field, v1); (FieldPath_fromArgument field, v2)],
                 default)
                (eq_refl (Ok ([(FieldPath_fromArgument field, v1);
                               (FieldPath_fromArgument field, v2)], default))).
      cbn [fst snd]. apply bind_lift_throw. apply validateUpdate_same_path.
    + unfold update. cbv zeta.
      cbn [js_nth nth skipn]. rewrite Hvar. fold default.
      rewrite (Hrun true Hsame), Hone. reflexivity.
  - intros s value rest e b Href Hc Hbad. unfold update. cbv zeta.
    run_check tt (eq_refl (Ok tt)).
    cbn [js_nth nth]. run_check tt Href.
    rewrite bind_verify_open by exact Hc.
    apply bind_lift_throw. cbn [typeof String.eqb skipn updateVarargs].
    simpl String.eqb. cbn [orb]. rewrite Hbad. reflexivity.
Qed.

End VarargsProperties.

Lemma update_varargs_pairs_fields_with_values_witness :
  WriteBatch.updateVarargs (C := SpecModel.collaborators) Nat.eqb
    [Examples.documentRef; VString "a.b"; VNumber (Finite 1); VString "c"; VNumber (Finite 2)] 1
    [VString "a.b"; VNumber (Finite 1); VString "c"; VNumber (Finite 2)] []
    (obj [("exists", VBoolean true)]) =
    Ok ([(1, (["a"; "b"], VNumber (Finite 1))); (3, (["c"], VNumber (Finite 2)))],
        obj [("exists", VBoolean true)]) /\
  exists filled,
    WriteBatch.updateVarargs (C := SpecModel.collaborators) Nat.eqb
      [Examples.documentRef; VString "a.b"; VNumber (Finite 1); VString "c"; VNumber (Finite 2)] 1
      [VString "a.b"; VNumber (Finite 1); VString "c"; VNumber (Finite 2)] []
      (obj [("exists", VBoolean true)]) = Ok (filled, obj [("exists", VBoolean true)]) /\
    map snd filled = [(["a"; "b"], VNumber (Finite 1)); (["c"], VNumber (Finite 2))].
Proof.
  split; [reflexivity|].
  refine (proj1 (proj1 (proj2 (update_varargs_pairs_fields_with_values
                                 (C := SpecModel.collaborators) Nat.eqb Examples.documentRef
                                 [(VString "a.b", VNumber (Finite 1));
                                  (VString "c", VNumber (Finite 2))] _)) _)).
  - intros [|[|[|k]]] f v Hk; simpl in Hk; try discriminate;
      injection Hk as <- <-; split; reflexivity.
  - intros j k Hjk. now apply Nat.eqb_neq.
Defined.

(* ================================================================== *)
(** * Further properties of commit *)
(* ================================================================== *)

Module CommitSteps.
Import WriteBatch Notions CommitFacts.

Lemma wireEntries_attach (ops : list WriteOp) :
  wireEntries (map attachPrecondition ops) = wireEntries ops.
Proof.
  unfold wireEntries. rewrite map_map. f_equal. apply map_ext.
  intros op. apply attachPrecondition_idempotent.
Qed.

Lemma forallb_hasEntry_attach (ops : list WriteOp) :
  forallb hasEntry (map attachPrecondition ops) = forallb hasEntry ops.
Proof.
  induction ops as [|op ops IH]; simpl; [reflexivity|].
  now rewrite hasEntry_attach, IH.
Qed.

Lemma buildWrites_assertion (ops : list WriteOp) :
  forallb hasEntry ops = false -> snd (buildWrites ops) = Throw entryAssertion.
Proof.
  induction ops as [|op ops IH]; simpl; [discriminate|].
  intros H. unfold hasEntry in H at 1.
  destruct (write op) eqn:Hw, (transform op) eqn:Ht; simpl in H;
    try (destruct (buildWrites ops) as [rest' r]; simpl in *; now rewrite (IH H)).
  reflexivity.
Qed.

(** One wire entry per operation, and one more for each operation with a
    write and a transform. *)
Lemma wireEntries_count (ops : list WriteOp) :
  forallb hasEntry ops = true ->
  List.length (wireEntries ops) = List.length ops + List.length (filter hasBoth ops).
Proof.
  rewrite wireEntries_length.
  induction ops as [|op ops IH]; simpl; [reflexivity|].
  intros H. apply andb_prop in H as [Hop Hops].
  rewrite length_app, (IH Hops), entries_length.
  unfold hasEntry in Hop. unfold hasBoth.
  destruct (write op), (transform op); try discriminate; simpl; lia.
Qed.

Section WithClient.
Context {C : Collaborators}.
Variable firestore : Firestore.
Variable now : Z.
Variable transport : Transport.

Lemma sendCommit_illformed (tx : option (list Byte.byte)) (b : Batch) :
  forallb hasEntry (_writes b) = false ->
  exists ops, sendCommit firestore transport tx b =
                (mkBatch ops (_committed b), [], Throw entryAssertion).
Proof.
  intros H. unfold sendCommit. pose proof (buildWrites_assertion _ H) as Hb.
  destruct (buildWrites (_writes b)) as [ops r]. simpl in Hb. subst r. eauto.
Qed.

(** The three ways [commit_] goes on, by its options and the idle
    heuristic. *)
Lemma commit__cases (fuel : nat) (commitOptions : option CommitOptions) (b : Batch) :
  (exists tx, commit_ firestore now transport (S (S fuel)) commitOptions b =
                Some (sendCommit firestore transport (Some tx) b)) \/
  commit_ firestore now transport (S (S fuel)) commitOptions b =
    Some (sendCommit firestore transport None b) \/
  (exists e, beginTransaction transport (beginRequest firestore) = Throw e /\
     commit_ firestore now transport (S (S fuel)) commitOptions b =
       Some (b, [RpcBeginTransaction (beginRequest firestore) true], Throw e)) \/
  (exists resp, beginTransaction transport (beginRequest firestore) = Ok resp /\
     commit_ firestore now transport (S (S fuel)) commitOptions b =
       Some (let '(b', log, r) :=
               sendCommit firestore transport (Some (resp_transaction resp)) b in
             (b', RpcBeginTransaction (beginRequest firestore) true :: log, r))).
Proof.
  destruct (explicitTransaction commitOptions) as [tx|] eqn:Hx.
  - destruct commitOptions as [[t]|]; simpl in Hx; [|discriminate]. subst t.
    left. exists tx. apply commit__explicit.
  - destruct (_shouldCreateTransaction firestore now) eqn:Hs.
    + rewrite commit__begin by assumption.
      destruct (beginTransaction transport (beginRequest firestore)) as [resp|e].
      * right. right. right. exists resp. split; reflexivity.
      * right. right. left. exists e. split; reflexivity.
    + right. left. now apply commit__direct.
Qed.

End WithClient.
End CommitSteps.

Section CommitRequestProperties.
Import WriteBatch Notions CommitFacts CommitSteps.
Context {C : Collaborators}.
Variable firestore : Firestore.
Variable now : Z.
Variable transport : Transport.

Lemma sendCommit_request (tx : option (list Byte.byte)) (b : Batch) :
  forallb hasEntry (_writes b) = true ->
  exists r,
    sendCommit firestore transport tx b =
      (mkBatch (map attachPrecondition (_writes b)) true,
       [RpcCommit (commitRequest firestore (_writes b) tx) false], r).
Proof.
  intros H. rewrite sendCommit_wellformed by assumption. simpl. eauto.
Qed.

(** What a commit of a well-formed write list sends and leaves behind. *)
Lemma commit__log (fuel : nat) (commitOptions : option CommitOptions)
    (b b' : Batch) (log : list RpcCall) (r : Result (list WriteResult)) :
  forallb hasEntry (_writes b) = true ->
  commit_ firestore now transport (S (S fuel)) commitOptions b = Some (b', log, r) ->
  (exists tx, log = [RpcCommit (commitRequest firestore (_writes b) tx) false] /\
              b' = mkBatch (map attachPrecondition (_writes b)) true) \/
  (log = [RpcBeginTransaction (beginRequest firestore) true] /\ b' = b) \/
  (exists tx, log = [RpcBeginTransaction (beginRequest firestore) true;
                     RpcCommit (commitRequest firestore (_writes b) (Some tx)) false] /\
              b' = mkBatch (map attachPrecondition (_writes b)) true).
Proof.
  intros Hall H.
  destruct (commit__cases firestore now transport fuel commitOptions b)
    as [[tx E]|[E|[(e & _ & E)|(resp & _ & E)]]]; rewrite E in H.
  - destruct (sendCommit_request (Some tx) b Hall) as [r' Hs]. rewrite Hs in H.
    injection H as <- <- _. left. eauto.
  - destruct (sendCommit_request None b Hall) as [r' Hs]. rewrite Hs in H.
    injection H as <- <- _. left. eauto.
  - injection H as <- <- _. right. left. auto.
  - destruct (sendCommit_request (Some (resp_transaction resp)) b Hall) as [r' Hs].
    rewrite Hs in H. injection H as <- <- _. right. right. eauto.
Qed.

(** X13: for a write list whose operations all carry an entry, [commit_]
    sends at most two RPCs: [beginTransaction] with retries allowed and
    [commit] without; every commit RPC carries the wire entries of the write
    list.  The batch it leaves expands to the same wire entries, so a
    commit that is invoked again sends the same writes. *)
Theorem commit_sends_the_same_writes_again
    (fuel : nat) (commitOptions : option CommitOptions)
    (b b' : Batch) (log : list RpcCall) (r : Result (list WriteResult)) :
  forallb hasEntry (_writes b) = true ->
  commit_ firestore now transport (S (S fuel)) commitOptions b = Some (b', log, r) ->
  (forall req ar, In (RpcCommit req ar) log ->
     writes req = Some (wireEntries (_writes b)) /\
     database req = fs_formattedName firestore /\ ar = false) /\
  (forall req ar, In (RpcBeginTransaction req ar) log ->
     req = beginRequest firestore /\ ar = true) /\
  List.length log <= 2 /\
  wireEntries (_writes b') = wireEntries (_writes b) /\
  forallb hasEntry (_writes b') = true.
Proof.
  intros Hall H.
  destruct (commit__log fuel commitOptions b b' log r Hall H)
    as [(tx & -> & ->)|[[-> ->]|(tx & -> & ->)]]; simpl.
  - rewrite wireEntries_attach, forallb_hasEntry_attach.
    repeat split; try assumption; try lia.
    + destruct H0 as [E|[]]. now injection E as <- _.
    + destruct H0 as [E|[]]. now injection E as <- _.
    + destruct H0 as [E|[]]. now injection E as _ <-.
    + destruct H0 as [E|[]]. discriminate E.
    + destruct H0 as [E|[]]. discriminate E.
  - repeat split; try assumption; try lia;
      destruct H0 as [E|[]]; try discriminate E.
    + now injection E as <- _.
    + now injection E as _ <-.
  - rewrite wireEntries_attach, forallb_hasEntry_attach.
    repeat split; try assumption; try lia;
      destruct H0 as [E|[E|[]]]; try discriminate E.
    + now injection E as <- _.
    + now injection E as <- _.
    + now injection E as _ <-.
    + now injection E as <- _.
    + now injection E as _ <-.
Qed.

(** X14: the commit RPC carries one wire entry per operation and one more
    for each operation that has both a write and a transform: between [n]
    and [2 n] entries for [n] operations. *)
Theorem commit_request_size
    (fuel : nat) (commitOptions : option CommitOptions)
    (b b' : Batch) (log : list RpcCall) (r : Result (list WriteResult)) :
  forallb hasEntry (_writes b) = true ->
  commit_ firestore now transport (S (S fuel)) commitOptions b = Some (b', log, r) ->
  forall req ar requestWrites,
    In (RpcCommit req ar) log -> writes req = Some requestWrites ->
    List.length requestWrites =
      List.length (_writes b) + List.length (filter hasBoth (_writes b)) /\
    List.length (_writes b) <= List.length requestWrites <= 2 * List.length (_writes b).
Proof.
  intros Hall H req ar ws Hin Hws.
  assert (Hreq : writes req = Some (wireEntries (_writes b))).
  { destruct (commit__log fuel commitOptions b b' log r Hall H)
      as [(tx & -> & _)|[[-> _]|(tx & -> & _)]].
    - destruct Hin as [E|[]]. now injection E as <- _.
    - destruct Hin as [E|[]]. discriminate E.
    - destruct Hin as [E|[E|[]]]; [discriminate E|]. now injection E as <- _. }
  rewrite Hreq in Hws. injection Hws as <-.
  rewrite (wireEntries_count _ Hall).
  pose proof (filter_length_le hasBoth (_writes b)). lia.
Qed.

(** X15: an operation without a write and without a transform stops the
    commit before the commit RPC: no commit RPC is sent, the committed flag
    stays as it was, and the call fails with the assertion error (or with the
    error of [beginTransaction], when that call was made and failed). *)
Theorem commit_asserts_every_operation_has_an_entry
    (fuel : nat) (commitOptions : option CommitOptions)
    (b b' : Batch) (log : list RpcCall) (r : Result (list WriteResult)) :
  forallb hasEntry (_writes b) = false ->
  commit_ firestore now transport (S (S fuel)) commitOptions b = Some (b', log, r) ->
  (forall req ar, ~ In (RpcCommit req ar) log) /\
  _committed b' = _committed b /\
  (r = Throw entryAssertion \/
   exists e, beginTransaction transport (beginRequest firestore) = Throw e /\ r = Throw e).
Proof.
  intros Hbad H.
  destruct (commit__cases firestore now transport fuel commitOptions b)
    as [[tx E]|[E|[(e & He & E)|(resp & _ & E)]]]; rewrite E in H.
  - destruct (sendCommit_illformed firestore transport (Some tx) b Hbad) as [ops Hs].
    rewrite Hs in H. injection H as <- <- <-. simpl. auto.
  - destruct (sendCommit_illformed firestore transport None b Hbad) as [ops Hs].
    rewrite Hs in H. injection H as <- <- <-. simpl. auto.
  - injection H as <- <- <-. repeat split.
    + intros req ar [Habs|[]]. discriminate Habs.
    + right. eauto.
  - destruct (sendCommit_illformed firestore transport (Some (resp_transaction resp)) b Hbad)
      as [ops Hs].
    rewrite Hs in H. injection H as <- <- <-. simpl. repeat split.
    + intros req ar [Habs|[]]. discriminate Habs.
    + auto.
Qed.

(** X16: errors of the transport come back unchanged.  When
    [beginTransaction] fails, nothing else is sent and the batch is as
    before, still open; when the commit RPC fails, the batch is committed
    all the same. *)
Theorem commit_surfaces_transport_errors
    (fuel : nat) (commitOptions : option CommitOptions) (b : Batch) (e : JsError) :
  (explicitTransaction commitOptions = None ->
   _shouldCreateTransaction firestore now = true ->
   beginTransaction transport (beginRequest firestore) = Throw e ->
   commit_ firestore now transport (S fuel) commitOptions b =
     Some (b, [RpcBeginTransaction (beginRequest firestore) true], Throw e)) /\
  (forallb hasEntry (_writes b) = true ->
   (forall tx, commitRpc transport (commitRequest firestore (_writes b) tx) = Throw e) ->
   (_shouldCreateTransaction firestore now = true ->
    exists resp, beginTransaction transport (beginRequest firestore) = Ok resp) ->
   exists log,
     commit_ firestore now transport (S (S fuel)) commitOptions b =
       Some (mkBatch (map attachPrecondition (_writes b)) true, log, Throw e)).
Proof.
  split.
  - intros Hx Hs Hb. rewrite commit__step by assumption. now rewrite Hb.
  - intros Hall Hrpc Hbegin.
    assert (Hsend : forall tx, sendCommit firestore transport tx b =
              (mkBatch (map attachPrecondition (_writes b)) true,
               [RpcCommit (commitRequest firestore (_writes b) tx) false], Throw e)).
    { intros tx. rewrite sendCommit_wellformed by assumption. simpl. now rewrite Hrpc. }
    destruct (commit__cases firestore now transport fuel commitOptions b)
      as [[tx E]|[E|[(e' & He & E)|(resp & _ & E)]]]; rewrite E.
    + rewrite Hsend. eauto.
    + rewrite Hsend. eauto.
    + exfalso.
      destruct (_shouldCreateTransaction firestore now) eqn:Hs.
      * destruct (Hbegin eq_refl) as [resp Hr]. congruence.
      * destruct (explicitTransaction commitOptions) as [tx|] eqn:Hx.
        -- destruct commitOptions as [[t]|]; simpl in Hx; [|discriminate]. subst t.
           rewrite commit__explicit, Hsend in E. discriminate E.
        -- rewrite commit__direct, Hsend in E by assumption. discriminate E.
    + rewrite Hsend. eauto.
Qed.

(** X17: a response that does not hold one result per wire entry is never
    passed on: with operations in the batch, a count that differs fails the
    assertion, naming both counts, and a response without the array fails
    with a type error; the batch is committed in both cases. *)
Theorem commit_rejects_a_short_response
    (fuel : nat) (commitOptions : option CommitOptions) (b : Batch) (resp : CommitResponse) :
  forallb hasEntry (_writes b) = true ->
  _writes b <> [] ->
  (forall tx, commitRpc transport (commitRequest firestore (_writes b) tx) = Ok resp) ->
  (_shouldCreateTransaction firestore now = true ->
   exists tx, beginTransaction transport (beginRequest firestore) = Ok tx) ->
  match writeResults resp with
  | Some results => List.length results <> List.length (wireEntries (_writes b))
  | None => True
  end ->
  exists log,
    commit_ firestore now transport (S (S fuel)) commitOptions b =
      Some (mkBatch (map attachPrecondition (_writes b)) true, log,
            match writeResults resp with
            | Some results =>
                Throw (AssertionError
                         [Txt "Expected one write result per operation, but got ";
                          Idx (List.length results); Txt " results for ";
                          Idx (List.length (wireEntries (_writes b))); Txt " operations."])
            | None => Throw (TypeError [Txt "Cannot read property 'length' of undefined"])
            end).
Proof.
  intros Hall Hne Hrpc Hbegin Hbad.
  assert (Hpos : Nat.ltb 0 (List.length (wireEntries (_writes b))) = true).
  { apply Nat.ltb_lt. rewrite (wireEntries_count _ Hall).
    destruct (_writes b); [now elim Hne | simpl; lia]. }
  assert (Hsend : forall tx, sendCommit firestore transport tx b =
            (mkBatch (map attachPrecondition (_writes b)) true,
             [RpcCommit (commitRequest firestore (_writes b) tx) false],
             match writeResults resp with
             | Some results =>
                 Throw (AssertionError
                          [Txt "Expected one write result per operation, but got ";
                           Idx (List.length results); Txt " results for ";
                           Idx (List.length (wireEntries (_writes b))); Txt " operations."])
             | None => Throw (TypeError [Txt "Cannot read property 'length' of undefined"])
             end)).
  { intros tx. rewrite sendCommit_wellformed by assumption. simpl. rewrite Hrpc.
    unfold onCommitResponse. rewrite Hpos.
    destruct (writeResults resp) as [results|]; [|reflexivity].
    assert (Hneq : Nat.eqb (List.length (wireEntries (_writes b))) (List.length results) = false)
      by (apply Nat.eqb_neq; congruence).
    now rewrite Hneq. }
  destruct (commit__cases firestore now transport fuel commitOptions b)
    as [[tx E]|[E|[(e' & He & E)|(resp' & _ & E)]]]; rewrite E.
  - rewrite Hsend. eauto.
  - rewrite Hsend. eauto.
  - exfalso.
    destruct (_shouldCreateTransaction firestore now) eqn:Hs.
    + destruct (Hbegin eq_refl) as [tx Hr]. congruence.
    + destruct (explicitTransaction commitOptions) as [tx|] eqn:Hx.
      * destruct commitOptions as [[t]|]; simpl in Hx; [|discriminate]. subst t.
        rewrite commit__explicit, Hsend in E.
        destruct (writeResults resp); discriminate E.
      * rewrite commit__direct, Hsend in E by assumption.
        destruct (writeResults resp); discriminate E.
  - rewrite Hsend. eauto.
Qed.

End CommitRequestProperties.

(* ================================================================== *)
(** * Properties of the identifiers and of getAll's arguments (part_001) *)
(* ================================================================== *)

Module StringFacts.

Lemma length_append (s1 s2 : string) :
  String.length (s1 ++ s2) = String.length s1 + String.length s2.
Proof. induction s1 as [|c s1 IH]; simpl; [reflexivity | now rewrite IH]. Qed.

Lemma length_substring (m : nat) (s : string) :
  String.length (String.substring 0 m s) = Nat.min m (String.length s).
Proof.
  revert m. induction s as [|c s IH]; intros [|m]; simpl; try reflexivity.
  now rewrite IH.
Qed.

Lemma get_in_range (s : string) (n : nat) :
  n < String.length s <-> exists c, String.get n s = Some c.
Proof.
  revert n. induction s as [|c s IH]; intros n; simpl.
  - split; [lia | intros [c H]; destruct n; discriminate].
  - destruct n as [|n].
    + split; [eauto | lia].
    + rewrite <- IH. lia.
Qed.

Lemma length_charAt (s : string) (n : nat) :
  n < String.length s -> String.length (Util.charAt s n) = 1.
Proof.
  intros H. apply get_in_range in H as [c H]. unfold Util.charAt. now rewrite H.
Qed.

Lemma get_charAt (s : string) (n : nat) :
  n < String.length s -> String.get 0 (Util.charAt s n) = String.get n s.
Proof.
  intros H. apply get_in_range in H as [c H]. unfold Util.charAt. now rewrite H.
Qed.

End StringFacts.

Section IdentifierFacts.
Import Util StringFacts.
Variable draw : nat -> nat.
Hypothesis draw_in_range : forall i, draw i < String.length chars.

Lemma autoIdFrom_length (n i : nat) (s : string) :
  String.length (autoIdFrom draw i n s) = String.length s + n.
Proof.
  revert i s. induction n as [|n IH]; intros i s; cbn [autoIdFrom]; [lia|].
  rewrite IH, length_append, length_charAt by apply draw_in_range. lia.
Qed.

Lemma autoIdFrom_prefix (n i : nat) (s : string) (k : nat) :
  k < String.length s -> String.get k (autoIdFrom draw i n s) = String.get k s.
Proof.
  revert i s. induction n as [|n IH]; intros i s Hk; cbn [autoIdFrom]; [reflexivity|].
  rewrite IH by (rewrite length_append; lia).
  symmetry. now apply append_correct1.
Qed.

Lemma autoIdFrom_get (n i : nat) (s : string) (j : nat) :
  j < n ->
  String.get (String.length s + j) (autoIdFrom draw i n s) = String.get (draw (i + j)) chars.
Proof.
  revert i s j. induction n as [|n IH]; intros i s j Hj; [lia|]. cbn [autoIdFrom].
  destruct j as [|j].
  - rewrite !Nat.add_0_r, autoIdFrom_prefix
      by (rewrite length_append, length_charAt by apply draw_in_range; lia).
    pose proof (append_correct2 s (charAt chars (draw i)) 0) as Happ.
    cbn [Nat.add] in Happ. rewrite <- Happ. apply get_charAt, draw_in_range.
  - specialize (IH (S i) (s ++ charAt chars (draw i))%string j ltac:(lia)).
    rewrite length_append, length_charAt in IH by apply draw_in_range.
    replace (String.length s + S j) with (String.length s + 1 + j) by lia.
    rewrite IH. f_equal. f_equal. lia.
Qed.

End IdentifierFacts.

(** X18: when every draw of [Math.floor(Math.random() * chars.length)] is
    an index into the alphabet, as it is for a random number in [0, 1),
    [autoId] is 20 characters long and its character at position [k] is
    the letter or digit selected by draw [k]; [requestTag] consists of the
    first 5 characters of that identifier. *)
Theorem autoId_is_twenty_alphanumerics (draw : nat -> nat) :
  (forall i, draw i < String.length Util.chars) ->
  String.length (Util.autoId draw) = 20 /\
  (forall k, k < 20 -> String.get k (Util.autoId draw) = String.get (draw k) Util.chars) /\
  (forall k c, String.get k (Util.autoId draw) = Some c ->
     exists j, j < 62 /\ String.get j Util.chars = Some c) /\
  String.length (Util.requestTag draw) = 5 /\
  (forall k, k < 5 -> String.get k (Util.requestTag draw) = String.get k (Util.autoId draw)).
Proof.
  intros Hdraw.
  assert (Hlen : String.length (Util.autoId draw) = 20)
    by apply (autoIdFrom_length draw Hdraw 20 0 EmptyString).
  assert (Hget : forall k, k < 20 ->
            String.get k (Util.autoId draw) = String.get (draw k) Util.chars)
    by (intros k Hk; apply (autoIdFrom_get draw Hdraw 20 0 EmptyString k Hk)).
  split; [exact Hlen|]. split; [exact Hget|]. split; [|split].
  - intros k c Hk.
    assert (Hlt : k < 20).
    { rewrite <- Hlen. apply StringFacts.get_in_range. eauto. }
    exists (draw k). split; [apply Hdraw|]. now rewrite <- Hget.
  - unfold Util.requestTag. now rewrite StringFacts.length_substring, Hlen.
  - intros k Hk. unfold Util.requestTag.
    rewrite substring_correct1 by assumption. now rewrite Nat.add_0_r.
Qed.

Lemma autoId_is_twenty_alphanumerics_witness :
  (forall i, (2 * i) mod 62 < String.length Util.chars) /\
  Util.autoId (fun k => (2 * k) mod 62) = "ACEGIKMOQSUWYacegikm" /\
  String.length (Util.requestTag (fun k => (2 * k) mod 62)) = 5.
Proof.
  assert (H : forall i, (2 * i) mod 62 < String.length Util.chars)
    by (intros i; apply Nat.mod_upper_bound; discriminate).
  split; [exact H|]. split; [reflexivity|].
  exact (proj1 (proj2 (proj2 (proj2
           (autoId_is_twenty_alphanumerics (fun k => (2 * k) mod 62) H))))).
Defined.

Lemma JsValue_eq_undefined (v : JsValue) : v = VUndefined \/ v <> VUndefined.
Proof. destruct v; [now left | right; discriminate ..]. Qed.

Lemma getProp_array (o : JsValue) (k : string) (items : list JsValue) :
  getProp o k = Ok (VArray items) -> truthy o = true /\ prop o k = VArray items.
Proof.
  destruct o; simpl; intros H; try discriminate H; injection H as H;
    try discriminate H; auto.
Qed.

Section GetAllProperties.
Context {C : Collaborators}.

Lemma validateDocumentsFrom_ok (documents : list JsValue) :
  forall i,
    Util.validateDocumentsFrom i documents = Ok tt <->
    (forall k d, nth_error documents k = Some d ->
       validateDocumentReference (ArgIdx (i + k)) d = Ok tt).
Proof.
  induction documents as [|d documents IH]; intros i; simpl.
  - split; [|reflexivity]. intros _ [|k] y; discriminate.
  - destruct (validateDocumentReference (ArgIdx i) d) as [[]|e] eqn:Hd; simpl.
    + rewrite IH. split.
      * intros H [|k] y Hk; simpl in Hk.
        -- injection Hk as <-. now rewrite Nat.add_0_r.
        -- rewrite Nat.add_succ_r. now apply (H k y).
      * intros H k y Hk. specialize (H (S k) y Hk). now rewrite Nat.add_succ_r in H.
    + split; [discriminate|].
      intros H. specialize (H 0%nat d eq_refl). rewrite Nat.add_0_r in H. congruence.
Qed.

(** X19: [parseGetAllArguments] succeeds exactly when every document it
    picked from its arguments is a valid reference at its index and the read
    options are either absent, which gives no field mask, or carry an array
    [fieldMask] of valid field paths, which gives the field mask converted
    element by element; the documents come back as picked.  In
    particular a field mask is missing from the result only when no read
    options were passed. *)
Theorem parseGetAllArguments_succeeds_iff
    (args : list JsValue) (fieldMask : option (list FieldPath.t)) (documents : list JsValue) :
  Util.parseGetAllArguments args = Ok (fieldMask, documents) <->
  documents = fst (Util.splitGetAllArguments args) /\
  (forall k d, nth_error documents k = Some d ->
     validateDocumentReference (ArgIdx k) d = Ok tt) /\
  (snd (Util.splitGetAllArguments args) = VUndefined /\ fieldMask = None \/
   snd (Util.splitGetAllArguments args) <> VUndefined /\
   exists items,
     getProp (snd (Util.splitGetAllArguments args)) "fieldMask" = Ok (VArray items) /\
     (forall k x, nth_error items k = Some x -> validateFieldPath (ArgIdx k) x = Ok tt) /\
     fieldMask = Some (map FieldPath_fromArgument items)).
Proof.
  unfold Util.parseGetAllArguments.
  destruct (Util.splitGetAllArguments args) as [docs readOptions]. simpl fst. simpl snd.
  pose proof (validateDocumentsFrom_ok docs 0) as Hdocs. simpl in Hdocs.
  destruct (Util.validateDocumentsFrom 0 docs) as [[]|e] eqn:Ed; simpl.
  - assert (Hvalid : forall k d, nth_error docs k = Some d ->
              validateDocumentReference (ArgIdx k) d = Ok tt) by now apply Hdocs.
    destruct (JsValue_eq_undefined readOptions) as [->|Hdef].
    + simpl. split.
      * intros H. injection H as <- <-. split; [reflexivity|]. split; [exact Hvalid|].
        left. split; reflexivity.
      * intros (-> & _ & [[_ ->]|[Habs _]]); [reflexivity | now elim Habs].
    + rewrite validateReadOptions_defined by assumption.
      destruct (getProp readOptions "fieldMask") as [mask|e] eqn:Hget;
        [|split; [discriminate |
                  intros (_ & _ & [[Habs _]|(_ & its & Hi & _)]);
                  [now elim Hdef | discriminate]]].
      destruct (Array_isArray mask) eqn:Harr.
      * destruct mask as [| | | | | |items| |]; try discriminate Harr.
        destruct (getProp_array _ _ _ Hget) as [Htruthy Hprop].
        rewrite Htruthy, Hprop. cbn [truthy andb array_items].
        pose proof (validateFieldMaskFrom_ok (ArgStr "options") items 0) as Hmask.
        simpl in Hmask.
        destruct (Util.validateFieldMaskFrom (ArgStr "options") 0 items) as [[]|e] eqn:Em;
          simpl.
        -- split.
           ++ intros H. injection H as <- <-. split; [reflexivity|]. split; [exact Hvalid|].
              right. split; [exact Hdef|]. exists items.
              split; [reflexivity|]. split; [now apply Hmask | reflexivity].
           ++ intros (-> & _ & [[Habs _]|(_ & its & Hi & _ & ->)]); [now elim Hdef|].
              injection Hi as <-. reflexivity.
        -- split; [discriminate|].
           intros (_ & _ & [[Habs _]|(_ & its & Hi & Hall & _)]); [now elim Hdef|].
           injection Hi as <-. apply Hmask in Hall. discriminate.
      * assert (Hno : forall its, Ok mask <> Ok (VArray its))
          by (intros its H; injection H as ->; discriminate Harr).
        destruct mask; try discriminate Harr; simpl;
          (split; [discriminate |
                   intros (_ & _ & [[Habs _]|(_ & its & Hi & _)]);
                   [now elim Hdef | now elim (Hno its)]]).
  - split; [discriminate|]. intros (-> & Hvalid & _).
    apply Hdocs in Hvalid. discriminate.
Qed.

End GetAllProperties.

(* ================================================================== *)
(** * The properties above on the examples *)
(* ================================================================== *)

Section MoreExamples.
Import WriteBatch Notions.

Lemma required_argument_is_checked_witness :
  isOptional VUndefined None = false /\
  validateString (ArgStr "name") VUndefined None =
    Throw (Error (createErrorDescription (ArgStr "name") "string")) /\
  validateBoolean (ArgIdx 1) (VBoolean true) (Some (mkOptions (Some true) None None)) =
    validateBoolean (ArgIdx 1) (VBoolean true) None.
Proof.
  split; [reflexivity|]. split.
  - exact (proj1 (proj2 (proj2 (proj2 (proj2
             (proj1 (required_argument_is_checked (ArgStr "name") VUndefined None [])
                eq_refl)))))).
  - exact (proj1 (proj2 (proj2 (proj2
             (proj2 (required_argument_is_checked (ArgIdx 1) (VBoolean true)
                       (Some (mkOptions (Some true) None None)) [])
                ltac:(discriminate)))))).
Defined.

Lemma isEmpty_after_append_and_commit_witness :
  isEmpty newBatch = true /\
  isEmpty (fst (runAppend (C := SpecModel.collaborators) (Delete Examples.documentRef VUndefined) newBatch)) = false.
Proof.
  split; [reflexivity|].
  exact (proj1 (isEmpty_after_append_and_commit (C := SpecModel.collaborators) Examples.firestore 0
                  (Examples.transport (Examples.response [1; 2]%Z)))
           (Delete Examples.documentRef VUndefined) newBatch _ eq_refl).
Defined.

Lemma commit_sends_the_same_writes_again_witness :
  forallb hasEntry (_writes Examples.batchWithTransform) = true /\
  exists b' log r,
    commit (C := SpecModel.collaborators) Examples.firestore 0 (Examples.transport (Examples.response [1; 2]%Z))
      Examples.batchWithTransform = Some (b', log, r) /\
    List.length log <= 2 /\
    wireEntries (_writes b') = wireEntries (_writes Examples.batchWithTransform).
Proof.
  split; [reflexivity|].
  destruct (CommitFacts.commit__total (C := SpecModel.collaborators) Examples.firestore 0
              (Examples.transport (Examples.response [1; 2]%Z)) 0 None Examples.batchWithTransform)
    as [[[b' log] r] E].
  exists b', log, r. split; [exact E|].
  destruct (commit_sends_the_same_writes_again (C := SpecModel.collaborators) Examples.firestore 0
              (Examples.transport (Examples.response [1; 2]%Z)) 0 None Examples.batchWithTransform b' log r eq_refl E)
    as (_ & _ & Hlen & Hw & _).
  split; assumption.
Defined.

Lemma commit_request_size_witness :
  forallb hasEntry (_writes Examples.batchWithTransform) = true /\
  List.length (_writes Examples.batchWithTransform) = 1 /\
  List.length (filter hasBoth (_writes Examples.batchWithTransform)) = 1 /\
  exists b' log r,
    commit (C := SpecModel.collaborators) Examples.firestore 0 (Examples.transport (Examples.response [1; 2]%Z))
      Examples.batchWithTransform = Some (b', log, r) /\
    forall req ar requestWrites,
      In (RpcCommit req ar) log -> writes req = Some requestWrites ->
      List.length requestWrites = 2.
Proof.
  split; [reflexivity|]. split; [reflexivity|]. split; [reflexivity|].
  destruct (CommitFacts.commit__total (C := SpecModel.collaborators) Examples.firestore 0
              (Examples.transport (Examples.response [1; 2]%Z)) 0 None Examples.batchWithTransform)
    as [[[b' log] r] E].
  exists b', log, r. split; [exact E|].
  intros req ar ws Hin Hws.
  exact (proj1 (commit_request_size (C := SpecModel.collaborators) Examples.firestore 0
                  (Examples.transport (Examples.response [1; 2]%Z)) 0 None Examples.batchWithTransform b' log r eq_refl E
                  req ar ws Hin Hws)).
Defined.

Lemma commit_asserts_every_operation_has_an_entry_witness :
  forallb hasEntry [mkWriteOp None None None] = false /\
  exists b' log r,
    commit (C := SpecModel.collaborators) Examples.firestore 0 (Examples.transport (Examples.response [1; 2]%Z))
      (mkBatch [mkWriteOp None None None] false) = Some (b', log, r) /\
    (forall req ar, ~ In (RpcCommit req ar) log) /\
    _committed b' = false.
Proof.
  split; [reflexivity|].
  destruct (CommitFacts.commit__total (C := SpecModel.collaborators) Examples.firestore 0
              (Examples.transport (Examples.response [1; 2]%Z)) 0 None (mkBatch [mkWriteOp None None None] false))
    as [[[b' log] r] E].
  exists b', log, r. split; [exact E|].
  destruct (commit_asserts_every_operation_has_an_entry (C := SpecModel.collaborators) Examples.firestore 0
              (Examples.transport (Examples.response [1; 2]%Z)) 0 None (mkBatch [mkWriteOp None None None] false) b' log r eq_refl E)
    as (Hlog & Hflag & _).
  split; assumption.
Defined.

Lemma commit_surfaces_transport_errors_witness :
  explicitTransaction None = None /\
  _shouldCreateTransaction Examples.firestore 0 = true /\
  commit (C := SpecModel.collaborators) Examples.firestore 0
    (mkTransport (fun _ => Throw (Error [Txt "14 UNAVAILABLE"])) (fun _ => Ok (Examples.response [1; 2]%Z)))
    Examples.batchWithTransform =
    Some (Examples.batchWithTransform,
          [RpcBeginTransaction (beginRequest Examples.firestore) true],
          Throw (Error [Txt "14 UNAVAILABLE"])) /\
  exists log,
    commit (C := SpecModel.collaborators) Examples.firestore 0
      (mkTransport (fun _ => Ok (mkIBeginTransactionResponse [Byte.x01]))
                   (fun _ => Throw (Error [Txt "10 ABORTED"])))
      Examples.batchWithTransform =
      Some (mkBatch (map attachPrecondition (_writes Examples.batchWithTransform)) true,
            log, Throw (Error [Txt "10 ABORTED"])).
Proof.
  split; [reflexivity|]. split; [reflexivity|]. split.
  - exact (proj1 (commit_surfaces_transport_errors (C := SpecModel.collaborators) Examples.firestore 0
                    (mkTransport (fun _ => Throw (Error [Txt "14 UNAVAILABLE"]))
                                 (fun _ => Ok (Examples.response [1; 2]%Z)))
                    1 None Examples.batchWithTransform (Error [Txt "14 UNAVAILABLE"]))
             eq_refl eq_refl eq_refl).
  - exact (proj2 (commit_surfaces_transport_errors (C := SpecModel.collaborators) Examples.firestore 0
                    (mkTransport (fun _ => Ok (mkIBeginTransactionResponse [Byte.x01]))
                                 (fun _ => Throw (Error [Txt "10 ABORTED"])))
                    0 None Examples.batchWithTransform (Error [Txt "10 ABORTED"]))
             eq_refl (fun _ => eq_refl) (fun _ => ex_intro _ _ eq_refl)).
Defined.

Lemma commit_rejects_a_short_response_witness :
  forallb hasEntry (_writes Examples.batchWithTransform) = true /\
  _writes Examples.batchWithTransform <> [] /\
  List.length (wireEntries (_writes Examples.batchWithTransform)) = 2 /\
  exists log,
    commit (C := SpecModel.collaborators) Examples.firestore 0 (Examples.transport (Examples.response [1]%Z))
      Examples.batchWithTransform =
      Some (mkBatch (map attachPrecondition (_writes Examples.batchWithTransform)) true, log,
            Throw (AssertionError
                     [Txt "Expected one write result per operation, but got ";
                      Idx 1; Txt " results for "; Idx 2; Txt " operations."])).
Proof.
  split; [reflexivity|]. split; [discriminate|]. split; [reflexivity|].
  exact (commit_rejects_a_short_response (C := SpecModel.collaborators) Examples.firestore 0
           (Examples.transport (Examples.response [1]%Z)) 0 None
           Examples.batchWithTransform (Examples.response [1]%Z)
           eq_refl ltac:(discriminate) (fun _ => eq_refl)
           (fun _ => ex_intro _ _ eq_refl) ltac:(discriminate)).
Defined.

Lemma parseGetAllArguments_succeeds_iff_witness :
  Util.parseGetAllArguments (C := SpecModel.collaborators) [Examples.documentRef] =
    Ok (None, [Examples.documentRef]).
Proof.
  apply (proj2 (parseGetAllArguments_succeeds_iff (C := SpecModel.collaborators) [Examples.documentRef] None
                  [Examples.documentRef])).
  split; [reflexivity|]. split.
  - intros [|[|k]] d Hk; try discriminate Hk. injection Hk as <-. reflexivity.
  - left. split; reflexivity.
Defined.

End MoreExamples.
